(** * mom6-tools: overturning streamfunction and weighted statistics

    A shallow embedding of [mom6_tools/moc.py] ([MOCpsi], [findExtrema], and
    the loop over time of [main]) and [mom6_tools/stats.py] ([check_dims],
    [min_da], [max_da], [mean_da], [std_da], [rms_da], [myStats_da],
    [HorizontalMeanRmse_da], [HorizontalMeanDiff_da]).

    Numbers.  The arrays hold float64 values.  The functions are written once,
    over an interface [FloatOps] of the float operations they use, and read
    at two instances:
    - [binary64]: Rocq's primitive floats, IEEE 754 binary64 as numpy has
      them (all NaNs are one value);
    - [exact]: rationals extended with the two infinities and NaN, that is
      float64 without rounding, without overflow and without a signed zero.
      It is used where the values are only compared, multiplied by 1 or -1,
      or tested for a difference of zero, on which the two agree; what
      depends on rounding is stated at [binary64].
    [numpy.sqrt] and the order in which numpy adds up a run of values are
    parameters of the functions that use them.

    Arrays.  A numpy array is its shape and the value at each index (a list
    of positions, one per axis); [ravel] lists the values in row-major order.
    An xarray DataArray is such an array with named dimensions, coordinate
    names and attributes. *)

From Stdlib Require Import Ascii String ZArith QArith Qabs Bool List Lia Lqa Floats Uint63.
Import ListNotations.

Close Scope Q_scope.
Open Scope nat_scope.

(** ** The float operations used by the programs *)

Class FloatOps (F : Type) : Type := {
  fzero : F;
  fone : F;
  fnan : F;
  fadd : F -> F -> F;
  fsub : F -> F -> F;
  fmul : F -> F -> F;
  fdiv : F -> F -> F;
  fopp : F -> F;
  fabs : F -> F;
  feqb : F -> F -> bool;
  fltb : F -> F -> bool;
  fleb : F -> F -> bool;
  fisnan : F -> bool;
  fofnat : nat -> F
}.

(** IEEE 754 binary64. *)
#[export] Instance binary64 : FloatOps float := {|
  fzero := PrimFloat.zero;
  fone := PrimFloat.one;
  fnan := PrimFloat.nan;
  fadd := PrimFloat.add;
  fsub := PrimFloat.sub;
  fmul := PrimFloat.mul;
  fdiv := PrimFloat.div;
  fopp := PrimFloat.opp;
  fabs := PrimFloat.abs;
  feqb := PrimFloat.eqb;
  fltb := PrimFloat.ltb;
  fleb := PrimFloat.leb;
  fisnan := PrimFloat.is_nan;
  fofnat := fun n => PrimFloat.of_uint63 (Uint63.of_Z (Z.of_nat n))
|}.

(** float64 without rounding: a rational, an infinity or NaN. *)
Inductive xfloat : Type :=
| Fin (q : Q)
| PInf
| NInf
| NaN.

Definition x_opp (x : xfloat) : xfloat :=
  match x with
  | Fin q => Fin (- q)%Q
  | PInf => NInf
  | NInf => PInf
  | NaN => NaN
  end.

Definition x_add (x y : xfloat) : xfloat :=
  match x, y with
  | NaN, _ | _, NaN => NaN
  | PInf, NInf | NInf, PInf => NaN
  | PInf, _ | _, PInf => PInf
  | NInf, _ | _, NInf => NInf
  | Fin a, Fin b => Fin (a + b)%Q
  end.

Definition x_sub (x y : xfloat) : xfloat := x_add x (x_opp y).

(** [0 ?= q]: [Lt] for a positive [q], [Eq] for zero, [Gt] for a negative one. *)
Definition Qsign (q : Q) : comparison := (0 ?= q)%Q.

(** An infinity of sign [pos] scaled by a factor of sign [c]. *)
Definition x_inf_scaled (pos : bool) (c : comparison) : xfloat :=
  match c with
  | Eq => NaN
  | Lt => if pos then PInf else NInf
  | Gt => if pos then NInf else PInf
  end.

Definition x_mul (x y : xfloat) : xfloat :=
  match x, y with
  | NaN, _ | _, NaN => NaN
  | Fin a, Fin b => Fin (a * b)%Q
  | PInf, Fin b => x_inf_scaled true (Qsign b)
  | NInf, Fin b => x_inf_scaled false (Qsign b)
  | Fin a, PInf => x_inf_scaled true (Qsign a)
  | Fin a, NInf => x_inf_scaled false (Qsign a)
  | PInf, PInf | NInf, NInf => PInf
  | PInf, NInf | NInf, PInf => NInf
  end.

(** Division: [0/0] is NaN, [a/0] an infinity of the sign of [a] (the model
    has one zero, the positive one). *)
Definition x_div (x y : xfloat) : xfloat :=
  match x, y with
  | NaN, _ | _, NaN => NaN
  | Fin a, Fin b =>
      if Qeq_bool b 0%Q then x_inf_scaled true (Qsign a) else Fin (a / b)%Q
  | Fin _, (PInf | NInf) => Fin 0%Q
  | PInf, Fin b => if Qle_bool 0%Q b then PInf else NInf
  | NInf, Fin b => if Qle_bool 0%Q b then NInf else PInf
  | (PInf | NInf), (PInf | NInf) => NaN
  end.

Definition x_abs (x : xfloat) : xfloat :=
  match x with
  | Fin q => Fin (Qabs q)
  | PInf | NInf => PInf
  | NaN => NaN
  end.

Definition x_eqb (x y : xfloat) : bool :=
  match x, y with
  | Fin a, Fin b => Qeq_bool a b
  | PInf, PInf | NInf, NInf => true
  | _, _ => false
  end.

Definition x_leb (x y : xfloat) : bool :=
  match x, y with
  | NaN, _ | _, NaN => false
  | NInf, _ | _, PInf => true
  | Fin a, Fin b => Qle_bool a b
  | _, _ => false
  end.

Definition x_ltb (x y : xfloat) : bool :=
  match x, y with
  | NaN, _ | _, NaN => false
  | Fin a, Fin b => negb (Qle_bool b a)
  | NInf, (Fin _ | PInf) | Fin _, PInf => true
  | _, _ => false
  end.

Definition x_isnan (x : xfloat) : bool :=
  match x with NaN => true | _ => false end.

#[export] Instance exact : FloatOps xfloat := {|
  fzero := Fin 0%Q;
  fone := Fin 1%Q;
  fnan := NaN;
  fadd := x_add;
  fsub := x_sub;
  fmul := x_mul;
  fdiv := x_div;
  fopp := x_opp;
  fabs := x_abs;
  feqb := x_eqb;
  fltb := x_ltb;
  fleb := x_leb;
  fisnan := x_isnan;
  fofnat := fun n => Fin (inject_Z (Z.of_nat n))
|}.

(** ** numpy arrays *)

Section NDArray.
Context {F : Type} {ops : FloatOps F}.

Record ndarray : Type := mk_ndarray {
  shape : list nat;
  item : list nat -> F
}.

(** The indices of an array of shape [s], in row-major order. *)
Fixpoint indices (s : list nat) : list (list nat) :=
  match s with
  | [] => [[]]
  | n :: s' => flat_map (fun i => map (cons i) (indices s')) (seq 0 n)
  end.

(** [a.ravel()] *)
Definition ravel (a : ndarray) : list F := map (item a) (indices (shape a)).

(** Two arrays with the same shape and the same values. *)
Definition same_array (a b : ndarray) : Prop :=
  shape a = shape b /\ ravel a = ravel b.

(** [numpy.zeros(s)] *)
Definition np_zeros (s : list nat) : ndarray :=
  mk_ndarray s (fun _ => fzero).

(** [a[p0, p1, ...]]: the sub-array at the leading positions [pre]. *)
Definition getitem (a : ndarray) (pre : list nat) : ndarray :=
  mk_ndarray (skipn (length pre) (shape a)) (fun idx => item a (pre ++ idx)).

(** [strip_prefix pre idx] is [Some rest] when [idx = pre ++ rest]. *)
Fixpoint strip_prefix (pre idx : list nat) : option (list nat) :=
  match pre, idx with
  | [], _ => Some idx
  | p :: pre', i :: idx' => if Nat.eqb p i then strip_prefix pre' idx' else None
  | _ :: _, [] => None
  end.

(** [a[p0, p1, ..., :] = r]: the array after the assignment. *)
Definition setitem (a : ndarray) (pre : list nat) (r : ndarray) : ndarray :=
  mk_ndarray (shape a)
    (fun idx => match strip_prefix pre idx with
                | Some rest => item r rest
                | None => item a idx
                end).

(** The index into an operand of shape [s] that numpy's broadcasting pairs
    with the index [idx] of the result, for an operand whose rank is at most
    the rank of the result (the masks of [MOCpsi] and of [where]): the
    trailing axes are aligned and an axis of length one is repeated. *)
Definition broadcast_index (s idx : list nat) : list nat :=
  map (fun di => if Nat.eqb (fst di) 1 then 0 else snd di)
      (combine s (skipn (length idx - length s) idx)).

(** [m * a] where [m] broadcasts to the shape of [a]. *)
Definition np_multiply (m a : ndarray) : ndarray :=
  mk_ndarray (shape a)
    (fun idx => fmul (item m (broadcast_index (shape m) idx)) (item a idx)).

(** [a - b] for arrays of one shape. *)
Definition np_subtract (a b : ndarray) : ndarray :=
  mk_ndarray (shape a) (fun idx => fsub (item a idx) (item b idx)).

(** [-a] *)
Definition np_negative (a : ndarray) : ndarray :=
  mk_ndarray (shape a) (fun idx => fopp (item a idx)).

(** [numpy.flip(a, axis=0)] *)
Definition np_flip (a : ndarray) : ndarray :=
  mk_ndarray (shape a)
    (fun idx => match idx with
                | i :: rest => item a ((hd 0 (shape a) - 1 - i) :: rest)
                | [] => item a []
                end).

(** [numpy.concatenate([numpy.zeros((1,) + a.shape[1:]), a])] *)
Definition prepend_zeros (a : ndarray) : ndarray :=
  mk_ndarray (S (hd 0 (shape a)) :: tl (shape a))
    (fun idx => match idx with
                | 0 :: _ => fzero
                | S i :: rest => item a (i :: rest)
                | [] => fzero
                end).

(** The partial sums [c 0 = f 0], [c (i+1) = c i + f (i+1)]. *)
Fixpoint accumulate (f : nat -> F) (i : nat) : F :=
  match i with
  | 0 => f 0
  | S i' => fadd (accumulate f i') (f i)
  end.

(** [numpy.cumsum(a, axis=0)] *)
Definition np_cumsum (a : ndarray) : ndarray :=
  mk_ndarray (shape a)
    (fun idx => match idx with
                | i :: rest => accumulate (fun i' => item a (i' :: rest)) i
                | [] => item a []
                end).

(** [range(m, 0, -1)] *)
Fixpoint range_down (m : nat) : list nat :=
  match m with
  | 0 => []
  | S m' => m :: range_down m'
  end.

(** [shape[-3] += 1]; [None] is Python's IndexError on a shorter list. *)
Definition incr_third_last (s : list nat) : option (list nat) :=
  match rev s with
  | a :: b :: c :: r => Some (rev r ++ [S c; b; a])
  | _ => None
  end.

(** [s[-3]] of a list of length three at least. *)
Definition third_last (s : list nat) : nat := nth (length s - 3) s 0.

Section Reductions.
(** [numpy]'s [add.reduce] over one run of values.  numpy chooses the
    order of the additions (pairwise on long runs), so the reduction is
    a parameter of the model. *)
Variable np_sum : list F -> F.

(** [a.sum(axis=-1)] *)
Definition sum_last (a : ndarray) : ndarray :=
  mk_ndarray (removelast (shape a))
    (fun idx => np_sum (map (fun i => item a (idx ++ [i]))
                            (seq 0 (last (shape a) 0)))).

(** The zonal sum of one layer of [MOCpsi]: [a.sum(axis=-1)] or
    [(vmsk*a).sum(axis=-1)]. *)
Definition zonal (vmsk : option ndarray) (a : ndarray) : ndarray :=
  match vmsk with
  | None => sum_last a
  | Some m => sum_last (np_multiply m a)
  end.

(** The body of the loops of [MOCpsi]:
    [psi[k-1,:] = psi[k,:] - zonal(vh[k-1])] when [pre] is empty and
    [psi[n,k-1,:] = psi[n,k,:] - zonal(vh[n,k-1])] when [pre] is [[n]]. *)
Definition scan_step (vmsk : option ndarray) (vh : ndarray)
    (pre : list nat) (psi : ndarray) (k : nat) : ndarray :=
  setitem psi (pre ++ [k - 1])
    (np_subtract (getitem psi (pre ++ [k]))
                 (zonal vmsk (getitem vh (pre ++ [k - 1])))).

(** [for k in range(nlev-1, 0, -1): ...], from the deepest layer up. *)
Definition scan (vmsk : option ndarray) (vh : ndarray)
    (pre : list nat) (nlev : nat) (psi : ndarray) : ndarray :=
  fold_left (scan_step vmsk vh pre) (range_down (nlev - 1)) psi.

(** [MOCpsi(vh, vmsk)] of moc.py.  [None] is the IndexError of
    [shape[-3]] on an array of rank below three.  The contract is a
    transport of rank three or four and a mask that broadcasts to a
    horizontal slice; numpy's shape errors outside it are not modelled. *)
Definition MOCpsi (vh : ndarray) (vmsk : option ndarray) : option ndarray :=
  match incr_third_last (shape vh) with
  | None => None
  | Some shape' =>
      let psi := np_zeros (removelast shape') in
      if Nat.eqb (length shape') 3 then
        Some (scan vmsk vh [] (third_last shape') psi)
      else
        Some (fold_left
                (fun psi n => scan vmsk vh [n] (third_last shape') psi)
                (seq 0 (hd 0 shape')) psi)
  end.

(** The column a scan builds over the bottom value [b] from the zonal
    sums [z k] of the layers: its value [d] interfaces above the bottom
    of [nk] layers. *)
Fixpoint interface_above (z : nat -> F) (b : F) (nk d : nat) : F :=
  match d with
  | 0 => b
  | S d' => fsub (interface_above z b nk d') (z (nk - d))
  end.

(** The reference of the specification: reverse the depth-layer axis,
    take the forward cumulative sum of the negated zonal layer sums
    after a zero row for the bottom interface, and reverse back. *)
Definition MOCpsi_cumsum (vh : ndarray) (vmsk : option ndarray) : ndarray :=
  np_flip (np_cumsum (prepend_zeros (np_negative (zonal vmsk (np_flip vh))))).
End Reductions.

(** A mask within the contract of [MOCpsi]: none, or an array of rank two
    at most, which numpy aligns with the two horizontal axes. *)
Definition horizontal_mask (vmsk : option ndarray) : Prop :=
  match vmsk with
  | None => True
  | Some m => length (shape m) <= 2
  end.

(** Summation from left to right starting at zero: the reduction used in
    the worked examples, whose short rows sum to the same value in any
    order. *)
Definition sum_seq (l : list F) : F := fold_left fadd l fzero.
End NDArray.

Arguments ndarray F : clear implicits.

(** ** [findExtrema] *)

Section Extrema.
Context {F : Type} {ops : FloatOps F}.

(** [numpy.maximum(a, b)]: a NaN wins. *)
Definition np_maximum (a b : F) : F :=
  if fisnan a || fleb b a then a else b.

(** [numpy.amax] of a run of values; [None] is the ValueError numpy raises
    on an empty one. *)
Definition np_amax (l : list F) : option F :=
  match l with
  | [] => None
  | x :: r => Some (fold_left np_maximum r x)
  end.

(** The loop of [numpy.argmin]: [mp] is the least value so far and [mi]
    its index, [i] the index of the head of [l].  A later value replaces
    [mp] unless it is greater or equal, and the loop stops at a NaN. *)
Fixpoint argmin_from (l : list F) (i : nat) (mp : F) (mi : nat) : nat :=
  match l with
  | [] => mi
  | x :: r =>
      if fisnan mp then mi
      else if fleb mp x then argmin_from r (S i) mp mi
           else argmin_from r (S i) x i
  end.

(** [numpy.argmin] of a run of values; [None] is its ValueError on an
    empty one. *)
Definition np_argmin (l : list F) : option nat :=
  match l with
  | [] => None
  | x :: r => Some (argmin_from r 1 x 0)
  end.

(** [numpy.unravel_index(idx, shape)] for a shape of rank two; [None] is
    the ValueError of unpacking another rank into [(j, i)]. *)
Definition unravel_index (idx : nat) (s : list nat) : option (nat * nat) :=
  match s with
  | [_; n1] => Some (idx / n1, idx mod n1)
  | _ => None
  end.

(** The cells the search is restricted to:
    [(y>=min_lat) & (y<=max_lat) & (z<-min_depth)]. *)
Definition in_window (y z : ndarray F) (min_lat max_lat min_depth : F)
    (idx : list nat) : bool :=
  fleb min_lat (item y idx) && fleb (item y idx) max_lat
  && fltb (item z idx) (fopp min_depth).

(** [numpy.ma.array(psi)[...]]: the values of the cells of the window, in
    row-major order. *)
Definition window_values (y z psi : ndarray F) (min_lat max_lat min_depth : F)
    : list F :=
  map (item psi)
      (filter (in_window y z min_lat max_lat min_depth) (indices (shape psi))).

(** Stage one, [psiMax = mult*numpy.amax(mult * window)]. *)
Definition psiMax (y z psi : ndarray F) (min_lat max_lat min_depth mult : F)
    : option F :=
  option_map (fmul mult)
    (np_amax (map (fmul mult)
                  (window_values y z psi min_lat max_lat min_depth))).

(** [numpy.abs(x - m)] *)
Definition distance (x m : F) : F := fabs (fsub x m).

(** Stage two, over the whole array:
    [idx = numpy.argmin(numpy.abs(psi-psiMax))] and
    [(j,i) = numpy.unravel_index(idx, psi.shape)]. *)
Definition locate (psi : ndarray F) (m : F) : option (nat * nat) :=
  match np_argmin (map (fun x => distance x m) (ravel psi)) with
  | None => None
  | Some idx => unravel_index idx (shape psi)
  end.

(** What a call leaves behind: with [plot] the mark at [(y[j,i], z[j,i])]
    and its label [psi[j,i]] (formatted with one decimal by the source),
    without it the returned value [psi[j,i]]. *)
Inductive extremum : Type :=
| Plotted (py pz label : F)
| Returned (value : F).

(** [findExtrema(y, z, psi, min_lat, max_lat, min_depth, mult, plot)] of
    moc.py; [None] stands for an exception. *)
Definition findExtrema (y z psi : ndarray F)
    (min_lat max_lat min_depth mult : F) (plot : bool) : option extremum :=
  match psiMax y z psi min_lat max_lat min_depth mult with
  | None => None
  | Some m =>
      match locate psi m with
      | None => None
      | Some (j, i) =>
          if plot then Some (Plotted (item y [j; i]) (item z [j; i]) (item psi [j; i]))
          else Some (Returned (item psi [j; i]))
      end
  end.
End Extrema.

(** ** Exceptions *)

(** The exceptions the programs raise: the [ValueError]s of stats.py with
    their messages, Python's [IndexError] and [AttributeError], and the
    error xarray raises when asked to reduce over a dimension the array
    lacks, which names that dimension. *)
Inductive exn : Type :=
| ValueError (msg : string)
| IndexError
| AttributeError
| DimensionError (dim : string).

Inductive result (A : Type) : Type :=
| Ok (a : A)
| Raise (e : exn).

Arguments Ok {A} a.
Arguments Raise {A} e.

Definition bind {A B : Type} (r : result A) (k : A -> result B) : result B :=
  match r with
  | Ok a => k a
  | Raise e => Raise e
  end.

Notation "x <- e ;; k" := (bind e (fun x => k))
  (at level 61, e at next level, right associativity).

Fixpoint spaces (n : nat) : string :=
  match n with
  | 0 => EmptyString
  | S n' => String " "%char (spaces n')
  end.

Definition msg_dims0 : string :=
  "DataArray does not have dimensions given by dims[0]".
Definition msg_dims1 : string :=
  "DataArray does not have dimensions given by dims[1]".
Definition msg_basins_need_weights : string :=
  "Basin masks can only be applied if weights are provided.".
Definition msg_weights_3d : string :=
  "If basins is provided, weights must be a 3D array.".
Definition msg_regions_3d : string :=
  "Regions must be a 3D array.".
(** The message continues on the next source line inside the string literal:
    the indentation of that line is part of it. *)
Definition msg_no_region (gap : nat) : string :=
  ("Regions does not have coordinate region. Please use genBasinMasks"
   ++ spaces gap ++ "to construct the basins mask.")%string.

(** ** xarray DataArrays *)

Section XArray.
Context {F : Type} {ops : FloatOps F}.

Record DataArray : Type := mk_DataArray {
  da_dims : list string;              (* .dims *)
  da_values : ndarray F;              (* .values, whose shape is .shape *)
  da_coords : list string;            (* the names in .coords *)
  da_region : list string;            (* the labels of the coordinate 'region' *)
  da_attrs : list (string * string)   (* .attrs *)
}.

(** [d in l] *)
Definition has (l : list string) (d : string) : bool :=
  existsb (String.eqb d) l.

(** The axis of the dimension [d]. *)
Fixpoint index_of (d : string) (l : list string) : nat :=
  match l with
  | [] => 0
  | x :: r => if String.eqb d x then 0 else S (index_of d r)
  end.

Definition size_of (a : DataArray) (d : string) : nat :=
  nth (index_of d (da_dims a)) (shape (da_values a)) 0.

(** A position along every named dimension. *)
Definition position : Type := string -> nat.

(** The position that the index [idx] over the dimensions [ds] names. *)
Definition along (ds : list string) (idx : list nat) : position :=
  fun d => nth (index_of d ds) idx 0.

(** The value of [a] at a position: xarray pairs operands by dimension
    name. *)
Definition at_position (a : DataArray) (p : position) : F :=
  item (da_values a) (map p (da_dims a)).

Definition with_attrs (a : DataArray) (attrs : list (string * string))
    : DataArray :=
  mk_DataArray (da_dims a) (da_values a) (da_coords a) (da_region a) attrs.

(** [f(a)] value by value, for [a**2] and [numpy.sqrt(a)]. *)
Definition xr_unary (f : F -> F) (a : DataArray) : DataArray :=
  mk_DataArray (da_dims a)
    (mk_ndarray (shape (da_values a)) (fun idx => f (item (da_values a) idx)))
    (da_coords a) (da_region a) (da_attrs a).

(** [a op b]: the dimensions of [a], then those that only [b] has; the
    operands are taken to carry the same coordinate labels, and the result
    has no attributes. *)
Definition xr_binary (f : F -> F -> F) (a b : DataArray) : DataArray :=
  let extra := filter (fun d => negb (has (da_dims a) d)) (da_dims b) in
  let ds := (da_dims a ++ extra)%list in
  mk_DataArray ds
    (mk_ndarray (shape (da_values a) ++ map (size_of b) extra)%list
       (fun idx => f (at_position a (along ds idx)) (at_position b (along ds idx))))
    (da_coords a ++ filter (fun c => negb (has (da_coords a) c)) (da_coords b))%list
    (da_region a) [].

(** [a.where(c == 1.0)] for a DataArray [c]: the values of [a] where [c]
    is one, NaN elsewhere, with the attributes of [a]. *)
Definition xr_where_one (a c : DataArray) : DataArray :=
  with_attrs (xr_binary (fun x m => if feqb m fone then x else fnan) a c)
             (da_attrs a).

(** [a.where(m == 1.0)] for a numpy array [m], which numpy broadcasts
    against the trailing axes of [a]. *)
Definition np_where_one (a : DataArray) (m : ndarray F) : DataArray :=
  mk_DataArray (da_dims a)
    (mk_ndarray (shape (da_values a))
       (fun idx => if feqb (item m (broadcast_index (shape m) idx)) fone
                   then item (da_values a) idx else fnan))
    (da_coords a) (da_region a) (da_attrs a).

(** [a.f(dim=dims, keep_attrs=...)]: the reduction [f] over the axes named
    in [dims], for each position along the others. *)
Definition xr_reduce (f : list F -> F) (keep_attrs : bool) (a : DataArray)
    (dims : list string) : result DataArray :=
  match find (fun d => negb (has (da_dims a) d)) dims with
  | Some d => Raise (DimensionError d)
  | None =>
      let red := filter (has dims) (da_dims a) in
      let kept := filter (fun d => negb (has dims d)) (da_dims a) in
      Ok (mk_DataArray kept
            (mk_ndarray (map (size_of a) kept)
               (fun idx =>
                  f (map (fun r => at_position a
                                     (fun d => if has red d then along red r d
                                               else along kept idx d))
                         (indices (map (size_of a) red)))))
            (filter (fun c => negb (has dims c)) (da_coords a))
            (da_region a)
            (if keep_attrs then da_attrs a else []))
  end.

(** [basins.sel(region=reg).values] for the [r]-th label of the region
    coordinate: the mask of one region. *)
Definition sel_region (b : DataArray) (r : nat) : ndarray F :=
  let p := index_of "region" (da_dims b) in
  mk_ndarray (firstn p (shape (da_values b)) ++ skipn (S p) (shape (da_values b)))%list
    (fun idx => item (da_values b) (firstn p idx ++ r :: skipn p idx)%list).

(** [numpy.minimum(a, b)]: a NaN wins. *)
Definition np_minimum (a b : F) : F :=
  if fisnan a || fleb a b then a else b.

(** The values that are not NaN. *)
Definition valid (l : list F) : list F :=
  filter (fun x => negb (fisnan x)) l.

(** The reductions of xarray skip NaN; on a run with no other value the
    maximum and the minimum are NaN. *)
Definition nanmax (l : list F) : F :=
  match valid l with
  | [] => fnan
  | x :: r => fold_left np_maximum r x
  end.

Definition nanmin (l : list F) : F :=
  match valid l with
  | [] => fnan
  | x :: r => fold_left np_minimum r x
  end.

(** The sum puts zero in the place of NaN. *)
Definition nan_to_zero (x : F) : F := if fisnan x then fzero else x.

Section Reducers.
Variable np_sum : list F -> F.
Variable np_sqrt : F -> F.

Definition nansum (l : list F) : F := np_sum (map nan_to_zero l).

Definition nanmean (l : list F) : F :=
  fdiv (nansum l) (fofnat (length (valid l))).

(** The population standard deviation, [ddof=0]. *)
Definition nanstd (l : list F) : F :=
  let m := nanmean l in
  np_sqrt (nanmean (map (fun x => fmul (fsub x m) (fsub x m)) l)).

(** [check_dims(da, dims)] *)
Definition check_dims (da : DataArray) (dims : list string) : result unit :=
  match dims with
  | [] => Raise IndexError
  | d0 :: rest =>
      if negb (has (da_dims da) d0) then Raise (ValueError msg_dims0)
      else match rest with
           | [] => Raise IndexError
           | d1 :: _ =>
               if negb (has (da_dims da) d1) then Raise (ValueError msg_dims1)
               else Ok tt
           end
  end.

(** [min_da(da, dims)] *)
Definition min_da (da : DataArray) (dims : list string) : result DataArray :=
  _ <- check_dims da dims ;;
  xr_reduce nanmin true da dims.

(** [max_da(da, dims)] *)
Definition max_da (da : DataArray) (dims : list string) : result DataArray :=
  _ <- check_dims da dims ;;
  xr_reduce nanmax true da dims.

(** [weights_sum], or [weights.sum(dim=dims)] when it is [None]. *)
Definition total_weight (dims : list string) (weights : DataArray)
    (weights_sum : option DataArray) : result DataArray :=
  match weights_sum with
  | Some s => Ok s
  | None => xr_reduce nansum false weights dims
  end.

(** [mean_da(da, dims, weights, weights_sum)] *)
Definition mean_da (da : DataArray) (dims : list string)
    (weights weights_sum : option DataArray) : result DataArray :=
  _ <- check_dims da dims ;;
  match weights with
  | Some w =>
      ws <- total_weight dims w weights_sum ;;
      num <- xr_reduce nansum false (xr_binary fmul da w) dims ;;
      Ok (with_attrs (xr_binary fdiv num ws) (da_attrs da))
  | None => xr_reduce nanmean true da dims
  end.

(** [std_da(da, dims, weights, weights_sum, da_mean)] *)
Definition std_da (da : DataArray) (dims : list string)
    (weights weights_sum da_mean : option DataArray) : result DataArray :=
  _ <- check_dims da dims ;;
  match weights with
  | Some w =>
      ws <- total_weight dims w weights_sum ;;
      m <- match da_mean with
           | Some m => Ok m
           | None => mean_da da dims (Some w) (Some ws)
           end ;;
      num <- xr_reduce nansum false
               (xr_binary fmul
                  (xr_unary (fun x => fmul x x) (xr_binary fsub da m)) w)
               dims ;;
      Ok (with_attrs (xr_unary np_sqrt (xr_binary fdiv num ws)) (da_attrs da))
  | None => xr_reduce nanstd true da dims
  end.

(** [rms_da(da, dims, weights, weights_sum)] *)
Definition rms_da (da : DataArray) (dims : list string)
    (weights weights_sum : option DataArray) : result DataArray :=
  _ <- check_dims da dims ;;
  match weights with
  | Some w =>
      ws <- total_weight dims w weights_sum ;;
      num <- xr_reduce nansum false
               (xr_binary fmul (xr_unary (fun x => fmul x x) da) w) dims ;;
      Ok (with_attrs (xr_unary np_sqrt (xr_binary fdiv num ws)) (da_attrs da))
  | None =>
      m <- xr_reduce nanmean true (xr_unary (fun x => fmul x x) da) dims ;;
      Ok (xr_unary np_sqrt m)
  end.

(** The Dataset of [stats_to_ds]: the five statistics, and the attributes
    [myStats_da] gives it.  These are attributes of the Dataset only:
    [dict_to_da] builds the array that is returned from the statistics and
    gives it none. *)
Record Stats : Type := mk_Stats {
  da_min : DataArray;
  da_max : DataArray;
  da_mean : DataArray;
  da_std : DataArray;
  da_rms : DataArray;
  ds_attrs : list (string * string)
}.

(** [od[key] = value] on an OrderedDict: a key that is present keeps its
    place. *)
Fixpoint od_set {A : Type} (key : string) (value : A)
    (od : list (string * A)) : list (string * A) :=
  match od with
  | [] => [(key, value)]
  | (k, v) :: rest =>
      if String.eqb k key then (k, value) :: rest
      else (k, v) :: od_set key value rest
  end.

(** The five statistics of [myStats_da] for the field [da] and the weights
    [w] with their sum [total]. *)
Definition five_stats (da w total : DataArray) (dims : list string)
    (attrs : list (string * string)) : result Stats :=
  mn <- min_da da dims ;;
  mx <- max_da da dims ;;
  mean <- mean_da da dims (Some w) (Some total) ;;
  std <- std_da da dims (Some w) (Some total) (Some mean) ;;
  rms <- rms_da da dims (Some w) (Some total) ;;
  Ok (mk_Stats mn mx mean std rms attrs).

(** One turn of the loop of [myStats_da] over the regions, for the mask
    [m] of the region. *)
Definition region_stats (da : DataArray) (weights : option DataArray)
    (dims : list string) (m : ndarray F) : result Stats :=
  let da_reg := np_where_one da m in
  match weights with
  | None => Raise AttributeError
  | Some w =>
      let tmp_weights := np_where_one w m in
      total <- xr_reduce nansum false tmp_weights dims ;;
      five_stats da_reg tmp_weights total dims []
  end.

(** [myStats_da(da, weights, dims, basins)].  The result is the ordered
    dictionary [rmask_od] that [dict_to_da] then packs, statistic by
    statistic, into one array over (basin, stats, time), a new array that
    has the values of the statistics and no attributes; [dict_to_da] fails
    with an IndexError on an empty dictionary.  Calling a method of
    [weights] when it is [None] is Python's AttributeError. *)
Definition myStats_da (da : DataArray) (weights : option DataArray)
    (dims : list string) (basins : option DataArray)
    : result (list (string * Stats)) :=
  _ <- check_dims da dims ;;
  match basins with
  | None =>
      match weights with
      | None => Raise AttributeError
      | Some w =>
          total <- xr_reduce nansum false w dims ;;
          out <- five_stats da w total dims (da_attrs da) ;;
          Ok [("Global"%string, out)]
      end
  | Some b =>
      if negb (has (da_coords b) "region") then
        Raise (ValueError (msg_no_region 25))
      else
        od <- fold_left
                (fun acc r =>
                   od <- acc ;;
                   out <- region_stats da weights dims (sel_region b r) ;;
                   Ok (od_set (nth r (da_region b) EmptyString) out od))
                (seq 0 (length (da_region b))) (Ok []) ;;
        match od with
        | [] => Raise IndexError
        | _ => Ok od
        end
  end.

(** What the two horizontal-mean wrappers return: one array, or one array
    per region, which the source then stacks along a leading region axis. *)
Inductive reduced : Type :=
| Global (out : DataArray)
| PerRegion (od : list (string * DataArray)).

(** The checks of a region-partitioned call, the same in both wrappers. *)
Definition validate_regional (weights basins : DataArray) : result unit :=
  if negb (has (da_coords basins) "region") then
    Raise (ValueError (msg_no_region 27))
  else if negb (Nat.eqb (length (shape (da_values weights))) 3) then
    Raise (ValueError msg_weights_3d)
  else if negb (Nat.eqb (length (shape (da_values basins))) 3) then
    Raise (ValueError msg_regions_3d)
  else Ok tt.

(** The field the regional loop can work on: four dimensions, the last
    three matching the region masks, with the coordinates [time], [z_l],
    [yh] and [xh] the loop reads.  On another field Python raises an
    AttributeError, an IndexError or a ValueError of the DataArray
    constructor; the model has one error for them. *)
Definition regional_field (var basins : DataArray) : bool :=
  Nat.eqb (length (da_dims var)) 4
  && has (da_coords var) "time" && has (da_coords var) "z_l"
  && has (da_coords var) "yh" && has (da_coords var) "xh"
  && forallb (fun r => if list_eq_dec Nat.eq_dec (shape (sel_region basins r))
                                      [size_of var "yh"; size_of var "xh"]
                       then true else false)
             (seq 0 (length (da_region basins))).

(** [region3d]: the mask of one region repeated over the levels [z_l], with
    the dimensions [var.dims[1::]]. *)
Definition region3d (var : DataArray) (m : ndarray F) : DataArray :=
  mk_DataArray (tl (da_dims var))
    (mk_ndarray (size_of var "z_l" :: shape m) (fun idx => item m (tl idx)))
    (tl (da_dims var)) [] [].

(** The loop over the regions of the two wrappers, [reduce] being [rms_da]
    or [mean_da] with their default [dims]. *)
Definition regional_loop
    (reduce : DataArray -> list string -> option DataArray -> option DataArray
              -> result DataArray)
    (var : DataArray) (dims : list string) (weights basins : DataArray)
    : result reduced :=
  if negb (regional_field var basins) then Raise AttributeError
  else
    od <- fold_left
            (fun acc r =>
               od <- acc ;;
               let tmp_weights :=
                 xr_where_one weights (region3d var (sel_region basins r)) in
               total <- xr_reduce nansum false tmp_weights dims ;;
               out <- reduce var ["yh"; "xh"]%string (Some tmp_weights) (Some total) ;;
               Ok (od_set (nth r (da_region basins) EmptyString) out od))
            (seq 0 (length (da_region basins))) (Ok []) ;;
    Ok (PerRegion od).

(** [HorizontalMeanRmse_da(var, dims, weights, basins)].  [rms_da] is called
    without [dims], so with its default [('yh', 'xh')]. *)
Definition HorizontalMeanRmse_da (var : DataArray) (dims : list string)
    (weights basins : option DataArray) : result reduced :=
  _ <- check_dims var dims ;;
  match weights with
  | None =>
      match basins with
      | Some _ => Raise (ValueError msg_basins_need_weights)
      | None =>
          out <- rms_da var ["yh"; "xh"]%string None None ;;
          Ok (Global out)
      end
  | Some w =>
      match basins with
      | None =>
          _ <- check_dims w dims ;;
          total <- xr_reduce nansum false w dims ;;
          out <- rms_da var ["yh"; "xh"]%string (Some w) (Some total) ;;
          Ok (Global out)
      | Some b =>
          _ <- validate_regional w b ;;
          regional_loop rms_da var dims w b
      end
  end.

(** [HorizontalMeanDiff_da(var, dims, weights, basins)] *)
Definition HorizontalMeanDiff_da (var : DataArray) (dims : list string)
    (weights basins : option DataArray) : result reduced :=
  _ <- check_dims var dims ;;
  match weights with
  | None =>
      match basins with
      | Some _ => Raise (ValueError msg_basins_need_weights)
      | None =>
          out <- xr_reduce nanmean false var dims ;;
          Ok (Global out)
      end
  | Some w =>
      match basins with
      | None =>
          _ <- check_dims w dims ;;
          total <- xr_reduce nansum false w dims ;;
          out <- mean_da var ["yh"; "xh"]%string (Some w) (Some total) ;;
          Ok (Global out)
      | Some b =>
          _ <- validate_regional w b ;;
          regional_loop mean_da var dims w b
      end
  end.
End Reducers.
End XArray.

Arguments DataArray F : clear implicits.
Arguments Stats F : clear implicits.
Arguments reduced F : clear implicits.

(** No label occurs twice. *)
Fixpoint distinct (l : list string) : bool :=
  match l with
  | [] => true
  | x :: r => negb (existsb (String.eqb x) r) && distinct r
  end.

(** The values of one statistic, region by region, in the result of
    [myStats_da]. *)
Definition values_of {F : Type} (stat : Stats F -> DataArray F)
    (r : result (list (string * Stats F))) : list (string * list F) :=
  match r with
  | Ok od => map (fun kv => (fst kv, ravel (da_values (stat (snd kv))))) od
  | Raise _ => []
  end.

(** The three errors of [validate_regional]. *)
Definition validation_error (e : exn) : Prop :=
  e = ValueError (msg_no_region 27)
  \/ e = ValueError msg_weights_3d
  \/ e = ValueError msg_regions_3d.


(** ** Worked inputs *)

(** An array of shape [s] holding [x] everywhere. *)
Definition np_full {F : Type} (s : list nat) (x : F) : ndarray F :=
  mk_ndarray s (fun _ => x).

(** [numpy.array(rows)] for the rows of a matrix; [d] fills the positions
    outside it, which no function reads. *)
Definition np_array2 {F : Type} (d : F) (rows : list (list F)) : ndarray F :=
  mk_ndarray [length rows; length (hd [] rows)]
    (fun idx => match idx with
                | [j; i] => nth i (nth j rows []) d
                | _ => d
                end).

(** Three layers on a 2x2 horizontal grid, every transport equal to 1.0. *)
Definition ones_3_2_2 : ndarray float := np_full [3; 2; 2] 1%float.

(** Two latitudes, 0N and 50N, at one depth of 10 m. *)
Definition lat_two_cells : ndarray xfloat := np_array2 NaN [[Fin 0; Fin 50]].
Definition depth_two_cells : ndarray xfloat :=
  np_array2 NaN [[Fin (-10); Fin (-10)]].

(** [numpy.ravel_multi_index(idx, s)] *)
Definition ravel_multi_index (idx s : list nat) : nat :=
  fold_left (fun acc p => acc * snd p + fst p) (combine idx s) 0.

(** [numpy.array(l).reshape(s)]; [d] fills the positions outside it. *)
Definition np_reshape {F : Type} (d : F) (l : list F) (s : list nat) : ndarray F :=
  mk_ndarray s (fun idx => nth (ravel_multi_index idx s) l d).

(** A surface field at two times on a grid of one row and two columns, with
    the areas of the two cells and three regions: every cell, the western
    cell, no cell. *)
Definition field_2_1_2 : DataArray float :=
  mk_DataArray ["time"; "yh"; "xh"]%string
    (np_reshape PrimFloat.nan [1; 5; 2; 7]%float [2; 1; 2])
    ["time"; "yh"; "xh"]%string [] [("units", "m")%string].

Definition area_1_2 : DataArray float :=
  mk_DataArray ["yh"; "xh"]%string
    (np_reshape PrimFloat.nan [2; 6]%float [1; 2])
    ["yh"; "xh"]%string [] [].

Definition basins_3_1_2 : DataArray float :=
  mk_DataArray ["region"; "yh"; "xh"]%string
    (np_reshape PrimFloat.nan [1; 1; 1; 0; 0; 0]%float [3; 1; 2])
    ["region"; "yh"; "xh"]%string ["Global"; "West"; "Nowhere"]%string [].

(** A field over depth, [(time, z_l, yh, xh)], and weights over
    [(z_l, yh, xh)] on the same grid. *)
Definition field_1_1_1_2 : DataArray float :=
  mk_DataArray ["time"; "z_l"; "yh"; "xh"]%string
    (np_reshape PrimFloat.nan [3; -1]%float [1; 1; 1; 2])
    ["time"; "z_l"; "yh"; "xh"]%string [] [].

Definition volume_1_1_2 : DataArray float :=
  mk_DataArray ["z_l"; "yh"; "xh"]%string
    (np_reshape PrimFloat.nan [2; 6]%float [1; 1; 2])
    ["z_l"; "yh"; "xh"]%string [] [].

(** A 2x2 streamfunction with its latitudes and depths. *)
Definition psi_2_2 : ndarray xfloat :=
  np_array2 NaN [[Fin 1; Fin 7]; [Fin (-3); Fin 2]].
Definition lat_2_2 : ndarray xfloat :=
  np_array2 NaN [[Fin (-30); Fin 50]; [Fin (-30); Fin 50]].
Definition depth_2_2 : ndarray xfloat :=
  np_array2 NaN [[Fin (-10); Fin (-10)]; [Fin (-2000); Fin (-2000)]].

(** Rows of cells in float64, at 10 m: two cells at 0N and 50N, three cells
    at 0N, 25N and 50N. *)
Definition lat_row2 : ndarray float := np_array2 PrimFloat.nan [[0; 50]]%float.
Definition depth_row2 : ndarray float :=
  np_array2 PrimFloat.nan [[-10; -10]]%float.
Definition lat_row3 : ndarray float :=
  np_array2 PrimFloat.nan [[0; 25; 50]]%float.
Definition depth_row3 : ndarray float :=
  np_array2 PrimFloat.nan [[-10; -10; -10]]%float.





(** ** The time series of [main] in moc.py *)

Section Driver.
Context {F : Type} {ops : FloatOps F}.

(** [numpy.isfinite(x)], told by [x - x]: NaN for NaN and for the
    infinities, zero for every other value. *)
Definition np_isfinite (x : F) : bool := negb (fisnan (fsub x x)).

(** [numpy.ma.masked_invalid(a)[:].filled(0.)]: zero in the place of the
    values that are not finite. *)
Definition filled_invalid (a : ndarray F) : ndarray F :=
  mk_ndarray (shape a)
    (fun idx => if np_isfinite (item a idx) then item a idx else fzero).

(** [a * c] for a scalar [c]. *)
Definition np_scale (a : ndarray F) (c : F) : ndarray F :=
  mk_ndarray (shape a) (fun idx => fmul (item a idx) c).

(** [0.5 * (psi[0:-1,:] + psi[1::,:])]: the mean of the two interfaces of
    each layer.  The factor 0.5 is 1/2, which both instances compute
    exactly. *)
Definition layer_centres (psi : ndarray F) : ndarray F :=
  mk_ndarray (Nat.pred (hd 0 (shape psi)) :: tl (shape psi))
    (fun idx => match idx with
                | k :: rest =>
                    fmul (fdiv fone (fofnat 2))
                         (fadd (item psi (k :: rest)) (item psi (S k :: rest)))
                | [] => item psi []
                end).

(** [m = 0*basin_code] followed by
    [m[(basin_code==2) | (basin_code==4) | (basin_code==6) | (basin_code==7) | (basin_code==8)] = 1]:
    the mask of the Atlantic basins. *)
Definition atlantic_mask (basin_code : ndarray F) : ndarray F :=
  mk_ndarray (shape basin_code)
    (fun idx =>
       if existsb (fun n => feqb (item basin_code idx) (fofnat n)) [2; 4; 6; 7; 8]
       then fone
       else fmul fzero (item basin_code idx)).

(** [numpy.roll(m, -1, axis=-2)] of an array of rank two: row [j] of the
    result is row [j+1] of [m], and its last row is the first row of [m]. *)
Definition np_roll_up (m : ndarray F) : ndarray F :=
  mk_ndarray (shape m)
    (fun idx => match idx with
                | [j; i] => item m [(j + 1) mod (hd 0 (shape m)); i]
                | _ => item m idx
                end).

Section TimeSeries.
Variable np_sum : list F -> F.

(** One turn of the loop over time of [main]: the transport [vh] of one
    time with zero in the place of its invalid values, the streamfunction
    of the Atlantic basins scaled by [conversion_factor] and taken at the
    centres of the layers, and its greatest value between the latitudes
    [min_lat] and [max_lat] (26 and 27 for [amoc_26], 44 and 46 for
    [amoc_45]), which is what the turn stores.  [None] stands for an
    exception. *)
Definition amoc_value (vh basin_code yy z : ndarray F)
    (conversion_factor min_lat max_lat : F) : option extremum :=
  let tmp := filled_invalid vh in
  let m := atlantic_mask basin_code in
  match MOCpsi np_sum tmp (Some (np_multiply m (np_roll_up m))) with
  | None => None
  | Some psi =>
      let psi := np_scale psi conversion_factor in
      let psi := layer_centres psi in
      findExtrema yy z psi min_lat max_lat fzero fone false
  end.
End TimeSeries.
End Driver.

(** ** The descending scan of [MOCpsi] *)

Section ScanFacts.
Context {F : Type} {ops : FloatOps F}.
Variable np_sum : list F -> F.
Variable vmsk : option (ndarray F).
Variable vh : ndarray F.

Lemma strip_prefix_app (pre rest : list nat) :
  strip_prefix (pre ++ rest) (pre ++ rest) = Some [].
Proof.
  induction (pre ++ rest) as [|p l IH]; simpl; [reflexivity|].
  now rewrite Nat.eqb_refl.
Qed.

Lemma strip_prefix_snoc (pre : list nat) (a b : nat) (rest : list nat) :
  strip_prefix (pre ++ [a]) (pre ++ b :: rest)
  = if Nat.eqb a b then Some rest else None.
Proof.
  induction pre as [|p pre IH]; simpl.
  - reflexivity.
  - now rewrite Nat.eqb_refl.
Qed.

Lemma strip_prefix_none (pre l idx : list nat) :
  strip_prefix pre idx = None -> strip_prefix (pre ++ l) idx = None.
Proof.
  revert idx. induction pre as [|p pre IH]; intros idx; simpl.
  - discriminate.
  - destruct idx as [|i idx]; [reflexivity|].
    destruct (Nat.eqb p i); [apply IH|reflexivity].
Qed.

Lemma shape_scan_step pre psi k :
  shape (scan_step np_sum vmsk vh pre psi k) = shape psi.
Proof. reflexivity. Qed.

Lemma shape_fold_scan_step pre ks psi :
  shape (fold_left (scan_step np_sum vmsk vh pre) ks psi) = shape psi.
Proof.
  revert psi. induction ks as [|k ks IH]; intros psi; simpl; [reflexivity|].
  now rewrite IH.
Qed.

Lemma shape_scan pre nlev psi :
  shape (scan np_sum vmsk vh pre nlev psi) = shape psi.
Proof. apply shape_fold_scan_step. Qed.

(** One step writes the row above [k] and nothing else. *)
Lemma item_scan_step pre psi k k' rest :
  item (scan_step np_sum vmsk vh pre psi k) (pre ++ k' :: rest)
  = if Nat.eqb (k - 1) k'
    then fsub (item psi (pre ++ k :: rest))
              (item (zonal np_sum vmsk (getitem vh (pre ++ [k - 1]))) rest)
    else item psi (pre ++ k' :: rest).
Proof.
  unfold scan_step, setitem; simpl.
  rewrite strip_prefix_snoc.
  destruct (Nat.eqb (k - 1) k'); [|reflexivity].
  simpl. now rewrite <- app_assoc.
Qed.

Lemma item_scan_step_other pre psi k idx :
  strip_prefix pre idx = None ->
  item (scan_step np_sum vmsk vh pre psi k) idx = item psi idx.
Proof.
  intros H. unfold scan_step, setitem; simpl.
  now rewrite (strip_prefix_none _ [k - 1] _ H).
Qed.

(** The rows under another leading index are never written. *)
Lemma item_scan_other pre nlev psi idx :
  strip_prefix pre idx = None ->
  item (scan np_sum vmsk vh pre nlev psi) idx = item psi idx.
Proof.
  intros H. unfold scan. generalize (nlev - 1) as m. intros m.
  revert psi. induction m as [|m IH]; intros psi; simpl; [reflexivity|].
  rewrite IH. now apply item_scan_step_other.
Qed.

(** The loop that starts at layer [m] leaves the rows from [m] down as
    they are. *)
Lemma item_fold_above pre m psi k rest :
  m <= k ->
  item (fold_left (scan_step np_sum vmsk vh pre) (range_down m) psi)
       (pre ++ k :: rest)
  = item psi (pre ++ k :: rest).
Proof.
  revert psi. induction m as [|m IH]; intros psi Hk; [reflexivity|].
  cbn [range_down fold_left].
  rewrite IH by lia. rewrite item_scan_step.
  replace (Nat.eqb (S m - 1) k) with false; [reflexivity|].
  symmetry. apply Nat.eqb_neq. lia.
Qed.

(** Every row above the bottom is the row below it minus the zonal sum of
    its own layer. *)
Lemma item_fold_rec pre m psi k rest :
  k < m ->
  item (fold_left (scan_step np_sum vmsk vh pre) (range_down m) psi)
       (pre ++ k :: rest)
  = fsub (item (fold_left (scan_step np_sum vmsk vh pre) (range_down m) psi)
               (pre ++ S k :: rest))
         (item (zonal np_sum vmsk (getitem vh (pre ++ [k]))) rest).
Proof.
  revert psi. induction m as [|m IH]; intros psi Hk; [lia|].
  destruct (Nat.eq_dec k m) as [->|Hne].
  - cbn [range_down fold_left].
    rewrite !item_fold_above by lia. rewrite !item_scan_step.
    replace (S m - 1) with m by lia. rewrite Nat.eqb_refl.
    replace (Nat.eqb m (S m)) with false; [reflexivity|].
    symmetry. apply Nat.eqb_neq. lia.
  - cbn [range_down fold_left]. apply IH. lia.
Qed.

Lemma item_scan_bottom pre nlev psi rest :
  item (scan np_sum vmsk vh pre nlev psi) (pre ++ (nlev - 1) :: rest)
  = item psi (pre ++ (nlev - 1) :: rest).
Proof. unfold scan. now apply item_fold_above. Qed.

Lemma item_scan_rec pre nlev psi k rest :
  S k < nlev ->
  item (scan np_sum vmsk vh pre nlev psi) (pre ++ k :: rest)
  = fsub (item (scan np_sum vmsk vh pre nlev psi) (pre ++ S k :: rest))
         (item (zonal np_sum vmsk (getitem vh (pre ++ [k]))) rest).
Proof. intros H. unfold scan. apply item_fold_rec. lia. Qed.

(** The scan over [nk] layers in closed form. *)
Lemma item_scan_closed pre nk psi d rest :
  d <= nk ->
  item (scan np_sum vmsk vh pre (S nk) psi) (pre ++ (nk - d) :: rest)
  = interface_above
      (fun k => item (zonal np_sum vmsk (getitem vh (pre ++ [k]))) rest)
      (item psi (pre ++ nk :: rest)) nk d.
Proof.
  induction d as [|d IH]; intros Hd.
  - rewrite Nat.sub_0_r. cbn [interface_above].
    pose proof (item_scan_bottom pre (S nk) psi rest) as H.
    replace (S nk - 1) with nk in H by lia. exact H.
  - cbn [interface_above]. rewrite <- IH by lia.
    rewrite item_scan_rec by lia.
    now replace (S (nk - S d)) with (nk - d) by lia.
Qed.

(** The loop over the ensemble members leaves alone what lies under a
    leading index it does not visit. *)
Lemma item_members_other nlev ns psi idx :
  (forall n, In n ns -> strip_prefix [n] idx = None) ->
  item (fold_left (fun psi n => scan np_sum vmsk vh [n] nlev psi) ns psi) idx
  = item psi idx.
Proof.
  revert psi. induction ns as [|n ns IH]; intros psi H; [reflexivity|].
  cbn [fold_left]. rewrite IH by (intros n' Hn'; apply H; now right).
  apply item_scan_other. apply H. now left.
Qed.

Lemma shape_members nlev ns psi :
  shape (fold_left (fun psi n => scan np_sum vmsk vh [n] nlev psi) ns psi)
  = shape psi.
Proof.
  revert psi. induction ns as [|n ns IH]; intros psi; [reflexivity|].
  cbn [fold_left]. rewrite IH. apply shape_scan.
Qed.

(** Under the leading index [n] the loop over the members computes the
    scan of member [n] alone. *)
Lemma item_members_at nlev ne psi n rest :
  n < ne ->
  item (fold_left (fun psi n => scan np_sum vmsk vh [n] nlev psi) (seq 0 ne) psi)
       (n :: rest)
  = item (scan np_sum vmsk vh [n] nlev
            (fold_left (fun psi n => scan np_sum vmsk vh [n] nlev psi)
                       (seq 0 n) psi))
         (n :: rest).
Proof.
  intros Hn.
  replace ne with (n + S (ne - S n)) by lia.
  rewrite seq_app, fold_left_app. cbn [seq fold_left Nat.add].
  apply item_members_other.
  intros n' Hn'. apply in_seq in Hn'. cbn [strip_prefix].
  replace (Nat.eqb n' n) with false; [reflexivity|].
  symmetry. apply Nat.eqb_neq. lia.
Qed.

Lemma item_members_before nlev psi n rest :
  item (fold_left (fun psi n => scan np_sum vmsk vh [n] nlev psi) (seq 0 n) psi)
       (n :: rest)
  = item psi (n :: rest).
Proof.
  apply item_members_other.
  intros n' Hn'. apply in_seq in Hn'. cbn [strip_prefix].
  replace (Nat.eqb n' n) with false; [reflexivity|].
  symmetry. apply Nat.eqb_neq. lia.
Qed.
End ScanFacts.

(** ** Indices and equality of arrays *)

Lemma in_indices (s : list nat) (idx : list nat) :
  In idx (indices s) -> Forall2 lt idx s.
Proof.
  revert idx. induction s as [|n s IH]; intros idx H.
  - destruct H as [<-|[]]. constructor.
  - cbn [indices] in H. apply in_flat_map in H. destruct H as [i [Hi H]].
    apply in_map_iff in H. destruct H as [rest [<- Hrest]].
    apply in_seq in Hi. constructor; [lia|now apply IH].
Qed.

Lemma same_array_pointwise {F : Type} (a b : ndarray F) :
  shape a = shape b ->
  (forall idx, Forall2 lt idx (shape a) -> item a idx = item b idx) ->
  same_array a b.
Proof.
  intros Hs H. split; [exact Hs|].
  unfold ravel. rewrite <- Hs. apply map_ext_in.
  intros idx Hidx. apply H. now apply in_indices.
Qed.

(** ** [MOCpsi] on transports of rank three and four *)

Section MOCpsiFacts.
Context {F : Type} {ops : FloatOps F}.
Variable np_sum : list F -> F.

Lemma MOCpsi_rank3 nk ny nx v vmsk :
  MOCpsi np_sum (mk_ndarray [nk; ny; nx] v) vmsk
  = Some (scan np_sum vmsk (mk_ndarray [nk; ny; nx] v) [] (S nk)
               (np_zeros [S nk; ny])).
Proof. reflexivity. Qed.

Lemma MOCpsi_rank4 ne nk ny nx v vmsk :
  MOCpsi np_sum (mk_ndarray [ne; nk; ny; nx] v) vmsk
  = Some (fold_left
            (fun psi n =>
               scan np_sum vmsk (mk_ndarray [ne; nk; ny; nx] v) [n] (S nk) psi)
            (seq 0 ne) (np_zeros [ne; S nk; ny])).
Proof. reflexivity. Qed.

(** The zonal sum of layer [k] at latitude [j], unmasked and masked. *)
Lemma zonal_layer_unmasked nk ny nx v k j :
  item (zonal np_sum None (getitem (mk_ndarray [nk; ny; nx] v) [k])) [j]
  = np_sum (map (fun i => v [k; j; i]) (seq 0 nx)).
Proof. reflexivity. Qed.

Lemma zonal_layer_masked nk ny nx v m k j :
  item (zonal np_sum (Some m) (getitem (mk_ndarray [nk; ny; nx] v) [k])) [j]
  = np_sum (map (fun i => fmul (item m (broadcast_index (shape m) [j; i]))
                               (v [k; j; i]))
                (seq 0 nx)).
Proof. reflexivity. Qed.
End MOCpsiFacts.

(** C1. On a transport of rank three, masked or not, the streamfunction of
    [MOCpsi] is zero at the bottom interface (the last depth index), and at
    every interface above it is the value one interface below minus the sum
    over the last axis of the transport of the layer between them, each
    value multiplied by the mask when one is given.  On three layers of a
    2x2 grid of ones with no mask the interfaces are, from the bottom up,
    0, -2, -4 and -6. *)
Theorem MOCpsi_bottom_zero_and_recurrence :
  (forall (F : Type) (ops : FloatOps F) (np_sum : list F -> F)
          (nk ny nx : nat) (v : list nat -> F),
      exists psi,
        MOCpsi np_sum (mk_ndarray [nk; ny; nx] v) None = Some psi
        /\ (forall j, item psi [nk; j] = fzero)
        /\ (forall k j, k < nk ->
              item psi [k; j]
              = fsub (item psi [S k; j])
                     (np_sum (map (fun i => v [k; j; i]) (seq 0 nx)))))
  /\ (forall (F : Type) (ops : FloatOps F) (np_sum : list F -> F)
             (nk ny nx : nat) (v : list nat -> F) (m : ndarray F),
      exists psi,
        MOCpsi np_sum (mk_ndarray [nk; ny; nx] v) (Some m) = Some psi
        /\ (forall j, item psi [nk; j] = fzero)
        /\ (forall k j, k < nk ->
              item psi [k; j]
              = fsub (item psi [S k; j])
                     (np_sum (map (fun i =>
                                     fmul (item m (broadcast_index (shape m) [j; i]))
                                          (v [k; j; i]))
                                  (seq 0 nx)))))
  /\ option_map (fun psi => (shape psi, ravel psi))
                (MOCpsi sum_seq ones_3_2_2 None)
     = Some ([4; 2], [-6; -6; -4; -4; -2; -2; 0; 0]%float).
Proof.
  split; [|split].
  - intros F ops np_sum nk ny nx v. eexists. split; [apply MOCpsi_rank3|]. split.
    + intros j.
      pose proof (item_scan_bottom np_sum None (mk_ndarray [nk; ny; nx] v)
                    [] (S nk) (np_zeros [S nk; ny]) [j]) as H.
      replace (S nk - 1) with nk in H by lia. exact H.
    + intros k j Hk.
      rewrite <- zonal_layer_unmasked with (nk := nk) (ny := ny).
      apply (item_scan_rec np_sum None (mk_ndarray [nk; ny; nx] v)
               [] (S nk) (np_zeros [S nk; ny]) k [j]). lia.
  - intros F ops np_sum nk ny nx v m. eexists. split; [apply MOCpsi_rank3|]. split.
    + intros j.
      pose proof (item_scan_bottom np_sum (Some m) (mk_ndarray [nk; ny; nx] v)
                    [] (S nk) (np_zeros [S nk; ny]) [j]) as H.
      replace (S nk - 1) with nk in H by lia. exact H.
    + intros k j Hk.
      rewrite <- zonal_layer_masked with (nk := nk) (ny := ny).
      apply (item_scan_rec np_sum (Some m) (mk_ndarray [nk; ny; nx] v)
               [] (S nk) (np_zeros [S nk; ny]) k [j]). lia.
  - vm_compute. reflexivity.
Qed.

(** C2, as the code has it.  The streamfunction of [MOCpsi] has one axis
    fewer than the transport: the depth-layer axis is one longer and the
    last, zonal axis is summed away.  A transport of shape [nk, ny, nx]
    gives shape [nk+1, ny], and one of shape [ne, nk, ny, nx] gives
    [ne, nk+1, ny]. *)
Theorem MOCpsi_shape_drops_zonal_axis :
  (forall (F : Type) (ops : FloatOps F) (np_sum : list F -> F)
          (nk ny nx : nat) (v : list nat -> F) (vmsk : option (ndarray F)),
      option_map (@shape F) (MOCpsi np_sum (mk_ndarray [nk; ny; nx] v) vmsk)
      = Some [S nk; ny])
  /\ (forall (F : Type) (ops : FloatOps F) (np_sum : list F -> F)
             (ne nk ny nx : nat) (v : list nat -> F) (vmsk : option (ndarray F)),
      option_map (@shape F) (MOCpsi np_sum (mk_ndarray [ne; nk; ny; nx] v) vmsk)
      = Some [ne; S nk; ny]).
Proof.
  split.
  - intros. rewrite MOCpsi_rank3. cbn [option_map]. now rewrite shape_scan.
  - intros. rewrite MOCpsi_rank4. cbn [option_map]. now rewrite shape_members.
Qed.

(** C2, as the specification states it, fails: the transport of shape
    [3, 2, 2] gives a streamfunction of shape [4, 2], not [4, 2, 2]. *)
Lemma MOCpsi_shape_3_2_2_is_4_2 :
  option_map (@shape float) (MOCpsi sum_seq ones_3_2_2 None) = Some [4; 2]
  /\ option_map (@shape float) (MOCpsi sum_seq ones_3_2_2 None) <> Some [4; 2; 2].
Proof. split; [reflexivity|discriminate]. Qed.

(** C4. On a transport of rank four the streamfunction of ensemble member
    [n] is the streamfunction [MOCpsi] computes from the transport of that
    member alone, with the same mask. *)
Theorem MOCpsi_members_independent :
  forall (F : Type) (ops : FloatOps F) (np_sum : list F -> F)
         (ne nk ny nx : nat) (v : list nat -> F) (vmsk : option (ndarray F))
         (n : nat),
    n < ne ->
    exists psi4 psi3,
      MOCpsi np_sum (mk_ndarray [ne; nk; ny; nx] v) vmsk = Some psi4
      /\ MOCpsi np_sum (getitem (mk_ndarray [ne; nk; ny; nx] v) [n]) vmsk = Some psi3
      /\ same_array (getitem psi4 [n]) psi3.
Proof.
  intros F ops np_sum ne nk ny nx v vmsk n Hn.
  set (vh := mk_ndarray [ne; nk; ny; nx] v).
  exists (fold_left (fun psi n => scan np_sum vmsk vh [n] (S nk) psi)
                    (seq 0 ne) (np_zeros [ne; S nk; ny])),
         (scan np_sum vmsk (getitem vh [n]) [] (S nk) (np_zeros [S nk; ny])).
  split; [apply MOCpsi_rank4|]. split; [reflexivity|].
  apply same_array_pointwise.
  - cbn [getitem shape length skipn]. rewrite shape_members.
    now rewrite shape_scan.
  - cbn [getitem shape length skipn]. rewrite shape_members. cbn [np_zeros shape skipn].
    intros idx Hidx.
    inversion Hidx as [|k sk rest srest Hk Hrest]; subst.
    inversion Hrest as [|j sj rest' srest' Hj Hrest']; subst.
    inversion Hrest'; subst.
    cbn [item app getitem].
    rewrite item_members_at by exact Hn.
    replace k with (nk - (nk - k)) by lia.
    rewrite (item_scan_closed np_sum vmsk vh [n] nk _ (nk - k) [j]) by lia.
    rewrite (item_scan_closed np_sum vmsk (getitem vh [n]) [] nk _ (nk - k) [j])
      by lia.
    cbn [app]. rewrite item_members_before. reflexivity.
Qed.

(** The theorem at a transport of two members. *)
Lemma MOCpsi_members_independent_witness :
  exists psi4 psi3,
    MOCpsi sum_seq (np_full [2; 3; 2; 2] 1%float) None = Some psi4
    /\ MOCpsi sum_seq (getitem (np_full [2; 3; 2; 2] 1%float) [1]) None = Some psi3
    /\ same_array (getitem psi4 [1]) psi3.
Proof.
  exact (MOCpsi_members_independent float binary64 sum_seq 2 3 2 2
           (fun _ => 1%float) None 1 (le_n 2)).
Defined.

(** ** The scan against the reversed cumulative sum *)

Lemma broadcast_index_horizontal (s : list nat) (k j i : nat) :
  length s <= 2 -> broadcast_index s [k; j; i] = broadcast_index s [j; i].
Proof.
  intros H. destruct s as [|a [|b [|c s]]]; try reflexivity.
  cbn [length] in H. lia.
Qed.

Section ReverseCumsum.
Context {F : Type} {ops : FloatOps F}.
Variable np_sum : list F -> F.
(** Subtracting is adding the opposite. *)
Hypothesis fsub_fadd_fopp : forall x y : F, fsub x y = fadd x (fopp y).

Variables nk ny nx : nat.
Variable v : list nat -> F.
Variable vmsk : option (ndarray F).
Hypothesis Hmask : horizontal_mask vmsk.

(** Layer [i] of the reversed transport is layer [nk-1-i]. *)
Lemma zonal_flip i j :
  item (zonal np_sum vmsk (np_flip (mk_ndarray [nk; ny; nx] v))) [i; j]
  = item (zonal np_sum vmsk (getitem (mk_ndarray [nk; ny; nx] v) [nk - 1 - i])) [j].
Proof.
  destruct vmsk as [m|]; cbn.
  - f_equal. apply map_ext. intros x.
    now rewrite broadcast_index_horizontal by exact Hmask.
  - reflexivity.
Qed.

(** The cumulative sum [d] rows after the zero row is the scan's value [d]
    interfaces above the bottom. *)
Lemma accumulate_interface j d :
  d <= nk ->
  accumulate
    (fun i => item (prepend_zeros
                      (np_negative
                         (zonal np_sum vmsk (np_flip (mk_ndarray [nk; ny; nx] v)))))
                   [i; j]) d
  = interface_above
      (fun k => item (zonal np_sum vmsk (getitem (mk_ndarray [nk; ny; nx] v) [k])) [j])
      fzero nk d.
Proof.
  induction d as [|d IH]; intros Hd.
  - reflexivity.
  - cbn [accumulate interface_above]. rewrite IH by lia.
    rewrite fsub_fadd_fopp. f_equal.
    cbn [prepend_zeros np_negative item]. f_equal.
    rewrite zonal_flip. now replace (nk - 1 - d) with (nk - S d) by lia.
Qed.

Lemma scan_same_as_cumsum :
  same_array
    (scan np_sum vmsk (mk_ndarray [nk; ny; nx] v) [] (S nk) (np_zeros [S nk; ny]))
    (MOCpsi_cumsum np_sum (mk_ndarray [nk; ny; nx] v) vmsk).
Proof.
  apply same_array_pointwise.
  - rewrite shape_scan. destruct vmsk; reflexivity.
  - rewrite shape_scan. cbn [np_zeros shape]. intros idx Hidx.
    inversion Hidx as [|k sk rest srest Hk Hrest]; subst.
    inversion Hrest as [|j sj rest' srest' Hj Hrest']; subst.
    inversion Hrest'; subst.
    replace k with (nk - (nk - k)) at 1 by lia.
    rewrite (item_scan_closed np_sum vmsk _ [] nk _ (nk - k) [j]) by lia.
    rewrite <- accumulate_interface by lia.
    unfold MOCpsi_cumsum.
    assert (Hs : hd 0 (shape (np_cumsum (prepend_zeros (np_negative
                   (zonal np_sum vmsk (np_flip (mk_ndarray [nk; ny; nx] v)))))))
                 = S nk) by (destruct vmsk; reflexivity).
    cbn [np_flip item]. rewrite Hs.
    replace (S nk - 1 - k) with (nk - k) by lia.
    reflexivity.
Qed.
End ReverseCumsum.

(** In binary64 subtracting is adding the opposite, bit for bit. *)
Lemma cond_Zopp_negb (s : bool) (p : positive) :
  SpecFloat.cond_Zopp (negb s) (Zpos p) = Z.opp (SpecFloat.cond_Zopp s (Zpos p)).
Proof. destruct s; reflexivity. Qed.

Lemma SFsub_add_opp (prec emax : Z) (x y : SpecFloat.spec_float) :
  SpecFloat.SFsub prec emax x y
  = SpecFloat.SFadd prec emax x (SpecFloat.SFopp y).
Proof.
  destruct x as [sx|sx| |sx mx ex], y as [sy|sy| |sy my ey]; simpl;
    try reflexivity; try (destruct sx, sy; reflexivity).
  all: rewrite cond_Zopp_negb; reflexivity.
Qed.

Lemma binary64_sub_add_opp (x y : float) :
  PrimFloat.sub x y = PrimFloat.add x (PrimFloat.opp y).
Proof.
  apply Prim2SF_inj.
  rewrite FloatAxioms.sub_spec, FloatAxioms.add_spec, FloatAxioms.opp_spec.
  apply SFsub_add_opp.
Qed.

(** C3. On a transport of rank three, with a horizontal mask or none, the
    layer-by-layer scan of [MOCpsi] gives, value for value in binary64, the
    array of the reference that reverses the depth-layer axis, takes the
    forward cumulative sum of the negated zonal layer sums after a zero
    bottom row, and reverses back. *)
Theorem MOCpsi_scan_is_reverse_cumsum :
  forall (np_sum : list float -> float) (nk ny nx : nat)
         (v : list nat -> float) (vmsk : option (ndarray float)),
    horizontal_mask vmsk ->
    exists psi,
      MOCpsi np_sum (mk_ndarray [nk; ny; nx] v) vmsk = Some psi
      /\ same_array psi (MOCpsi_cumsum np_sum (mk_ndarray [nk; ny; nx] v) vmsk).
Proof.
  intros np_sum nk ny nx v vmsk Hmask.
  eexists. split; [apply MOCpsi_rank3|].
  apply scan_same_as_cumsum.
  - exact binary64_sub_add_opp.
  - exact Hmask.
Qed.

(** The theorem at the three layers of ones under a 2x2 mask. *)
Lemma MOCpsi_scan_is_reverse_cumsum_witness :
  exists psi,
    MOCpsi sum_seq ones_3_2_2 (Some (np_full [2; 2] 1%float)) = Some psi
    /\ same_array psi
         (MOCpsi_cumsum sum_seq ones_3_2_2 (Some (np_full [2; 2] 1%float))).
Proof.
  exact (MOCpsi_scan_is_reverse_cumsum sum_seq 3 2 2 (fun _ => 1%float)
           (Some (np_full [2; 2] 1%float)) (le_n 2)).
Defined.

(** ** IEEE 754 binary64: the order and the special values *)

Lemma SFcompare_antisym (x y : spec_float) :
  SFcompare y x
  = match SFcompare x y with Some c => Some (CompOpp c) | None => None end.
Proof.
  destruct x as [sx|sx| |sx mx ex], y as [sy|sy| |sy my ey]; cbn [SFcompare];
    try reflexivity;
    try (destruct sx; try destruct sy; reflexivity);
    try (destruct sy; reflexivity).
  destruct sx, sy; try reflexivity;
    rewrite (Z.compare_antisym ex ey); destruct (ex ?= ey)%Z; cbn [CompOpp];
    try reflexivity;
    change (Pos.compare_cont Eq my mx) with (Pos.compare my mx);
    change (Pos.compare_cont Eq mx my) with (Pos.compare mx my);
    rewrite (Pos.compare_antisym mx my); destruct (mx ?= my)%positive; reflexivity.
Qed.

Lemma SFcompare_refl (x : spec_float) :
  x <> S754_nan -> SFcompare x x = Some Eq.
Proof.
  destruct x as [s|s| |s m e]; cbn [SFcompare]; intros H; try congruence.
  - now destruct s.
  - destruct s; rewrite Z.compare_refl;
      change (Pos.compare_cont Eq m m) with (Pos.compare m m);
      now rewrite Pos.compare_refl.
Qed.

Lemma SFleb_trans (x y z : spec_float) :
  SFleb x y = true -> SFleb y z = true -> SFleb x z = true.
Proof.
  unfold SFleb.
  destruct x as [sx|sx| |sx mx ex], y as [sy|sy| |sy my ey],
           z as [sz|sz| |sz mz ez]; cbn [SFcompare];
    try discriminate; try reflexivity;
    try (destruct sx; try discriminate; try reflexivity);
    try (destruct sy; try discriminate; try reflexivity);
    try (destruct sz; try discriminate; try reflexivity);
    change (Pos.compare_cont Eq) with Pos.compare;
    repeat match goal with
           | |- context [(?a ?= ?b)%Z] => destruct (Z.compare_spec a b)
           end; try discriminate; try reflexivity; try lia;
    repeat match goal with
           | |- context [(?a ?= ?b)%positive] => destruct (Pos.compare_spec a b)
           end; cbn [CompOpp]; try discriminate; try reflexivity; try lia.
Qed.

Lemma is_nan_spec (x : float) :
  PrimFloat.is_nan x = true <-> Prim2SF x = S754_nan.
Proof.
  unfold PrimFloat.is_nan. rewrite FloatAxioms.eqb_spec. unfold SFeqb. split.
  - intros H. destruct (Prim2SF x) as [s|s| |s m e] eqn:E; try reflexivity;
      rewrite SFcompare_refl in H by discriminate; discriminate.
  - intros ->. reflexivity.
Qed.

Lemma is_nan_false (x : float) :
  PrimFloat.is_nan x = false <-> Prim2SF x <> S754_nan.
Proof.
  rewrite <- is_nan_spec. destruct (PrimFloat.is_nan x); split; congruence.
Qed.

Lemma leb_nan_l (a b : float) :
  PrimFloat.is_nan a = true -> PrimFloat.leb a b = false.
Proof. intros H. apply is_nan_spec in H. rewrite FloatAxioms.leb_spec, H. reflexivity. Qed.

Lemma leb_nan_r (a b : float) :
  PrimFloat.is_nan b = true -> PrimFloat.leb a b = false.
Proof.
  intros H. apply is_nan_spec in H. rewrite FloatAxioms.leb_spec, H.
  unfold SFleb. now destruct (Prim2SF a).
Qed.

Lemma leb_total (a b : float) :
  PrimFloat.is_nan a = false -> PrimFloat.is_nan b = false ->
  PrimFloat.leb a b = true \/ PrimFloat.leb b a = true.
Proof.
  intros Ha Hb. apply is_nan_false in Ha. apply is_nan_false in Hb.
  rewrite !FloatAxioms.leb_spec. unfold SFleb.
  rewrite (SFcompare_antisym (Prim2SF a) (Prim2SF b)).
  destruct (SFcompare (Prim2SF a) (Prim2SF b)) as [[| |]|] eqn:E; cbn; auto.
  destruct (Prim2SF a), (Prim2SF b); cbn in E; congruence.
Qed.

Lemma leb_trans (a b c : float) :
  PrimFloat.leb a b = true -> PrimFloat.leb b c = true -> PrimFloat.leb a c = true.
Proof. rewrite !FloatAxioms.leb_spec. apply SFleb_trans. Qed.


(** ** The order of the values without rounding *)

Lemma x_leb_refl (x : xfloat) : x_isnan x = false -> x_leb x x = true.
Proof.
  destruct x as [q| | |]; cbn; intros H; try reflexivity; try discriminate.
  apply Qle_bool_iff. apply Qle_refl.
Qed.

Lemma x_leb_trans (a b c : xfloat) :
  x_leb a b = true -> x_leb b c = true -> x_leb a c = true.
Proof.
  destruct a as [qa| | |], b as [qb| | |], c as [qc| | |]; cbn;
    intros H1 H2; try reflexivity; try discriminate.
  apply Qle_bool_iff in H1, H2. apply Qle_bool_iff.
  now apply (Qle_trans _ qb).
Qed.

Lemma x_leb_total (a b : xfloat) :
  x_isnan a = false -> x_isnan b = false ->
  x_leb a b = true \/ x_leb b a = true.
Proof.
  destruct a as [qa| | |], b as [qb| | |]; cbn; intros Ha Hb;
    try discriminate; auto.
  destruct (Qlt_le_dec qb qa) as [H|H].
  - right. apply Qle_bool_iff. now apply Qlt_le_weak.
  - left. now apply Qle_bool_iff.
Qed.

Lemma x_leb_nan_l (a b : xfloat) : x_isnan a = true -> x_leb a b = false.
Proof. destruct a; cbn; intros H; try discriminate. reflexivity. Qed.

Lemma x_leb_nan_r (a b : xfloat) : x_isnan b = true -> x_leb a b = false.
Proof. destruct b; cbn; intros H; try discriminate. now destruct a. Qed.

Lemma x_ltb_leb (a b : xfloat) :
  x_ltb a b = true <-> x_leb a b = true /\ x_leb b a = false.
Proof.
  destruct a as [qa| | |], b as [qb| | |]; cbn;
    try (split; [intros H|intros [H1 H2]]; try discriminate; auto; fail).
  rewrite negb_true_iff. split.
  - intros H. split; [|exact H].
    destruct (Qle_bool qa qb) eqn:E; [reflexivity|].
    destruct (Qlt_le_dec qb qa) as [H'|H'].
    + apply Qlt_le_weak in H'. apply Qle_bool_iff in H'. congruence.
    + apply Qle_bool_iff in H'. congruence.
  - tauto.
Qed.

(** ** Maximum and argmin under the laws of the float order

    The laws hold of binary64 and of the exact instance: a comparison with
    NaN is false, two values that are not NaN compare one way or the other,
    [<=] is transitive, and [a < b] says [a <= b] and not [b <= a]. *)

Section OrderedFloats.
Context {F : Type} {ops : FloatOps F}.
Hypothesis Hnan_l : forall a b : F, fisnan a = true -> fleb a b = false.
Hypothesis Hnan_r : forall a b : F, fisnan b = true -> fleb a b = false.
Hypothesis Htotal :
forall a b : F, fisnan a = false -> fisnan b = false ->
                fleb a b = true \/ fleb b a = true.
Hypothesis Htrans :
forall a b c : F, fleb a b = true -> fleb b c = true -> fleb a c = true.
Hypothesis Hlt :
forall a b : F, fltb a b = true <-> fleb a b = true /\ fleb b a = false.

Lemma fleb_refl (a : F) : fisnan a = false -> fleb a a = true.
Proof. intros H. now destruct (Htotal a a H H). Qed.

Lemma fleb_not_nan (a b : F) :
fleb a b = true -> fisnan a = false /\ fisnan b = false.
Proof.
intros H. split.
- destruct (fisnan a) eqn:E; [|reflexivity]. rewrite (Hnan_l a b E) in H. discriminate.
- destruct (fisnan b) eqn:E; [|reflexivity]. rewrite (Hnan_r a b E) in H. discriminate.
Qed.

(** [numpy.amax]: NaN when a value is NaN, and otherwise one of the values,
  which none exceeds. *)
Lemma fold_maximum_ordered (r : list F) (x : F) :
(fisnan (fold_left np_maximum r x) = true
 /\ exists c, In c (x :: r) /\ fisnan c = true)
\/ (In (fold_left np_maximum r x) (x :: r)
    /\ forall c, In c (x :: r) ->
         fisnan c = false /\ fleb c (fold_left np_maximum r x) = true).
Proof.
revert x. induction r as [|b r IH]; intros x.
- cbn [fold_left]. destruct (fisnan x) eqn:Hx.
  + left. split; [reflexivity|]. exists x. split; [now left|exact Hx].
  + right. split; [now left|]. intros c [<-|[]]. split; [exact Hx|now apply fleb_refl].
- cbn [fold_left]. destruct (IH (np_maximum x b)) as [[HM [c [Hc Hnan]]]|[Hin Hall]].
  + left. split; [exact HM|]. exists c. split; [|exact Hnan].
    destruct Hc as [<-|Hc]; [|now right; right].
    unfold np_maximum. destruct (fisnan x || fleb b x); [now left|right; now left].
  + right.
    assert (Hm : fisnan (np_maximum x b) = false
                 /\ fleb (np_maximum x b) (fold_left np_maximum r (np_maximum x b))
                    = true) by (apply Hall; now left).
    destruct Hm as [Hm1 Hm2]. revert Hin Hall Hm1 Hm2. unfold np_maximum.
    destruct (fisnan x) eqn:Hx; cbn [orb]; [intros; congruence|].
    destruct (fleb b x) eqn:Hbx; intros Hin Hall Hm1 Hm2.
    * split; [destruct Hin as [<-|Hin]; [now left|now right; right]|].
      intros c [<-|[<-|Hc]].
      -- now split.
      -- split; [exact (proj1 (fleb_not_nan _ _ Hbx))|].
         exact (Htrans _ _ _ Hbx Hm2).
      -- apply Hall. now right.
    * split; [destruct Hin as [<-|Hin]; [right; now left|now right; right]|].
      intros c [<-|[<-|Hc]].
      -- split; [exact Hx|].
         destruct (Htotal x b Hx Hm1) as [E|E]; [|congruence].
         exact (Htrans _ _ _ E Hm2).
      -- now split.
      -- apply Hall. now right.
Qed.

(** The loop of [numpy.argmin]: it ends on the first NaN when there is one,
  and otherwise on the first of the least values. *)
Lemma argmin_from_ordered (d : F) (r pre : list F) (mp : F) (mi : nat) :
mi < length pre ->
nth mi pre d = mp ->
((fisnan mp = true /\ forall k, k < mi -> fisnan (nth k pre d) = false)
 \/ (forall k, k < length pre ->
       fisnan (nth k pre d) = false
       /\ fleb mp (nth k pre d) = true
       /\ (k < mi -> fltb mp (nth k pre d) = true))) ->
argmin_from r (length pre) mp mi < length (pre ++ r)
/\ ((fisnan (nth (argmin_from r (length pre) mp mi) (pre ++ r) d) = true
     /\ forall k, k < argmin_from r (length pre) mp mi ->
          fisnan (nth k (pre ++ r) d) = false)
    \/ (forall k, k < length (pre ++ r) ->
          fisnan (nth k (pre ++ r) d) = false
          /\ fleb (nth (argmin_from r (length pre) mp mi) (pre ++ r) d)
                  (nth k (pre ++ r) d) = true
          /\ (k < argmin_from r (length pre) mp mi ->
              fltb (nth (argmin_from r (length pre) mp mi) (pre ++ r) d)
                   (nth k (pre ++ r) d) = true))).
Proof.
revert pre mp mi. induction r as [|x r IH]; intros pre mp mi Hmi Hnth Hinv.
- cbn [argmin_from]. rewrite app_nil_r, Hnth. split; [exact Hmi|exact Hinv].
- cbn [argmin_from]. destruct (fisnan mp) eqn:Hmp.
  + split; [rewrite length_app; lia|]. left.
    destruct Hinv as [[_ Hfirst]|Hall].
    * rewrite app_nth1 by exact Hmi. rewrite Hnth. split; [exact Hmp|].
      intros k Hk. rewrite app_nth1 by lia. now apply Hfirst.
    * destruct (Hall mi Hmi) as [E _]. rewrite Hnth in E. congruence.
  + destruct Hinv as [[E _]|Hall]; [congruence|].
    replace (pre ++ x :: r) with ((pre ++ [x]) ++ r) by (now rewrite <- app_assoc).
    replace (S (length pre)) with (length (pre ++ [x]))
      by (rewrite length_app; cbn [length]; lia).
    destruct (fleb mp x) eqn:Hx.
    * apply IH.
      -- rewrite length_app. lia.
      -- now rewrite app_nth1 by exact Hmi.
      -- right. intros k Hk. rewrite length_app in Hk. cbn [length] in Hk.
         destruct (Nat.lt_ge_cases k (length pre)) as [Hkp|Hge].
         ++ rewrite app_nth1 by exact Hkp. now apply Hall.
         ++ rewrite app_nth2 by exact Hge.
            replace (k - length pre) with 0 by lia. cbn [nth].
            split; [exact (proj2 (fleb_not_nan _ _ Hx))|].
            split; [exact Hx|lia].
    * apply IH.
      -- rewrite length_app. cbn [length]. lia.
      -- rewrite app_nth2 by lia. now rewrite Nat.sub_diag.
      -- destruct (fisnan x) eqn:Hxn.
         ++ left. split; [reflexivity|]. intros k Hk.
            rewrite app_nth1 by exact Hk. now apply Hall.
         ++ right. intros k Hk. rewrite length_app in Hk. cbn [length] in Hk.
            assert (Hxm : fleb x mp = true)
              by (destruct (Htotal x mp Hxn Hmp) as [E|E]; [exact E|congruence]).
            destruct (Nat.lt_ge_cases k (length pre)) as [Hkp|Hge].
            ** rewrite app_nth1 by exact Hkp.
               destruct (Hall k Hkp) as [Hk1 [Hk2 _]].
               split; [exact Hk1|].
               split; [exact (Htrans _ _ _ Hxm Hk2)|]. intros _.
               apply Hlt. split; [exact (Htrans _ _ _ Hxm Hk2)|].
               destruct (fleb (nth k pre d) x) eqn:E; [|reflexivity].
               rewrite (Htrans _ _ _ Hk2 E) in Hx. discriminate.
            ** rewrite app_nth2 by exact Hge.
               replace (k - length pre) with 0 by lia. cbn [nth].
               split; [exact Hxn|]. split; [now apply fleb_refl|lia].
Qed.

Lemma np_argmin_ordered (d : F) (l : list F) :
l <> [] ->
exists idx,
  np_argmin l = Some idx
  /\ idx < length l
  /\ ((fisnan (nth idx l d) = true
       /\ forall k, k < idx -> fisnan (nth k l d) = false)
      \/ (forall k, k < length l ->
            fisnan (nth k l d) = false
            /\ fleb (nth idx l d) (nth k l d) = true
            /\ (k < idx -> fltb (nth idx l d) (nth k l d) = true))).
Proof.
destruct l as [|x r]; [congruence|]. intros _.
exists (argmin_from r 1 x 0). split; [reflexivity|].
apply (argmin_from_ordered d r [x] x 0).
- cbn [length]. lia.
- reflexivity.
- destruct (fisnan x) eqn:Hx.
  + left. split; [reflexivity|]. intros k Hk. lia.
  + right. intros k Hk. cbn [length] in Hk. replace k with 0 by lia. cbn [nth].
    split; [exact Hx|]. split; [now apply fleb_refl|lia].
Qed.
End OrderedFloats.

(** ** IEEE 754 binary64: zeros *)









(** ** Row-major positions of a matrix *)

Lemma indices_rank1 (n : nat) : indices [n] = map (fun i => [i]) (seq 0 n).
Proof.
  cbn [indices]. induction (seq 0 n) as [|i l IH]; [reflexivity|].
  cbn [flat_map map app] in *. now rewrite IH.
Qed.

Lemma nth_row_blocks (n1 n0 a j i : nat) :
  j < n0 -> i < n1 ->
  nth (j * n1 + i)
      (flat_map (fun j' => map (cons j') (indices [n1])) (seq a n0)) []
  = [a + j; i].
Proof.
  revert a j. induction n0 as [|n0 IH]; intros a j Hj Hi; [lia|].
  assert (Hlen : length (map (cons a) (indices [n1])) = n1)
    by (now rewrite length_map, indices_rank1, length_map, length_seq).
  cbn [seq flat_map]. destruct j as [|j].
  - rewrite app_nth1 by (cbn [Nat.mul Nat.add]; lia).
    cbn [Nat.mul Nat.add]. rewrite indices_rank1, map_map.
    rewrite (nth_indep _ [] [a; 0]) by (now rewrite length_map, length_seq).
    rewrite (map_nth (fun x => [a; x]) (seq 0 n1) 0 i).
    rewrite seq_nth by exact Hi. now rewrite Nat.add_0_r.
  - rewrite app_nth2 by (rewrite Hlen; cbn [Nat.mul]; lia).
    rewrite Hlen. replace (S j * n1 + i - n1) with (j * n1 + i) by (cbn [Nat.mul]; lia).
    rewrite IH by lia. f_equal. lia.
Qed.

Lemma length_row_blocks (n1 n0 a : nat) :
  length (flat_map (fun j' => map (cons j') (indices [n1])) (seq a n0))
  = n0 * n1.
Proof.
  revert a. induction n0 as [|n0 IH]; intros a; [reflexivity|].
  cbn [seq flat_map]. rewrite length_app, IH.
  rewrite length_map, indices_rank1, length_map, length_seq.
  reflexivity.
Qed.

Lemma length_indices2 (n0 n1 : nat) : length (indices [n0; n1]) = n0 * n1.
Proof. exact (length_row_blocks n1 n0 0). Qed.

Lemma nth_indices2 (n0 n1 j i : nat) :
  j < n0 -> i < n1 -> nth (j * n1 + i) (indices [n0; n1]) [] = [j; i].
Proof. intros Hj Hi. exact (nth_row_blocks n1 n0 0 j i Hj Hi). Qed.

Lemma unravel_position (n1 j i : nat) :
  i < n1 -> (j * n1 + i) / n1 = j /\ (j * n1 + i) mod n1 = i.
Proof.
  intros Hi. split.
  - rewrite Nat.div_add_l by lia. rewrite Nat.div_small by exact Hi. lia.
  - rewrite Nat.add_comm, Nat.Div0.mod_add. now apply Nat.mod_small.
Qed.

Lemma position_bounds (n0 n1 k : nat) :
  k < n0 * n1 -> k / n1 < n0 /\ k mod n1 < n1 /\ k = (k / n1) * n1 + k mod n1.
Proof.
  intros Hk. assert (Hn1 : n1 <> 0) by (intros ->; lia).
  split; [|split].
  - apply Nat.Div0.div_lt_upper_bound. lia.
  - now apply Nat.mod_upper_bound.
  - rewrite (Nat.div_mod_eq k n1) at 1. lia.
Qed.

Lemma length_ravel2 {F : Type} (n0 n1 : nat) (v : list nat -> F) :
  length (ravel (mk_ndarray [n0; n1] v)) = n0 * n1.
Proof. unfold ravel. rewrite length_map. apply length_indices2. Qed.

(** The value at position [k] of [ravel] is the cell [(k / n1, k mod n1)]. *)
Lemma nth_ravel2 {F : Type} (n0 n1 : nat) (v : list nat -> F) (d : F) (k : nat) :
  k < n0 * n1 ->
  nth k (ravel (mk_ndarray [n0; n1] v)) d = v [k / n1; k mod n1].
Proof.
  intros Hk. destruct (position_bounds n0 n1 k Hk) as [Hj [Hi Heq]].
  unfold ravel. cbn [shape item].
  rewrite (nth_indep _ d (v [])) by (now rewrite length_map, length_indices2).
  rewrite (map_nth v (indices [n0; n1]) [] k).
  rewrite Heq at 1. now rewrite nth_indices2.
Qed.

(** An index of a matrix has two positions, inside the shape. *)
Lemma in_indices2_bounds (n0 n1 : nat) (r : list nat) :
  In r (indices [n0; n1]) -> exists j i, r = [j; i] /\ j < n0 /\ i < n1.
Proof.
  intros H. apply in_indices in H.
  inversion H as [|j s0 r1 s1 Hj H1]; subst.
  inversion H1 as [|i s2 r2 s3 Hi H2]; subst.
  inversion H2; subst. now exists j, i.
Qed.

Lemma cell_in_indices2 (n0 n1 j i : nat) :
  j < n0 -> i < n1 -> In [j; i] (indices [n0; n1]).
Proof.
  intros Hj Hi. rewrite <- (nth_indices2 n0 n1 j i Hj Hi).
  apply nth_In. rewrite length_indices2. nia.
Qed.

(** ** The window of [findExtrema], cell by cell *)

Section Window.
Context {F : Type} {ops : FloatOps F}.
Variables n0 n1 : nat.
Variables vy vz vpsi : list nat -> F.
Variables min_lat max_lat min_depth : F.

(** The values of the window are those of the cells [(j, i)] of the array
  with [min_lat <= y[j,i] <= max_lat] and [z[j,i] < -min_depth]. *)
Lemma in_window_values (x : F) :
In x (window_values (mk_ndarray [n0; n1] vy) (mk_ndarray [n0; n1] vz)
                    (mk_ndarray [n0; n1] vpsi) min_lat max_lat min_depth)
<-> exists j i,
      j < n0 /\ i < n1
      /\ fleb min_lat (vy [j; i]) && fleb (vy [j; i]) max_lat
         && fltb (vz [j; i]) (fopp min_depth) = true
      /\ x = vpsi [j; i].
Proof.
unfold window_values. cbn [shape item]. rewrite in_map_iff. split.
- intros [idx [Hx Hidx]]. apply filter_In in Hidx. destruct Hidx as [Hin Hw].
  destruct (in_indices2_bounds n0 n1 idx Hin) as [j [i [-> [Hj Hi]]]].
  exists j, i. split; [exact Hj|]. split; [exact Hi|]. split; [exact Hw|].
  now symmetry.
- intros [j [i [Hj [Hi [Hw Hx]]]]]. exists [j; i]. split; [now symmetry|].
  apply filter_In. split; [now apply cell_in_indices2|exact Hw].
Qed.

Lemma window_values_empty :
window_values (mk_ndarray [n0; n1] vy) (mk_ndarray [n0; n1] vz)
              (mk_ndarray [n0; n1] vpsi) min_lat max_lat min_depth = []
<-> forall j i, j < n0 -> i < n1 ->
      fleb min_lat (vy [j; i]) && fleb (vy [j; i]) max_lat
      && fltb (vz [j; i]) (fopp min_depth) = false.
Proof.
split.
- intros E j i Hj Hi.
  destruct (fleb min_lat (vy [j; i]) && fleb (vy [j; i]) max_lat
            && fltb (vz [j; i]) (fopp min_depth)) eqn:Hw; [|reflexivity].
  exfalso.
  assert (H : In (vpsi [j; i])
                (window_values (mk_ndarray [n0; n1] vy) (mk_ndarray [n0; n1] vz)
                   (mk_ndarray [n0; n1] vpsi) min_lat max_lat min_depth))
    by (apply in_window_values; now exists j, i).
  rewrite E in H. exact H.
- intros H.
  destruct (window_values _ _ _ min_lat max_lat min_depth) as [|x r] eqn:E;
    [reflexivity|].
  assert (Hx : In x (x :: r)) by now left.
  rewrite <- E in Hx. apply in_window_values in Hx.
  destruct Hx as [j [i [Hj [Hi [Hw _]]]]]. rewrite (H j i Hj Hi) in Hw.
  discriminate.
Qed.

Lemma window_values_cell (j i : nat) :
j < n0 -> i < n1 ->
fleb min_lat (vy [j; i]) && fleb (vy [j; i]) max_lat
&& fltb (vz [j; i]) (fopp min_depth) = true ->
window_values (mk_ndarray [n0; n1] vy) (mk_ndarray [n0; n1] vz)
              (mk_ndarray [n0; n1] vpsi) min_lat max_lat min_depth <> [].
Proof.
intros Hj Hi Hw E. rewrite window_values_empty in E.
rewrite (E j i Hj Hi) in Hw. discriminate.
Qed.
End Window.

(** ** The two stages of [findExtrema] under the laws of the float order *)

Section Stages.
Context {F : Type} {ops : FloatOps F}.
Hypothesis Hnan_l : forall a b : F, fisnan a = true -> fleb a b = false.
Hypothesis Hnan_r : forall a b : F, fisnan b = true -> fleb a b = false.
Hypothesis Htotal :
forall a b : F, fisnan a = false -> fisnan b = false ->
                fleb a b = true \/ fleb b a = true.
Hypothesis Htrans :
forall a b c : F, fleb a b = true -> fleb b c = true -> fleb a c = true.
Hypothesis Hlt :
forall a b : F, fltb a b = true <-> fleb a b = true /\ fleb b a = false.
Variables n0 n1 : nat.
Variables vy vz vpsi : list nat -> F.

(** Stage one on a window that holds a cell: [mult * M], where [M] is NaN
  when a product [mult * psi] of the window is NaN, and otherwise one of
  these products that none of them exceeds. *)
Lemma psiMax_ordered (min_lat max_lat min_depth mult : F) :
(exists j i, j < n0 /\ i < n1
             /\ fleb min_lat (vy [j; i]) && fleb (vy [j; i]) max_lat
                && fltb (vz [j; i]) (fopp min_depth) = true) ->
exists M,
  psiMax (mk_ndarray [n0; n1] vy) (mk_ndarray [n0; n1] vz)
         (mk_ndarray [n0; n1] vpsi) min_lat max_lat min_depth mult
  = Some (fmul mult M)
  /\ ((fisnan M = true
       /\ exists j i, j < n0 /\ i < n1
            /\ fleb min_lat (vy [j; i]) && fleb (vy [j; i]) max_lat
               && fltb (vz [j; i]) (fopp min_depth) = true
            /\ fisnan (fmul mult (vpsi [j; i])) = true)
      \/ ((exists j i, j < n0 /\ i < n1
             /\ fleb min_lat (vy [j; i]) && fleb (vy [j; i]) max_lat
                && fltb (vz [j; i]) (fopp min_depth) = true
             /\ M = fmul mult (vpsi [j; i]))
          /\ forall j i, j < n0 -> i < n1 ->
               fleb min_lat (vy [j; i]) && fleb (vy [j; i]) max_lat
               && fltb (vz [j; i]) (fopp min_depth) = true ->
               fisnan (fmul mult (vpsi [j; i])) = false
               /\ fleb (fmul mult (vpsi [j; i])) M = true)).
Proof.
intros [j0 [i0 [Hj0 [Hi0 Hw0]]]].
pose proof (in_window_values n0 n1 vy vz vpsi min_lat max_lat min_depth) as Hcells.
pose proof (window_values_cell n0 n1 vy vz vpsi min_lat max_lat min_depth
              j0 i0 Hj0 Hi0 Hw0) as Hne.
unfold psiMax.
destruct (window_values _ _ _ min_lat max_lat min_depth) as [|x r]; [congruence|].
cbn [map np_amax option_map]. eexists. split; [reflexivity|].
assert (Hprod : forall c,
           In c (fmul mult x :: map (fmul mult) r)
           <-> exists j i, j < n0 /\ i < n1
                 /\ fleb min_lat (vy [j; i]) && fleb (vy [j; i]) max_lat
                    && fltb (vz [j; i]) (fopp min_depth) = true
                 /\ c = fmul mult (vpsi [j; i])).
{ intros c. change (fmul mult x :: map (fmul mult) r)
    with (map (fmul mult) (x :: r)).
  rewrite in_map_iff. split.
  - intros [v [Hc Hv]]. apply Hcells in Hv.
    destruct Hv as [j [i [Hj [Hi [Hw Hv]]]]]. exists j, i. subst. auto.
  - intros [j [i [Hj [Hi [Hw Hc]]]]]. exists (vpsi [j; i]).
    split; [now symmetry|]. apply Hcells. now exists j, i. }
destruct (fold_maximum_ordered Hnan_l Hnan_r Htotal Htrans
            (map (fmul mult) r) (fmul mult x))
  as [[HM [c [Hc Hnan]]]|[Hin Hall]].
- left. split; [exact HM|]. apply Hprod in Hc.
  destruct Hc as [j [i [Hj [Hi [Hw Hc]]]]]. exists j, i. subst c. auto.
- right. split; [now apply Hprod|].
  intros j i Hj Hi Hw. apply Hall. apply Hprod. now exists j, i.
Qed.

(** Stage two, over the whole array: the cell found is the first one, in
  row-major order, whose distance to [m] is NaN, and when no distance is
  NaN the first one whose distance is least. *)
Lemma locate_ordered (m : F) :
0 < n0 * n1 ->
exists j i,
  j < n0 /\ i < n1
  /\ locate (mk_ndarray [n0; n1] vpsi) m = Some (j, i)
  /\ ((fisnan (fabs (fsub (vpsi [j; i]) m)) = true
       /\ forall j' i', j' < n0 -> i' < n1 -> j' * n1 + i' < j * n1 + i ->
            fisnan (fabs (fsub (vpsi [j'; i']) m)) = false)
      \/ (forall j' i', j' < n0 -> i' < n1 ->
            fisnan (fabs (fsub (vpsi [j'; i']) m)) = false
            /\ fleb (fabs (fsub (vpsi [j; i]) m))
                    (fabs (fsub (vpsi [j'; i']) m)) = true
            /\ (j' * n1 + i' < j * n1 + i ->
                fltb (fabs (fsub (vpsi [j; i]) m))
                     (fabs (fsub (vpsi [j'; i']) m)) = true))).
Proof.
intros Hpos.
set (psi := mk_ndarray [n0; n1] vpsi).
set (ds := map (fun x => distance x m) (ravel psi)).
assert (Hlen : length ds = n0 * n1)
  by (unfold ds; rewrite length_map; apply length_ravel2).
assert (Hnth : forall k, k < n0 * n1 ->
           nth k ds fnan = fabs (fsub (vpsi [k / n1; k mod n1]) m)).
{ intros k Hk. unfold ds.
  rewrite (nth_indep _ fnan (distance fnan m)) by (rewrite length_map; unfold psi;
    rewrite length_ravel2; exact Hk).
  rewrite (map_nth (fun x => distance x m)).
  unfold psi. now rewrite (nth_ravel2 n0 n1 vpsi fnan k Hk). }
destruct (np_argmin_ordered Hnan_l Hnan_r Htotal Htrans Hlt fnan ds)
  as [k [Hk [Hlt' Hmin]]].
{ intros E. rewrite E in Hlen. cbn [length] in Hlen. lia. }
rewrite Hlen in Hlt', Hmin.
destruct (position_bounds n0 n1 k Hlt') as [Hj [Hi Heq]].
exists (k / n1), (k mod n1). split; [exact Hj|]. split; [exact Hi|]. split.
{ unfold locate. fold psi. fold ds. rewrite Hk. reflexivity. }
rewrite <- Heq.
assert (Hcell : forall j' i', j' < n0 -> i' < n1 ->
           j' * n1 + i' < n0 * n1
           /\ nth (j' * n1 + i') ds fnan = fabs (fsub (vpsi [j'; i']) m)).
{ intros j' i' Hj' Hi'. assert (Hk' : j' * n1 + i' < n0 * n1) by nia.
  split; [exact Hk'|]. rewrite (Hnth _ Hk').
  destruct (unravel_position n1 j' i' Hi') as [-> ->]. reflexivity. }
rewrite <- (Hnth k Hlt').
destruct Hmin as [[Hnan Hfirst]|Hall].
- left. split; [exact Hnan|]. intros j' i' Hj' Hi' Hlt''.
  destruct (Hcell j' i' Hj' Hi') as [_ <-]. now apply Hfirst.
- right. intros j' i' Hj' Hi'.
  destruct (Hcell j' i' Hj' Hi') as [Hk' <-]. now apply Hall.
Qed.
End Stages.



(** ** The extremum without rounding, on values that are not NaN *)

Lemma x_mul_one (x : xfloat) : x_mul (Fin 1) x = x.
Proof.
  destruct x as [[a b]| | |]; try reflexivity.
  unfold x_mul, Qmult. cbn. now destruct a.
Qed.

Lemma x_mul_minus_one (x : xfloat) : x_mul (Fin (-1)) x = x_opp x.
Proof.
  destruct x as [[a b]| | |]; reflexivity.
Qed.

Lemma x_opp_involutive (x : xfloat) : x_opp (x_opp x) = x.
Proof.
  destruct x as [[a b]| | |]; try reflexivity.
  unfold x_opp, Qopp. cbn. now rewrite Z.opp_involutive.
Qed.

Lemma x_leb_opp (a b : xfloat) : x_leb (x_opp a) (x_opp b) = x_leb b a.
Proof.
  destruct a as [qa| | |], b as [qb| | |]; try reflexivity.
  cbn [x_opp x_leb].
  destruct (Qle_bool qb qa) eqn:E.
  - apply Qle_bool_iff in E. apply Qle_bool_iff. lra.
  - destruct (Qle_bool (- qa) (- qb)) eqn:E'; [|reflexivity].
    apply Qle_bool_iff in E'. assert (H : (qb <= qa)%Q) by lra.
    apply Qle_bool_iff in H. congruence.
Qed.

Lemma x_eqb_leb (a b : xfloat) :
  x_eqb a b = true -> x_leb a b = true /\ x_leb b a = true.
Proof.
  destruct a as [qa| | |], b as [qb| | |]; cbn; intros H;
    try discriminate; try (split; reflexivity).
  apply Qeq_bool_iff in H. split; apply Qle_bool_iff; lra.
Qed.

(** A distance that is NaN, or that is not above the distance of a value to
    itself, is the distance of an equal value. *)
Lemma x_distance_nan (v m : xfloat) :
  x_isnan v = false -> x_isnan m = false ->
  x_isnan (x_abs (x_sub v m)) = true -> x_eqb v m = true.
Proof.
  destruct v as [a| | |], m as [q| | |]; cbn; intros Hv Hm H;
    try discriminate; reflexivity.
Qed.

Lemma x_distance_least (v m : xfloat) :
  x_isnan v = false ->
  x_leb (x_abs (x_sub v m)) (x_abs (x_sub m m)) = true -> x_eqb v m = true.
Proof.
  destruct v as [a| | |], m as [q| | |];
    cbn [x_isnan x_abs x_sub x_add x_opp x_leb x_eqb]; intros Hv H;
    try discriminate; try reflexivity.
  apply Qle_bool_iff in H. apply Qeq_bool_iff.
  assert (H0 : (Qabs (q + - q) == 0)%Q).
  { assert (E : (q + - q == 0)%Q) by lra. now rewrite E. }
  rewrite H0 in H. apply Qabs_Qle_condition in H. lra.
Qed.

Section ExactArray.
Variables n0 n1 : nat.
Variables vy vz vpsi : list nat -> xfloat.
Hypothesis Hvalid : forall j i, j < n0 -> i < n1 -> x_isnan (vpsi [j; i]) = false.

(** Stage one with [mult = 1]: the value of a cell of the window that no
  value of the window exceeds. *)
Lemma psiMax_greatest (min_lat max_lat min_depth : xfloat) :
(exists j i, j < n0 /\ i < n1
             /\ x_leb min_lat (vy [j; i]) && x_leb (vy [j; i]) max_lat
                && x_ltb (vz [j; i]) (x_opp min_depth) = true) ->
exists j i,
  j < n0 /\ i < n1
  /\ x_leb min_lat (vy [j; i]) && x_leb (vy [j; i]) max_lat
     && x_ltb (vz [j; i]) (x_opp min_depth) = true
  /\ psiMax (mk_ndarray [n0; n1] vy) (mk_ndarray [n0; n1] vz)
            (mk_ndarray [n0; n1] vpsi) min_lat max_lat min_depth (Fin 1)
     = Some (vpsi [j; i])
  /\ forall j' i', j' < n0 -> i' < n1 ->
       x_leb min_lat (vy [j'; i']) && x_leb (vy [j'; i']) max_lat
       && x_ltb (vz [j'; i']) (x_opp min_depth) = true ->
       x_leb (vpsi [j'; i']) (vpsi [j; i]) = true.
Proof.
intros Hw.
destruct (@psiMax_ordered xfloat exact x_leb_nan_l x_leb_nan_r x_leb_total
            x_leb_trans n0 n1 vy vz vpsi min_lat max_lat min_depth (Fin 1) Hw)
  as [M [Hmax [[_ [j [i [Hj [Hi [_ Hnan]]]]]]|[[j [i [Hj [Hi [Hin HM]]]]] Hall]]]].
- cbn [fmul fisnan exact] in Hnan. rewrite x_mul_one, (Hvalid j i Hj Hi) in Hnan.
  discriminate.
- cbn [fmul exact] in HM, Hmax. rewrite x_mul_one in HM. subst M.
  rewrite x_mul_one in Hmax.
  exists j, i. split; [exact Hj|]. split; [exact Hi|]. split; [exact Hin|].
  split; [exact Hmax|].
  intros j' i' Hj' Hi' Hin'. destruct (Hall j' i' Hj' Hi' Hin') as [_ H].
  cbn [fmul fleb exact] in H. now rewrite x_mul_one in H.
Qed.

(** Stage one with [mult = -1]: the value of a cell of the window that
  exceeds no value of the window. *)
Lemma psiMax_least (min_lat max_lat min_depth : xfloat) :
(exists j i, j < n0 /\ i < n1
             /\ x_leb min_lat (vy [j; i]) && x_leb (vy [j; i]) max_lat
                && x_ltb (vz [j; i]) (x_opp min_depth) = true) ->
exists j i,
  j < n0 /\ i < n1
  /\ x_leb min_lat (vy [j; i]) && x_leb (vy [j; i]) max_lat
     && x_ltb (vz [j; i]) (x_opp min_depth) = true
  /\ psiMax (mk_ndarray [n0; n1] vy) (mk_ndarray [n0; n1] vz)
            (mk_ndarray [n0; n1] vpsi) min_lat max_lat min_depth (Fin (-1))
     = Some (vpsi [j; i])
  /\ forall j' i', j' < n0 -> i' < n1 ->
       x_leb min_lat (vy [j'; i']) && x_leb (vy [j'; i']) max_lat
       && x_ltb (vz [j'; i']) (x_opp min_depth) = true ->
       x_leb (vpsi [j; i]) (vpsi [j'; i']) = true.
Proof.
intros Hw.
destruct (@psiMax_ordered xfloat exact x_leb_nan_l x_leb_nan_r x_leb_total
            x_leb_trans n0 n1 vy vz vpsi min_lat max_lat min_depth (Fin (-1)) Hw)
  as [M [Hmax [[_ [j [i [Hj [Hi [_ Hnan]]]]]]|[[j [i [Hj [Hi [Hin HM]]]]] Hall]]]].
- cbn [fmul fisnan exact] in Hnan. rewrite x_mul_minus_one in Hnan.
  pose proof (Hvalid j i Hj Hi) as H. destruct (vpsi [j; i]); discriminate.
- cbn [fmul exact] in HM, Hmax. rewrite x_mul_minus_one in HM. subst M.
  rewrite x_mul_minus_one, x_opp_involutive in Hmax.
  exists j, i. split; [exact Hj|]. split; [exact Hi|]. split; [exact Hin|].
  split; [exact Hmax|].
  intros j' i' Hj' Hi' Hin'. destruct (Hall j' i' Hj' Hi' Hin') as [_ H].
  cbn [fmul fleb exact] in H. rewrite x_mul_minus_one in H.
  now rewrite x_leb_opp in H.
Qed.

(** Stage two on a value [m] that a cell holds: the cell found holds an
  equal value. *)
Lemma locate_equal (j0 i0 : nat) :
j0 < n0 -> i0 < n1 ->
exists j i,
  j < n0 /\ i < n1
  /\ locate (mk_ndarray [n0; n1] vpsi) (vpsi [j0; i0]) = Some (j, i)
  /\ x_eqb (vpsi [j; i]) (vpsi [j0; i0]) = true.
Proof.
intros Hj0 Hi0.
destruct (@locate_ordered xfloat exact x_leb_nan_l x_leb_nan_r x_leb_total
            x_leb_trans x_ltb_leb n0 n1 vpsi (vpsi [j0; i0]))
  as [j [i [Hj [Hi [Hloc Hmin]]]]]; [nia|].
exists j, i. split; [exact Hj|]. split; [exact Hi|]. split; [exact Hloc|].
cbn [fabs fsub fisnan fleb exact] in Hmin.
destruct Hmin as [[Hnan _]|Hall].
- apply x_distance_nan; [now apply Hvalid|now apply Hvalid|exact Hnan].
- apply x_distance_least; [now apply Hvalid|].
  exact (proj1 (proj2 (Hall j0 i0 Hj0 Hi0))).
Qed.

(** The value returned for a window that holds a cell, with [mult = 1] and
  with [mult = -1]: the value of a cell of the array, equal to the
  greatest, or the least, value of the window. *)
Lemma findExtrema_window (min_lat max_lat min_depth : xfloat) :
(exists j i, j < n0 /\ i < n1
             /\ x_leb min_lat (vy [j; i]) && x_leb (vy [j; i]) max_lat
                && x_ltb (vz [j; i]) (x_opp min_depth) = true) ->
(exists j i,
    j < n0 /\ i < n1
    /\ findExtrema (mk_ndarray [n0; n1] vy) (mk_ndarray [n0; n1] vz)
                   (mk_ndarray [n0; n1] vpsi) min_lat max_lat min_depth
                   (Fin 1) false
       = Some (Returned (vpsi [j; i]))
    /\ (exists j0 i0,
           j0 < n0 /\ i0 < n1
           /\ x_leb min_lat (vy [j0; i0]) && x_leb (vy [j0; i0]) max_lat
              && x_ltb (vz [j0; i0]) (x_opp min_depth) = true
           /\ x_eqb (vpsi [j; i]) (vpsi [j0; i0]) = true)
    /\ forall j' i', j' < n0 -> i' < n1 ->
         x_leb min_lat (vy [j'; i']) && x_leb (vy [j'; i']) max_lat
         && x_ltb (vz [j'; i']) (x_opp min_depth) = true ->
         x_leb (vpsi [j'; i']) (vpsi [j; i]) = true)
/\ (exists j i,
       j < n0 /\ i < n1
       /\ findExtrema (mk_ndarray [n0; n1] vy) (mk_ndarray [n0; n1] vz)
                      (mk_ndarray [n0; n1] vpsi) min_lat max_lat min_depth
                      (Fin (-1)) false
          = Some (Returned (vpsi [j; i]))
       /\ (exists j0 i0,
              j0 < n0 /\ i0 < n1
              /\ x_leb min_lat (vy [j0; i0]) && x_leb (vy [j0; i0]) max_lat
                 && x_ltb (vz [j0; i0]) (x_opp min_depth) = true
              /\ x_eqb (vpsi [j; i]) (vpsi [j0; i0]) = true)
       /\ forall j' i', j' < n0 -> i' < n1 ->
            x_leb min_lat (vy [j'; i']) && x_leb (vy [j'; i']) max_lat
            && x_ltb (vz [j'; i']) (x_opp min_depth) = true ->
            x_leb (vpsi [j; i]) (vpsi [j'; i']) = true).
Proof.
intros Hw. split.
- destruct (psiMax_greatest min_lat max_lat min_depth Hw)
    as [j0 [i0 [Hj0 [Hi0 [Hin [Hmax Hall]]]]]].
  destruct (locate_equal j0 i0 Hj0 Hi0) as [j [i [Hj [Hi [Hloc Heq]]]]].
  exists j, i. split; [exact Hj|]. split; [exact Hi|]. split; [|split].
  + unfold findExtrema. now rewrite Hmax, Hloc.
  + now exists j0, i0.
  + intros j' i' Hj' Hi' Hin'.
    apply (x_leb_trans _ (vpsi [j0; i0])); [now apply Hall|].
    exact (proj2 (x_eqb_leb _ _ Heq)).
- destruct (psiMax_least min_lat max_lat min_depth Hw)
    as [j0 [i0 [Hj0 [Hi0 [Hin [Hmax Hall]]]]]].
  destruct (locate_equal j0 i0 Hj0 Hi0) as [j [i [Hj [Hi [Hloc Heq]]]]].
  exists j, i. split; [exact Hj|]. split; [exact Hi|]. split; [|split].
  + unfold findExtrema. now rewrite Hmax, Hloc.
  + now exists j0, i0.
  + intros j' i' Hj' Hi' Hin'.
    apply (x_leb_trans _ (vpsi [j0; i0])); [|now apply Hall].
    exact (proj1 (x_eqb_leb _ _ Heq)).
Qed.
End ExactArray.

(** C5, as the code has it.  [findExtrema] keeps the cells with
    [min_lat <= y <= max_lat] and [z < -min_depth] and takes
    [mult * max(mult * psi)] over them; in float64 and for every [mult] the
    maximum is NaN when a product of the window is NaN, and otherwise a
    product of the window that none exceeds.  On a streamfunction that holds
    no NaN this is, read without rounding, the greatest value of the window
    with [mult = 1] and the least with [mult = -1], and when the window
    holds every cell (the default bounds -90, 90 and 0 with every depth
    negative) the value returned without [plot] is the greatest value of
    the whole array for [mult = 1] and the least for [mult = -1].  The last
    conjunct runs the float64 code on a row 1, 5, 3 at 0N, 25N and 50N: the
    whole row gives 5 and 1, the window from 20N gives 5 and 3. *)
Theorem findExtrema_global_extremum :
  (forall (n0 n1 : nat) (vy vz vpsi : list nat -> float)
          (min_lat max_lat min_depth mult : float),
      let inside := fun j i : nat =>
        (min_lat <=? vy [j; i])%float && (vy [j; i] <=? max_lat)%float
        && (vz [j; i] <? - min_depth)%float in
      (exists j i, j < n0 /\ i < n1 /\ inside j i = true) ->
      exists M,
        psiMax (mk_ndarray [n0; n1] vy) (mk_ndarray [n0; n1] vz)
               (mk_ndarray [n0; n1] vpsi) min_lat max_lat min_depth mult
        = Some (mult * M)%float
        /\ ((is_nan M = true
             /\ exists j i, j < n0 /\ i < n1 /\ inside j i = true
                  /\ is_nan (mult * vpsi [j; i]) = true)
            \/ ((exists j i, j < n0 /\ i < n1 /\ inside j i = true
                   /\ M = (mult * vpsi [j; i])%float)
                /\ forall j i, j < n0 -> i < n1 -> inside j i = true ->
                     is_nan (mult * vpsi [j; i]) = false
                     /\ (mult * vpsi [j; i] <=? M)%float = true)))
  /\ (forall (n0 n1 : nat) (vy vz vpsi : list nat -> xfloat),
      (forall j i, j < n0 -> i < n1 -> x_isnan (vpsi [j; i]) = false) ->
      (forall min_lat max_lat min_depth : xfloat,
          let inside := fun j i : nat =>
            x_leb min_lat (vy [j; i]) && x_leb (vy [j; i]) max_lat
            && x_ltb (vz [j; i]) (x_opp min_depth) in
          (exists j i, j < n0 /\ i < n1 /\ inside j i = true) ->
          (exists j i,
              j < n0 /\ i < n1 /\ inside j i = true
              /\ psiMax (mk_ndarray [n0; n1] vy) (mk_ndarray [n0; n1] vz)
                        (mk_ndarray [n0; n1] vpsi) min_lat max_lat min_depth (Fin 1)
                 = Some (vpsi [j; i])
              /\ forall j' i', j' < n0 -> i' < n1 -> inside j' i' = true ->
                   x_leb (vpsi [j'; i']) (vpsi [j; i]) = true)
          /\ (exists j i,
                 j < n0 /\ i < n1 /\ inside j i = true
                 /\ psiMax (mk_ndarray [n0; n1] vy) (mk_ndarray [n0; n1] vz)
                           (mk_ndarray [n0; n1] vpsi) min_lat max_lat min_depth
                           (Fin (-1))
                    = Some (vpsi [j; i])
                 /\ forall j' i', j' < n0 -> i' < n1 -> inside j' i' = true ->
                      x_leb (vpsi [j; i]) (vpsi [j'; i']) = true))
      /\ (0 < n0 * n1 ->
          (forall j i, j < n0 -> i < n1 ->
             x_leb (Fin (-90)) (vy [j; i]) && x_leb (vy [j; i]) (Fin 90)
             && x_ltb (vz [j; i]) (x_opp (Fin 0)) = true) ->
          (exists j i,
              j < n0 /\ i < n1
              /\ findExtrema (mk_ndarray [n0; n1] vy) (mk_ndarray [n0; n1] vz)
                             (mk_ndarray [n0; n1] vpsi)
                             (Fin (-90)) (Fin 90) (Fin 0) (Fin 1) false
                 = Some (Returned (vpsi [j; i]))
              /\ forall j' i', j' < n0 -> i' < n1 ->
                   x_leb (vpsi [j'; i']) (vpsi [j; i]) = true)
          /\ (exists j i,
                 j < n0 /\ i < n1
                 /\ findExtrema (mk_ndarray [n0; n1] vy) (mk_ndarray [n0; n1] vz)
                                (mk_ndarray [n0; n1] vpsi)
                                (Fin (-90)) (Fin 90) (Fin 0) (Fin (-1)) false
                    = Some (Returned (vpsi [j; i]))
                 /\ forall j' i', j' < n0 -> i' < n1 ->
                      x_leb (vpsi [j; i]) (vpsi [j'; i']) = true)))
  /\ (findExtrema lat_row3 depth_row3 (np_array2 nan [[1; 5; 3]]%float)
                  (-90)%float 90%float 0%float 1%float false
      = Some (Returned 5%float)
      /\ findExtrema lat_row3 depth_row3 (np_array2 nan [[1; 5; 3]]%float)
                     (-90)%float 90%float 0%float (-1)%float false
         = Some (Returned 1%float)
      /\ findExtrema lat_row3 depth_row3 (np_array2 nan [[1; 5; 3]]%float)
                     20%float 90%float 0%float 1%float false
         = Some (Returned 5%float)
      /\ findExtrema lat_row3 depth_row3 (np_array2 nan [[1; 5; 3]]%float)
                     20%float 90%float 0%float (-1)%float false
         = Some (Returned 3%float)).
Proof.
  split; [|split; [|repeat split; reflexivity]].
  - intros n0 n1 vy vz vpsi min_lat max_lat min_depth mult inside Hw.
    exact (@psiMax_ordered float binary64 leb_nan_l leb_nan_r leb_total leb_trans
             n0 n1 vy vz vpsi min_lat max_lat min_depth mult Hw).
  - intros n0 n1 vy vz vpsi Hvalid. split.
    + intros min_lat max_lat min_depth inside Hw. split.
      * exact (psiMax_greatest n0 n1 vy vz vpsi Hvalid min_lat max_lat min_depth Hw).
      * exact (psiMax_least n0 n1 vy vz vpsi Hvalid min_lat max_lat min_depth Hw).
    + intros Hpos Hall.
      assert (Hw : exists j i, j < n0 /\ i < n1
                     /\ x_leb (Fin (-90)) (vy [j; i]) && x_leb (vy [j; i]) (Fin 90)
                        && x_ltb (vz [j; i]) (x_opp (Fin 0)) = true).
      { exists 0, 0. assert (H0 : 0 < n0 /\ 0 < n1) by nia.
        split; [tauto|]. split; [tauto|]. apply Hall; tauto. }
      destruct (findExtrema_window n0 n1 vy vz vpsi Hvalid
                  (Fin (-90)) (Fin 90) (Fin 0) Hw)
        as [[j [i [Hj [Hi [Hret [_ Hgreatest]]]]]]
            [j' [i' [Hj' [Hi' [Hret' [_ Hleast]]]]]]].
      split.
      * exists j, i. split; [exact Hj|]. split; [exact Hi|]. split; [exact Hret|].
        intros j2 i2 Hj2 Hi2. apply Hgreatest; auto.
      * exists j', i'. split; [exact Hj'|]. split; [exact Hi'|].
        split; [exact Hret'|].
        intros j2 i2 Hj2 Hi2. apply Hleast; auto.
Qed.

(** The theorem at a 2x2 streamfunction whose cells all lie in the default
    window. *)
Lemma findExtrema_global_extremum_witness :
  (exists j i,
      j < 2 /\ i < 2
      /\ findExtrema lat_2_2 depth_2_2 psi_2_2 (Fin (-90)) (Fin 90) (Fin 0) (Fin 1) false
         = Some (Returned (item psi_2_2 [j; i]))
      /\ forall j' i', j' < 2 -> i' < 2 ->
           x_leb (item psi_2_2 [j'; i']) (item psi_2_2 [j; i]) = true)
  /\ (exists j i,
         j < 2 /\ i < 2
         /\ findExtrema lat_2_2 depth_2_2 psi_2_2
                        (Fin (-90)) (Fin 90) (Fin 0) (Fin (-1)) false
            = Some (Returned (item psi_2_2 [j; i]))
         /\ forall j' i', j' < 2 -> i' < 2 ->
              x_leb (item psi_2_2 [j; i]) (item psi_2_2 [j'; i']) = true).
Proof.
  refine (proj2 (proj1 (proj2 findExtrema_global_extremum) 2 2
                   (item lat_2_2) (item depth_2_2) (item psi_2_2) _) _ _).
  - intros j i Hj Hi.
    destruct j as [|[|j]]; [| |lia]; (destruct i as [|[|i]]; [| |lia]); reflexivity.
  - cbn. lia.
  - intros j i Hj Hi.
    destruct j as [|[|j]]; [| |lia]; (destruct i as [|[|i]]; [| |lia]); reflexivity.
Defined.

(** C5, as the specification states it, fails on a streamfunction that
    holds a NaN: the maximum of stage one is NaN, every distance of stage
    two is NaN, and the value returned is the one of the first cell.  With
    the row 1, 5, NaN the value returned as the greatest is 1, with the row
    5, 1, NaN the value returned as the least is 5. *)
Lemma findExtrema_nan_hides_the_extremum :
  findExtrema lat_row3 depth_row3 (np_array2 nan [[1; 5; nan]]%float)
              (-90)%float 90%float 0%float 1%float false
  = Some (Returned 1%float)
  /\ item (np_array2 nan [[1; 5; nan]]%float) [0; 1] = 5%float
  /\ (1 <? 5)%float = true
  /\ findExtrema lat_row3 depth_row3 (np_array2 nan [[5; 1; nan]]%float)
                 (-90)%float 90%float 0%float (-1)%float false
     = Some (Returned 5%float)
  /\ item (np_array2 nan [[5; 1; nan]]%float) [0; 1] = 1%float.
Proof. repeat split; reflexivity. Qed.

(** ** Validation of the dimensions *)

Lemma has_In (l : list string) (d : string) : has l d = true <-> In d l.
Proof.
  unfold has. rewrite existsb_exists. split.
  - intros [x [Hx E]]. apply String.eqb_eq in E. now subst.
  - intros H. exists d. split; [exact H|apply String.eqb_refl].
Qed.

Lemma has_false (l : list string) (d : string) : has l d = false <-> ~ In d l.
Proof.
  rewrite <- has_In. destruct (has l d); split; congruence.
Qed.

(** ** Positions along named dimensions *)





Section Positions.
Context {F : Type} {ops : FloatOps F}.





End Positions.

Section CheckDims.
Context {F : Type} {ops : FloatOps F}.
Variable np_sum : list F -> F.
Variable np_sqrt : F -> F.

Lemma check_dims_pair (da : DataArray F) (d0 d1 : string) :
check_dims da [d0; d1]
= if has (da_dims da) d0
  then if has (da_dims da) d1 then Ok tt else Raise (ValueError msg_dims1)
  else Raise (ValueError msg_dims0).
Proof.
unfold check_dims. destruct (has (da_dims da) d0); [|reflexivity].
now destruct (has (da_dims da) d1).
Qed.

End CheckDims.

Section WeightsUnchecked.
Context {F : Type} {ops : FloatOps F}.
Variable np_sum : list F -> F.
Variable np_sqrt : F -> F.





End WeightsUnchecked.



(** ** Validation of a region-partitioned call *)

Section Validation.
Context {F : Type} {ops : FloatOps F}.
Variable np_sum : list F -> F.
Variable np_sqrt : F -> F.

Lemma validate_regional_cases (w b : DataArray F) :
validate_regional w b
= if negb (has (da_coords b) "region") then Raise (ValueError (msg_no_region 27))
  else if negb (Nat.eqb (length (shape (da_values w))) 3)
       then Raise (ValueError msg_weights_3d)
       else if negb (Nat.eqb (length (shape (da_values b))) 3)
            then Raise (ValueError msg_regions_3d)
            else Ok tt.
Proof. reflexivity. Qed.

Lemma check_dims_error (da : DataArray F) (dims : list string) (e : exn) :
check_dims da dims = Raise e -> ~ validation_error e.
Proof.
unfold check_dims. intros H [E|[E|E]]; subst e;
  destruct dims as [|d0 [|d1 rest]];
  repeat match type of H with
         | context [if ?c then _ else _] => destruct c
         end; discriminate.
Qed.

Lemma xr_reduce_error (f : list F -> F) (k : bool) (a : DataArray F)
  (dims : list string) (e : exn) :
xr_reduce f k a dims = Raise e -> ~ validation_error e.
Proof.
unfold xr_reduce. destruct (find _ dims); intros H [E|[E|E]]; subst e; discriminate.
Qed.

Lemma bind_error {A B : Type} (r : result A) (k : A -> result B) (e : exn) :
bind r k = Raise e -> r = Raise e \/ exists a, r = Ok a /\ k a = Raise e.
Proof.
destruct r as [a|e']; cbn [bind]; intros H.
- right. now exists a.
- left. now injection H as ->.
Qed.

Lemma rms_da_error (da : DataArray F) (dims : list string)
  (w ws : DataArray F) (e : exn) :
rms_da np_sum np_sqrt da dims (Some w) (Some ws) = Raise e -> ~ validation_error e.
Proof.
unfold rms_da, total_weight. intros H.
apply bind_error in H. destruct H as [H|[?x [_ H]]]; [now apply check_dims_error in H|].
cbn [bind] in H.
apply bind_error in H. destruct H as [H|[?x [_ H]]]; [now apply xr_reduce_error in H|].
discriminate.
Qed.

Lemma mean_da_error (da : DataArray F) (dims : list string)
  (w ws : DataArray F) (e : exn) :
mean_da np_sum da dims (Some w) (Some ws) = Raise e -> ~ validation_error e.
Proof.
unfold mean_da, total_weight. intros H.
apply bind_error in H. destruct H as [H|[?x [_ H]]]; [now apply check_dims_error in H|].
cbn [bind] in H.
apply bind_error in H. destruct H as [H|[?x [_ H]]]; [now apply xr_reduce_error in H|].
discriminate.
Qed.

(** Past the checks the loop over the regions raises none of their
  errors. *)
Lemma regional_loop_error
  (reduce : DataArray F -> list string -> option (DataArray F)
            -> option (DataArray F) -> result (DataArray F))
  (var : DataArray F) (dims : list string) (w b : DataArray F) (e : exn) :
(forall da ds w' ws e', reduce da ds (Some w') (Some ws) = Raise e' ->
                        ~ validation_error e') ->
regional_loop np_sum reduce var dims w b = Raise e -> ~ validation_error e.
Proof.
intros Hred. unfold regional_loop.
destruct (negb (regional_field var b)).
{ intros H [E|[E|E]]; subst e; discriminate. }
intros H. apply bind_error in H. destruct H as [H|[?x [_ H]]]; [|discriminate].
revert H. generalize (seq 0 (length (da_region b))) as rs.
assert (Hinit : @Ok (list (string * DataArray F)) [] = Raise e -> ~ validation_error e)
  by discriminate.
revert Hinit. generalize (@Ok (list (string * DataArray F)) []) as acc.
intros acc Hinit rs. revert acc Hinit.
induction rs as [|r rs IH]; intros acc Hinit H; [now apply Hinit|].
cbn [fold_left] in H. revert H. apply IH. intros H.
apply bind_error in H. destruct H as [H|[od [_ H]]]; [now apply Hinit|].
apply bind_error in H. destruct H as [H|[total [_ H]]]; [now apply xr_reduce_error in H|].
apply bind_error in H. destruct H as [H|[out [_ H]]]; [now apply Hred in H|].
discriminate.
Qed.
End Validation.

(** C10, as the code has it.  In a region-partitioned call of
    [HorizontalMeanRmse_da] or [HorizontalMeanDiff_da] whose field has the
    dimensions [dims], an error is raised before any reduction when the
    basins lack the coordinate [region], when the weights are not of rank
    three, or when the basins are not of rank three, in this order.  Weights
    of rank three with labelled basins of rank three pass the checks: the
    call continues with the loop over the regions, which raises none of the
    three errors, and on a field over (time, z_l, yh, xh) it returns one
    array per region. *)
Theorem regional_validation_requires_rank_three :
  (forall (F : Type) (ops : FloatOps F) (np_sum : list F -> F) (np_sqrt : F -> F)
          (var : DataArray F) (dims : list string) (w b : DataArray F),
      check_dims var dims = Ok tt ->
      (has (da_coords b) "region" = false ->
         HorizontalMeanRmse_da np_sum np_sqrt var dims (Some w) (Some b)
         = Raise (ValueError (msg_no_region 27))
         /\ HorizontalMeanDiff_da np_sum var dims (Some w) (Some b)
            = Raise (ValueError (msg_no_region 27)))
      /\ (has (da_coords b) "region" = true ->
          length (shape (da_values w)) <> 3 ->
          HorizontalMeanRmse_da np_sum np_sqrt var dims (Some w) (Some b)
          = Raise (ValueError msg_weights_3d)
          /\ HorizontalMeanDiff_da np_sum var dims (Some w) (Some b)
             = Raise (ValueError msg_weights_3d))
      /\ (has (da_coords b) "region" = true ->
          length (shape (da_values w)) = 3 ->
          length (shape (da_values b)) <> 3 ->
          HorizontalMeanRmse_da np_sum np_sqrt var dims (Some w) (Some b)
          = Raise (ValueError msg_regions_3d)
          /\ HorizontalMeanDiff_da np_sum var dims (Some w) (Some b)
             = Raise (ValueError msg_regions_3d))
      /\ (has (da_coords b) "region" = true ->
          length (shape (da_values w)) = 3 ->
          length (shape (da_values b)) = 3 ->
          HorizontalMeanRmse_da np_sum np_sqrt var dims (Some w) (Some b)
          = regional_loop np_sum (rms_da np_sum np_sqrt) var dims w b
          /\ HorizontalMeanDiff_da np_sum var dims (Some w) (Some b)
             = regional_loop np_sum (mean_da np_sum) var dims w b
          /\ (forall e,
                HorizontalMeanRmse_da np_sum np_sqrt var dims (Some w) (Some b)
                = Raise e -> ~ validation_error e)
          /\ (forall e,
                HorizontalMeanDiff_da np_sum var dims (Some w) (Some b)
                = Raise e -> ~ validation_error e)))
  /\ (exists od,
        HorizontalMeanRmse_da sum_seq PrimFloat.sqrt field_1_1_1_2
          ["yh"; "xh"]%string (Some volume_1_1_2) (Some basins_3_1_2)
        = Ok (PerRegion od))
  /\ (exists od,
        HorizontalMeanDiff_da sum_seq field_1_1_1_2
          ["yh"; "xh"]%string (Some volume_1_1_2) (Some basins_3_1_2)
        = Ok (PerRegion od)).
Proof.
  split; [|split; eexists; vm_compute; reflexivity].
  intros F ops np_sum np_sqrt var dims w b Hdims.
  unfold HorizontalMeanRmse_da, HorizontalMeanDiff_da.
  rewrite Hdims. cbn [bind]. rewrite validate_regional_cases.
  split; [|split; [|split]].
  - intros ->. split; reflexivity.
  - intros -> Hw. apply Nat.eqb_neq in Hw. rewrite Hw. split; reflexivity.
  - intros -> Hw Hb. apply Nat.eqb_eq in Hw. apply Nat.eqb_neq in Hb.
    rewrite Hw, Hb. split; reflexivity.
  - intros -> Hw Hb. apply Nat.eqb_eq in Hw. apply Nat.eqb_eq in Hb.
    rewrite Hw, Hb. cbn [negb bind].
    split; [reflexivity|]. split; [reflexivity|]. split.
    + intros e. apply regional_loop_error. intros da ds w' ws e'.
      apply rms_da_error.
    + intros e. apply regional_loop_error. intros da ds w' ws e'.
      apply mean_da_error.
Qed.

(** The theorem at the worked field, whose dimensions include [yh] and
    [xh]. *)
Lemma regional_validation_requires_rank_three_witness :
  HorizontalMeanRmse_da sum_seq PrimFloat.sqrt field_1_1_1_2 ["yh"; "xh"]%string
    (Some volume_1_1_2) (Some basins_3_1_2)
  = regional_loop sum_seq (rms_da sum_seq PrimFloat.sqrt) field_1_1_1_2
      ["yh"; "xh"]%string volume_1_1_2 basins_3_1_2
  /\ HorizontalMeanDiff_da sum_seq field_1_1_1_2 ["yh"; "xh"]%string
       (Some volume_1_1_2) (Some basins_3_1_2)
     = regional_loop sum_seq (mean_da sum_seq) field_1_1_1_2
         ["yh"; "xh"]%string volume_1_1_2 basins_3_1_2
  /\ (forall e,
        HorizontalMeanRmse_da sum_seq PrimFloat.sqrt field_1_1_1_2
          ["yh"; "xh"]%string (Some volume_1_1_2) (Some basins_3_1_2)
        = Raise e -> ~ validation_error e)
  /\ (forall e,
        HorizontalMeanDiff_da sum_seq field_1_1_1_2
          ["yh"; "xh"]%string (Some volume_1_1_2) (Some basins_3_1_2)
        = Raise e -> ~ validation_error e).
Proof.
  exact (proj2 (proj2 (proj2
    (proj1 regional_validation_requires_rank_three float binary64 sum_seq
       PrimFloat.sqrt field_1_1_1_2 ["yh"; "xh"]%string volume_1_1_2
       basins_3_1_2 eq_refl))) eq_refl eq_refl eq_refl).
Defined.

(** C10, as the specification states it, fails: weights of rank two, over
    (yh, xh), with labelled basins are refused by both wrappers. *)
Lemma regional_validation_refuses_rank_two :
  length (shape (da_values area_1_2)) = 2
  /\ has (da_coords basins_3_1_2) "region" = true
  /\ HorizontalMeanRmse_da sum_seq PrimFloat.sqrt field_1_1_1_2 ["yh"; "xh"]%string
       (Some area_1_2) (Some basins_3_1_2)
     = Raise (ValueError "If basins is provided, weights must be a 3D array.")
  /\ HorizontalMeanDiff_da sum_seq field_1_1_1_2 ["yh"; "xh"]%string
       (Some area_1_2) (Some basins_3_1_2)
     = Raise (ValueError "If basins is provided, weights must be a 3D array.").
Proof. repeat split; reflexivity. Qed.

(** ** The weighted mean *)

(** An index of a matrix has two positions. *)
Lemma in_indices2 (n0 n1 : nat) (r : list nat) :
  In r (indices [n0; n1]) -> exists j i, r = [j; i].
Proof.
  intros H. apply in_indices in H.
  inversion H as [|j s0 r1 s1 _ H1]; subst.
  inversion H1 as [|i s2 r2 s3 _ H2]; subst.
  inversion H2; subst. now exists j, i.
Qed.

Section WeightedMean.
Context {F : Type} {ops : FloatOps F}.
Variable np_sum : list F -> F.
Variables ny nx : nat.
Variable vw : list nat -> F.
Variables cda cw rda rw : list string.
Variables ada aw : list (string * string).



(** A total weight computed by the caller, as [myStats_da] does, gives the
  same mean. *)
Lemma mean_da_given_total (da w ws : DataArray F) (dims : list string) :
xr_reduce (nansum np_sum) false w dims = Ok ws ->
mean_da np_sum da dims (Some w) (Some ws) = mean_da np_sum da dims (Some w) None.
Proof.
intros H. unfold mean_da, total_weight. now rewrite H.
Qed.
End WeightedMean.

(** ** The weighted mean on any layout *)


Section MeanAnyLayout.
Context {F : Type} {ops : FloatOps F}.
Variable np_sum : list F -> F.
Variables da w : DataArray F.
Variables d0 d1 : string.
Hypothesis Hshape : length (shape (da_values da)) = length (da_dims da).
Hypothesis Hd0 : In d0 (da_dims da).
Hypothesis Hd1 : In d1 (da_dims da).
Hypothesis Hw0 : In d0 (da_dims w).
Hypothesis Hw1 : In d1 (da_dims w).




End MeanAnyLayout.

(** ** A group of cells whose weights are all zero or masked *)


Section ZeroWeights.
Variable np_sum : list float -> float.
Hypothesis Hsum :
forall l : list float,
  (forall x, In x l -> (x =? 0)%float = true) -> (np_sum l =? 0)%float = true.
Variables da w : DataArray float.
Variables d0 d1 : string.
Hypothesis Hshape : length (shape (da_values da)) = length (da_dims da).
Hypothesis Hd0 : In d0 (da_dims da).
Hypothesis Hd1 : In d1 (da_dims da).
Hypothesis Hw0 : In d0 (da_dims w).
Hypothesis Hw1 : In d1 (da_dims w).
Hypothesis Hsize0 : size_of da d0 = size_of w d0.
Hypothesis Hsize1 : size_of da d1 = size_of w d1.

End ZeroWeights.




(** ** Statistics region by region *)

(** An axis of length one holds position zero only. *)
Lemma broadcast_position (n j : nat) :
  j < n -> (if Nat.eqb n 1 then 0 else j) = j.
Proof.
  intros H. destruct (Nat.eqb n 1) eqn:E; [|reflexivity].
  apply Nat.eqb_eq in E. lia.
Qed.

Lemma od_set_fresh {A : Type} (key : string) (value : A) (od : list (string * A)) :
  ~ In key (map fst od) -> od_set key value od = (od ++ [(key, value)])%list.
Proof.
  induction od as [|[k v] od IH]; intros H; [reflexivity|].
  cbn [od_set]. cbn [map fst In] in H.
  destruct (String.eqb k key) eqn:E.
  - apply String.eqb_eq in E. tauto.
  - cbn [app]. f_equal. apply IH. tauto.
Qed.

Lemma nth_not_in_firstn (labels : list string) (n : nat) :
  NoDup labels -> n < length labels ->
  ~ In (nth n labels EmptyString) (firstn n labels).
Proof.
  intros Hnd. revert n. induction Hnd as [|x l Hx Hnd IH]; intros n Hn.
  - cbn [length] in Hn. lia.
  - destruct n as [|n]; [intros []|].
    cbn [nth firstn length] in *. intros [E|Hin].
    + apply Hx. rewrite E. apply nth_In. lia.
    + apply (IH n); [lia|exact Hin].
Qed.

Lemma firstn_succ_nth (labels : list string) (n : nat) :
  n < length labels ->
  firstn (S n) labels = (firstn n labels ++ [nth n labels EmptyString])%list.
Proof.
  revert n. induction labels as [|x l IH]; intros n Hn; [cbn [length] in Hn; lia|].
  destruct n as [|n]; [reflexivity|].
  cbn [firstn nth app length] in *. f_equal. apply IH. lia.
Qed.

(** The loop over the regions fills the ordered dictionary label by label
    when the labels are distinct. *)
Lemma fold_regions {S : Type} (body : nat -> result S) (labels : list string) :
  (forall r, exists s, body r = Ok s) ->
  NoDup labels ->
  forall n, n <= length labels ->
  exists od,
    fold_left (fun acc r =>
                 od <- acc ;;
                 out <- body r ;;
                 Ok (od_set (nth r labels EmptyString) out od))
              (seq 0 n) (Ok [])
    = Ok od
    /\ map fst od = firstn n labels
    /\ forall r, r < n ->
         exists s, body r = Ok s /\ nth_error od r = Some (nth r labels EmptyString, s).
Proof.
  intros Hbody Hnd. induction n as [|n IH]; intros Hn.
  - exists []. split; [reflexivity|]. split; [reflexivity|]. intros r Hr. lia.
  - destruct IH as [od [Hfold [Hkeys Hod]]]; [lia|].
    destruct (Hbody n) as [s Hs].
    exists (od ++ [(nth n labels EmptyString, s)])%list.
    assert (Hlen : length od = n).
    { rewrite <- (length_map fst od), Hkeys. apply firstn_length_le. lia. }
    split; [|split].
    + rewrite seq_S, fold_left_app. cbn [fold_left Nat.add]. rewrite Hfold.
      cbn [bind]. rewrite Hs. cbn [bind]. f_equal. apply od_set_fresh.
      rewrite Hkeys. apply nth_not_in_firstn; [exact Hnd|lia].
    + rewrite map_app, Hkeys. cbn [map fst]. symmetry. apply firstn_succ_nth. lia.
    + intros r Hr. destruct (Nat.eq_dec r n) as [->|Hne].
      * exists s. split; [exact Hs|].
        rewrite nth_error_app2 by lia. rewrite Hlen, Nat.sub_diag. reflexivity.
      * destruct (Hod r) as [s' [Hs' Hnth]]; [lia|].
        exists s'. split; [exact Hs'|].
        rewrite nth_error_app1 by lia. exact Hnth.
Qed.

Section RegionStats.
Context {F : Type} {ops : FloatOps F}.
Variable np_sum : list F -> F.
Variable np_sqrt : F -> F.
Variables nt ny nx nr : nat.
Variables vda vw vb : list nat -> F.
Variables cda cw cb rda rw labels : list string.
Variables ada aw ab : list (string * string).
Let da :=
mk_DataArray ["time"; "yh"; "xh"]%string (mk_ndarray [nt; ny; nx] vda) cda rda ada.
Let w := mk_DataArray ["yh"; "xh"]%string (mk_ndarray [ny; nx] vw) cw rw aw.
Let b :=
mk_DataArray ["region"; "yh"; "xh"]%string (mk_ndarray [nr; ny; nx] vb) cb labels ab.

(** The field of region [r]: the field where the mask of the region is
  one, NaN elsewhere. *)
Let field_of_region (r t : nat) : list F :=
map (fun c => if feqb (vb (r :: c)) fone then vda (t :: c) else fnan)
    (indices [ny; nx]).

(** One turn of the loop: the maximum and the minimum are taken over the
  field of the region. *)
Lemma region_stats_surface (r : nat) :
exists s,
  region_stats np_sum np_sqrt da (Some w) ["yh"; "xh"]%string (sel_region b r)
  = Ok s
  /\ forall t,
       item (da_values (da_max s)) [t] = nanmax (field_of_region r t)
       /\ item (da_values (da_min s)) [t] = nanmin (field_of_region r t).
Proof.
eexists. split.
- unfold region_stats, five_stats, min_da, max_da, mean_da, std_da, rms_da.
  cbn. reflexivity.
- intros t. unfold field_of_region. cbn.
  change (flat_map (fun i => map (cons i) (flat_map (fun i0 => [[i0]]) (seq 0 nx)))
                   (seq 0 ny))
    with (indices [ny; nx]).
  split; f_equal; apply map_ext_in; intros c Hc;
    destruct (in_indices2_bounds ny nx c Hc) as [j [i [-> [Hj Hi]]]];
    cbn; now rewrite (broadcast_position ny j Hj), (broadcast_position nx i Hi).
Qed.

End RegionStats.

Lemma distinct_NoDup (l : list string) : distinct l = true -> NoDup l.
Proof.
  induction l as [|x l IH]; intros H; [constructor|].
  cbn [distinct] in H. apply andb_prop in H. destruct H as [Hx Hl].
  constructor; [|now apply IH].
  apply negb_true_iff in Hx. fold (has l x) in Hx. now apply has_false in Hx.
Qed.

(** C8, as the code has it.  In a region-partitioned call of [myStats_da]
    the field is masked to the region as the weights are: for each region,
    in the order of their labels, the reported minimum and maximum are the
    plain reductions, skipping NaN, of the field where the mask of the
    region is one.  They are the minimum and the maximum over the cells of
    the region, not those of the whole field. *)
Theorem myStats_da_region_min_max :
  forall (F : Type) (ops : FloatOps F) (np_sum : list F -> F) (np_sqrt : F -> F)
         (nt ny nx nr : nat) (vda vw vb : list nat -> F)
         (cda cw cb rda rw labels : list string)
         (ada aw ab : list (string * string)),
    has cb "region" = true -> distinct labels = true -> 0 < length labels ->
    exists od,
      myStats_da np_sum np_sqrt
        (mk_DataArray ["time"; "yh"; "xh"]%string (mk_ndarray [nt; ny; nx] vda)
                      cda rda ada)
        (Some (mk_DataArray ["yh"; "xh"]%string (mk_ndarray [ny; nx] vw) cw rw aw))
        ["yh"; "xh"]%string
        (Some (mk_DataArray ["region"; "yh"; "xh"]%string
                            (mk_ndarray [nr; ny; nx] vb) cb labels ab))
      = Ok od
      /\ map fst od = labels
      /\ forall r, r < length labels ->
           exists s,
             nth_error od r = Some (nth r labels EmptyString, s)
             /\ forall t,
                  item (da_values (da_max s)) [t]
                  = nanmax (map (fun c => if feqb (vb (r :: c)) fone
                                          then vda (t :: c) else fnan)
                                (indices [ny; nx]))
                  /\ item (da_values (da_min s)) [t]
                     = nanmin (map (fun c => if feqb (vb (r :: c)) fone
                                             then vda (t :: c) else fnan)
                                   (indices [ny; nx])).
Proof.
  intros F ops np_sum np_sqrt nt ny nx nr vda vw vb cda cw cb rda rw labels
         ada aw ab Hreg Hdistinct Hne.
  set (da := mk_DataArray ["time"; "yh"; "xh"]%string
                          (mk_ndarray [nt; ny; nx] vda) cda rda ada).
  set (w := mk_DataArray ["yh"; "xh"]%string (mk_ndarray [ny; nx] vw) cw rw aw).
  set (b := mk_DataArray ["region"; "yh"; "xh"]%string
                         (mk_ndarray [nr; ny; nx] vb) cb labels ab).
  assert (Hturn : forall r, exists s,
             region_stats np_sum np_sqrt da (Some w) ["yh"; "xh"]%string
                          (sel_region b r) = Ok s
             /\ forall t,
                  item (da_values (da_max s)) [t]
                  = nanmax (map (fun c => if feqb (vb (r :: c)) fone
                                          then vda (t :: c) else fnan)
                                (indices [ny; nx]))
                  /\ item (da_values (da_min s)) [t]
                     = nanmin (map (fun c => if feqb (vb (r :: c)) fone
                                             then vda (t :: c) else fnan)
                                   (indices [ny; nx])))
    by (intros r; exact (region_stats_surface np_sum np_sqrt nt ny nx nr vda vw vb
                           cda cw cb rda rw labels ada aw ab r)).
  destruct (fold_regions
              (fun r => region_stats np_sum np_sqrt da (Some w)
                          ["yh"; "xh"]%string (sel_region b r))
              labels) with (n := length labels)
    as [od [Hfold [Hkeys Hod]]].
  - intros r. destruct (Hturn r) as [s [Hs _]]. now exists s.
  - now apply distinct_NoDup.
  - lia.
  - rewrite firstn_all in Hkeys.
    exists od. split; [|split; [exact Hkeys|]].
    + unfold myStats_da. cbn [check_dims da da_dims has existsb String.eqb
        Ascii.eqb Bool.eqb orb negb bind].
      cbn [b da_coords da_region]. rewrite Hreg. cbn [negb].
      rewrite Hfold. cbn [bind].
      destruct od as [|kv od']; [|reflexivity].
      cbn [map] in Hkeys. rewrite <- Hkeys in Hne. cbn [length] in Hne. lia.
    + intros r Hr. destruct (Hod r Hr) as [s [Hs Hnth]].
      exists s. split; [exact Hnth|].
      destruct (Hturn r) as [s' [Hs' Hitems]].
      rewrite Hs in Hs'. injection Hs' as ->. exact Hitems.
Qed.

(** The theorem at the worked field and its three regions. *)
Lemma myStats_da_region_min_max_witness :
  exists od,
    myStats_da sum_seq PrimFloat.sqrt field_2_1_2 (Some area_1_2)
      ["yh"; "xh"]%string (Some basins_3_1_2)
    = Ok od
    /\ map fst od = ["Global"; "West"; "Nowhere"]%string
    /\ forall r, r < 3 ->
         exists s,
           nth_error od r
           = Some (nth r ["Global"; "West"; "Nowhere"]%string EmptyString, s)
           /\ forall t,
                item (da_values (da_max s)) [t]
                = nanmax (map (fun c =>
                                 if feqb (item (da_values basins_3_1_2) (r :: c)) fone
                                 then item (da_values field_2_1_2) (t :: c)
                                 else fnan)
                              (indices [1; 2]))
                /\ item (da_values (da_min s)) [t]
                   = nanmin (map (fun c =>
                                    if feqb (item (da_values basins_3_1_2) (r :: c)) fone
                                    then item (da_values field_2_1_2) (t :: c)
                                    else fnan)
                                 (indices [1; 2])).
Proof.
  refine (myStats_da_region_min_max float binary64 sum_seq PrimFloat.sqrt
            2 1 2 3
            (item (da_values field_2_1_2)) (item (da_values area_1_2))
            (item (da_values basins_3_1_2))
            _ _ _ _ _ _ _ _ _ _ _ _).
  - reflexivity.
  - reflexivity.
  - cbn [length]. lia.
Defined.

(** C8, as the specification states it, fails: the maximum reported for the
    western region is the value of its one cell at each time, 1 and 2, and
    not the maximum of the whole field, 5 and 7. *)
Lemma myStats_da_region_max_is_not_global :
  values_of da_max
    (myStats_da sum_seq PrimFloat.sqrt field_2_1_2 (Some area_1_2)
       ["yh"; "xh"]%string (Some basins_3_1_2))
  = [("Global", [5; 7]); ("West", [1; 2]); ("Nowhere", [nan; nan])]%string%float
  /\ values_of da_max
       (myStats_da sum_seq PrimFloat.sqrt field_2_1_2 (Some area_1_2)
          ["yh"; "xh"]%string None)
     = [("Global", [5; 7])]%string%float.
Proof. split; vm_compute; reflexivity. Qed.

(** * Further properties of the programs *)

(** ** [MOCpsi] on other inputs *)

Lemma incr_third_last_short (s : list nat) :
  length s < 3 -> incr_third_last s = None.
Proof.
  intros H. unfold incr_third_last. rewrite <- length_rev in H.
  destruct (rev s) as [|a [|b [|c r]]]; try reflexivity.
  cbn [length] in H. lia.
Qed.

(** X1. [MOCpsi] needs three axes: on an array of rank below three the
    statement [shape[-3] += 1] raises an IndexError, whatever the mask. *)
Theorem MOCpsi_rank_below_three_raises :
  forall (F : Type) (ops : FloatOps F) (np_sum : list F -> F)
         (vh : ndarray F) (vmsk : option (ndarray F)),
    length (shape vh) < 3 -> MOCpsi np_sum vh vmsk = None.
Proof.
  intros F ops np_sum vh vmsk H. unfold MOCpsi.
  rewrite (incr_third_last_short (shape vh) H). reflexivity.
Qed.

(** The theorem at a transport that has lost its layer axis. *)
Lemma MOCpsi_rank_below_three_raises_witness :
  MOCpsi sum_seq (np_full [2; 2] 1%float) None = None.
Proof.
  apply (MOCpsi_rank_below_three_raises float binary64 sum_seq
           (np_full [2; 2] 1%float) None).
  cbn. lia.
Defined.

Lemma interface_above_ext {F : Type} {ops : FloatOps F}
    (z z' : nat -> F) (b : F) (nk d : nat) :
  d <= nk ->
  (forall k, nk - d <= k -> k < nk -> z k = z' k) ->
  interface_above z b nk d = interface_above z' b nk d.
Proof.
  induction d as [|d IH]; intros Hd H; cbn [interface_above]; [reflexivity|].
  rewrite IH by (try lia; intros k Hk1 Hk2; apply H; lia).
  rewrite (H (nk - S d)) by lia. reflexivity.
Qed.

(** The zonal sums of a layer read the cells of that layer only. *)
Lemma zonal_layer_ext {F : Type} {ops : FloatOps F} (np_sum : list F -> F)
    (nk ny nx : nat) (v v' : list nat -> F) (vmsk : option (ndarray F)) (k j : nat) :
  (forall i, i < nx -> v [k; j; i] = v' [k; j; i]) ->
  item (zonal np_sum vmsk (getitem (mk_ndarray [nk; ny; nx] v) [k])) [j]
  = item (zonal np_sum vmsk (getitem (mk_ndarray [nk; ny; nx] v') [k])) [j].
Proof.
  intros H. destruct vmsk as [m|].
  - rewrite !zonal_layer_masked. f_equal. apply map_ext_in.
    intros i Hi. apply in_seq in Hi. rewrite H by lia. reflexivity.
  - rewrite !zonal_layer_unmasked. f_equal. apply map_ext_in.
    intros i Hi. apply in_seq in Hi. apply H. lia.
Qed.

(** X2. The streamfunction at an interface is built from the layers below it
    only: two transports that agree on the layers from [k] down give the
    same values at the interfaces from [k] down, whatever the layers above
    hold. *)
Theorem MOCpsi_interface_ignores_layers_above :
  forall (F : Type) (ops : FloatOps F) (np_sum : list F -> F)
         (nk ny nx : nat) (v v' : list nat -> F) (vmsk : option (ndarray F))
         (k : nat),
    (forall l j i, k <= l -> l < nk -> j < ny -> i < nx ->
                   v [l; j; i] = v' [l; j; i]) ->
    exists psi psi',
      MOCpsi np_sum (mk_ndarray [nk; ny; nx] v) vmsk = Some psi
      /\ MOCpsi np_sum (mk_ndarray [nk; ny; nx] v') vmsk = Some psi'
      /\ forall l j, k <= l -> l <= nk -> j < ny ->
           item psi [l; j] = item psi' [l; j].
Proof.
  intros F ops np_sum nk ny nx v v' vmsk k H.
  rewrite !MOCpsi_rank3. eexists. eexists.
  split; [reflexivity|]. split; [reflexivity|].
  intros l j Hk Hl Hj.
  pose proof (item_scan_closed np_sum vmsk (mk_ndarray [nk; ny; nx] v) []
                nk (np_zeros [S nk; ny]) (nk - l) [j]) as E.
  pose proof (item_scan_closed np_sum vmsk (mk_ndarray [nk; ny; nx] v') []
                nk (np_zeros [S nk; ny]) (nk - l) [j]) as E'.
  cbn [app] in E, E'.
  replace (nk - (nk - l)) with l in E, E' by lia.
  rewrite E, E' by lia.
  apply interface_above_ext; [lia|].
  intros l' Hl1 Hl2. apply zonal_layer_ext.
  intros i Hi. apply H; lia.
Qed.

(** The theorem at two transports of three layers that differ in the top
    layer only. *)
Lemma MOCpsi_interface_ignores_layers_above_witness :
  exists psi psi',
    MOCpsi sum_seq (mk_ndarray [3; 2; 2] (fun _ => 1%float)) None = Some psi
    /\ MOCpsi sum_seq
         (mk_ndarray [3; 2; 2]
            (fun idx => match idx with 0 :: _ => 5%float | _ => 1%float end))
         None = Some psi'
    /\ forall l j, 1 <= l -> l <= 3 -> j < 2 -> item psi [l; j] = item psi' [l; j].
Proof.
  apply (MOCpsi_interface_ignores_layers_above float binary64 sum_seq 3 2 2
           (fun _ => 1%float)
           (fun idx => match idx with 0 :: _ => 5%float | _ => 1%float end)
           None 1).
  intros l j i Hl _ _ _. destruct l as [|l]; [lia|reflexivity].
Defined.

(** ** [findExtrema]: errors and the marked cell *)

Section ExtremaFacts.
Context {F : Type} {ops : FloatOps F}.

Lemma argmin_from_bound (l : list F) (i : nat) (mp : F) (mi : nat) :
mi < i -> argmin_from l i mp mi < i + length l.
Proof.
revert i mp mi. induction l as [|x r IH]; intros i mp mi H;
  cbn [argmin_from length]; [lia|].
destruct (fisnan mp); [lia|]. destruct (fleb mp x).
- specialize (IH (S i) mp mi). lia.
- specialize (IH (S i) x i). lia.
Qed.

Lemma np_argmin_bound (l : list F) :
l <> [] -> exists idx, np_argmin l = Some idx /\ idx < length l.
Proof.
destruct l as [|x r]; [congruence|]. intros _.
exists (argmin_from r 1 x 0). split; [reflexivity|].
pose proof (argmin_from_bound r 1 x 0). cbn [length]. lia.
Qed.

Variables n0 n1 : nat.
Variables vy vz vpsi : list nat -> F.
Variables min_lat max_lat min_depth mult : F.

(** A window that holds a cell is a window of an array that has cells. *)
Lemma window_cells :
window_values (mk_ndarray [n0; n1] vy) (mk_ndarray [n0; n1] vz)
              (mk_ndarray [n0; n1] vpsi) min_lat max_lat min_depth <> [] ->
ravel (mk_ndarray [n0; n1] vpsi) <> [].
Proof.
unfold window_values, ravel. cbn [shape item].
destruct (indices [n0; n1]) as [|idx l]; [intros H; now apply H|].
intros _. cbn [map]. discriminate.
Qed.

(** The two stages on a window that holds a cell. *)
Lemma findExtrema_stages :
window_values (mk_ndarray [n0; n1] vy) (mk_ndarray [n0; n1] vz)
              (mk_ndarray [n0; n1] vpsi) min_lat max_lat min_depth <> [] ->
exists m k,
  psiMax (mk_ndarray [n0; n1] vy) (mk_ndarray [n0; n1] vz)
         (mk_ndarray [n0; n1] vpsi) min_lat max_lat min_depth mult = Some m
  /\ k < n0 * n1
  /\ locate (mk_ndarray [n0; n1] vpsi) m = Some (k / n1, k mod n1).
Proof.
intros Hne. unfold psiMax.
destruct (window_values _ _ _ min_lat max_lat min_depth) as [|x r] eqn:E;
  [congruence|].
cbn [map np_amax option_map]. eexists.
pose proof (window_cells) as Hcells. rewrite E in Hcells.
specialize (Hcells Hne).
destruct (np_argmin_bound
            (map (fun x0 => distance x0
                    (fmul mult (fold_left np_maximum (map (fmul mult) r)
                                          (fmul mult x))))
                 (ravel (mk_ndarray [n0; n1] vpsi))))
  as [k [Hk Hlt]].
{ intros E'. apply map_eq_nil in E'. now apply Hcells. }
rewrite length_map, length_ravel2 in Hlt.
exists k. split; [reflexivity|]. split; [exact Hlt|].
unfold locate. rewrite Hk. reflexivity.
Qed.
End ExtremaFacts.

(** X4. [findExtrema] raises exactly when no cell lies in the window, that
    is when no cell has [min_lat <= y <= max_lat] and [z < -min_depth]: the
    maximum of stage one has nothing to work on.  On any other call it
    returns, or draws, whatever the values are.  In float64, on the row at
    0N and 50N and 10 m, a window from 60N raises, and so does a window
    below 10 m, while a window from 40N does not. *)
Theorem findExtrema_raises_iff_window_empty :
  (forall (F : Type) (ops : FloatOps F) (n0 n1 : nat)
          (vy vz vpsi : list nat -> F) (min_lat max_lat min_depth mult : F)
          (plot : bool),
      findExtrema (mk_ndarray [n0; n1] vy) (mk_ndarray [n0; n1] vz)
                  (mk_ndarray [n0; n1] vpsi) min_lat max_lat min_depth mult plot
      = None
      <-> forall j i, j < n0 -> i < n1 ->
            fleb min_lat (vy [j; i]) && fleb (vy [j; i]) max_lat
            && fltb (vz [j; i]) (fopp min_depth) = false)
  /\ findExtrema lat_row2 depth_row2 (np_array2 nan [[1; 2]]%float)
                 60%float 90%float 0%float 1%float false = None
  /\ findExtrema lat_row2 depth_row2 (np_array2 nan [[1; 2]]%float)
                 (-90)%float 90%float 10%float 1%float false = None
  /\ findExtrema lat_row2 depth_row2 (np_array2 nan [[1; 2]]%float)
                 40%float 90%float 0%float 1%float false = Some (Returned 2%float).
Proof.
  split; [|repeat split; reflexivity].
  intros F ops n0 n1 vy vz vpsi min_lat max_lat min_depth mult plot.
  rewrite <- window_values_empty with (vpsi := vpsi). split.
  - intros H.
    destruct (window_values _ _ _ min_lat max_lat min_depth) as [|x r] eqn:E;
      [reflexivity|].
    exfalso.
    destruct (findExtrema_stages n0 n1 vy vz vpsi min_lat max_lat min_depth mult)
      as [m [k [Hm [_ Hloc]]]]; [rewrite E; discriminate|].
    unfold findExtrema in H. rewrite Hm, Hloc in H.
    destruct plot; discriminate.
  - intros E. unfold findExtrema, psiMax. rewrite E. reflexivity.
Qed.

(** X5. Whenever [findExtrema] does not raise, the cell it finds lies inside
    the array, and the label it draws with [plot] is the value it returns
    without. *)
Theorem findExtrema_marks_a_cell_of_the_array :
  forall (F : Type) (ops : FloatOps F) (n0 n1 : nat)
         (vy vz vpsi : list nat -> F) (min_lat max_lat min_depth mult : F)
         (plot : bool),
    findExtrema (mk_ndarray [n0; n1] vy) (mk_ndarray [n0; n1] vz)
                (mk_ndarray [n0; n1] vpsi) min_lat max_lat min_depth mult plot
    <> None ->
    exists j i,
      j < n0 /\ i < n1
      /\ findExtrema (mk_ndarray [n0; n1] vy) (mk_ndarray [n0; n1] vz)
                     (mk_ndarray [n0; n1] vpsi) min_lat max_lat min_depth mult true
         = Some (Plotted (vy [j; i]) (vz [j; i]) (vpsi [j; i]))
      /\ findExtrema (mk_ndarray [n0; n1] vy) (mk_ndarray [n0; n1] vz)
                     (mk_ndarray [n0; n1] vpsi) min_lat max_lat min_depth mult false
         = Some (Returned (vpsi [j; i])).
Proof.
  intros F ops n0 n1 vy vz vpsi min_lat max_lat min_depth mult plot H.
  assert (Hne : window_values (mk_ndarray [n0; n1] vy) (mk_ndarray [n0; n1] vz)
                  (mk_ndarray [n0; n1] vpsi) min_lat max_lat min_depth <> []).
  { intros E. apply H. unfold findExtrema, psiMax. rewrite E. reflexivity. }
  destruct (findExtrema_stages n0 n1 vy vz vpsi min_lat max_lat min_depth mult Hne)
    as [m [k [Hm [Hk Hloc]]]].
  destruct (position_bounds n0 n1 k Hk) as [Hj [Hi _]].
  exists (k / n1), (k mod n1). split; [exact Hj|]. split; [exact Hi|].
  unfold findExtrema. rewrite Hm, Hloc. split; reflexivity.
Qed.

(** The theorem at the 2x2 streamfunction, for the least value below
    1000 m. *)
Lemma findExtrema_marks_a_cell_of_the_array_witness :
  exists j i,
    j < 2 /\ i < 2
    /\ findExtrema lat_2_2 depth_2_2 psi_2_2
         (Fin (-90)) (Fin 90) (Fin 1000) (Fin (-1)) true
       = Some (Plotted (item lat_2_2 [j; i]) (item depth_2_2 [j; i])
                       (item psi_2_2 [j; i]))
    /\ findExtrema lat_2_2 depth_2_2 psi_2_2
         (Fin (-90)) (Fin 90) (Fin 1000) (Fin (-1)) false
       = Some (Returned (item psi_2_2 [j; i])).
Proof.
  apply (findExtrema_marks_a_cell_of_the_array xfloat exact 2 2
           (item lat_2_2) (item depth_2_2) (item psi_2_2)
           (Fin (-90)) (Fin 90) (Fin 1000) (Fin (-1)) false).
  vm_compute. discriminate.
Defined.

(** ** [findExtrema] on values that are not numbers *)

Lemma fold_maximum_from_nan (r : list xfloat) : fold_left np_maximum r NaN = NaN.
Proof. induction r as [|x r IH]; [reflexivity|exact IH]. Qed.

(** A NaN anywhere in a run is its maximum. *)
Lemma fold_maximum_nan (r : list xfloat) (x : xfloat) :
  In NaN (x :: r) -> fold_left np_maximum r x = NaN.
Proof.
  revert x. induction r as [|a r IH]; intros x H.
  - destruct H as [<-|[]]. reflexivity.
  - destruct H as [->|H]; [apply fold_maximum_from_nan|].
    cbn [fold_left]. apply IH. destruct H as [->|H]; [left|now right].
    destruct x; reflexivity.
Qed.

Lemma x_mul_nan (m : xfloat) : x_mul m NaN = NaN.
Proof. destruct m; reflexivity. Qed.

Lemma distance_nan (x : xfloat) : distance x NaN = NaN.
Proof. destruct x; reflexivity. Qed.

(** The search for the cell nearest to NaN stops at the first cell. *)
Lemma locate_nan (n0 n1 : nat) (vpsi : list nat -> xfloat) :
  ravel (mk_ndarray [n0; n1] vpsi) <> [] ->
  locate (mk_ndarray [n0; n1] vpsi) NaN = Some (0, 0).
Proof.
  intros H. unfold locate.
  destruct (ravel (mk_ndarray [n0; n1] vpsi)) as [|x r]; [congruence|].
  cbn [map np_argmin]. rewrite distance_nan.
  replace (argmin_from (map (fun x0 => distance x0 NaN) r) 1 NaN 0) with 0
    by (destruct (map (fun x0 => distance x0 NaN) r); reflexivity).
  cbn [shape unravel_index].
  now rewrite Nat.Div0.div_0_l, Nat.Div0.mod_0_l.
Qed.

(** X6. One NaN of the streamfunction inside the window hides the extremum:
    stage one yields NaN, every distance of stage two is NaN, and the cell
    found is the first cell of the array, whatever it holds.  (The callers
    put zero in the place of the invalid values before the search.) *)
Theorem findExtrema_nan_in_window_finds_first_cell :
  forall (n0 n1 : nat) (vy vz vpsi : list nat -> xfloat)
         (min_lat max_lat min_depth mult : xfloat),
    In NaN (window_values (mk_ndarray [n0; n1] vy) (mk_ndarray [n0; n1] vz)
                          (mk_ndarray [n0; n1] vpsi) min_lat max_lat min_depth) ->
    findExtrema (mk_ndarray [n0; n1] vy) (mk_ndarray [n0; n1] vz)
                (mk_ndarray [n0; n1] vpsi) min_lat max_lat min_depth mult false
    = Some (Returned (vpsi [0; 0]))
    /\ findExtrema (mk_ndarray [n0; n1] vy) (mk_ndarray [n0; n1] vz)
                   (mk_ndarray [n0; n1] vpsi) min_lat max_lat min_depth mult true
       = Some (Plotted (vy [0; 0]) (vz [0; 0]) (vpsi [0; 0])).
Proof.
  intros n0 n1 vy vz vpsi min_lat max_lat min_depth mult Hnan.
  assert (Hne : window_values (mk_ndarray [n0; n1] vy) (mk_ndarray [n0; n1] vz)
                  (mk_ndarray [n0; n1] vpsi) min_lat max_lat min_depth <> [])
    by (intros E; rewrite E in Hnan; exact Hnan).
  assert (Hmax : psiMax (mk_ndarray [n0; n1] vy) (mk_ndarray [n0; n1] vz)
                   (mk_ndarray [n0; n1] vpsi) min_lat max_lat min_depth mult
                 = Some NaN).
  { unfold psiMax.
    destruct (window_values _ _ _ min_lat max_lat min_depth) as [|x r];
      [congruence|].
    cbn [map np_amax option_map]. rewrite fold_maximum_nan.
    - cbn [fmul exact]. now rewrite x_mul_nan.
    - change (In NaN (map (fmul mult) (x :: r))).
      apply in_map_iff. exists NaN. split; [apply x_mul_nan|exact Hnan]. }
  pose proof (locate_nan n0 n1 vpsi
                (window_cells n0 n1 vy vz vpsi min_lat max_lat min_depth Hne))
    as Hloc.
  unfold findExtrema. rewrite Hmax, Hloc. split; reflexivity.
Qed.

(** The theorem at one row of two cells whose second value is missing: the
    value returned as the greatest is the first one, 3. *)
Lemma findExtrema_nan_in_window_finds_first_cell_witness :
  findExtrema lat_two_cells depth_two_cells (np_array2 NaN [[Fin 3; NaN]])
              (Fin (-90)) (Fin 90) (Fin 0) (Fin 1) false
  = Some (Returned (Fin 3))
  /\ findExtrema lat_two_cells depth_two_cells (np_array2 NaN [[Fin 3; NaN]])
                 (Fin (-90)) (Fin 90) (Fin 0) (Fin 1) true
     = Some (Plotted (Fin 0) (Fin (-10)) (Fin 3)).
Proof.
  apply (findExtrema_nan_in_window_finds_first_cell 1 2
           (item lat_two_cells) (item depth_two_cells)
           (item (np_array2 NaN [[Fin 3; NaN]]))
           (Fin (-90)) (Fin 90) (Fin 0) (Fin 1)).
  vm_compute. right. left. reflexivity.
Defined.

(** ** [findExtrema] on any window *)

(** X7. The value returned for a window that holds a cell, with [mult = 1]
    and with [mult = -1], on a streamfunction that holds no NaN and read
    without rounding: the value of a cell of the array that equals the value
    of a cell of the window and that no value of the window exceeds, or
    that exceeds none of them.  The window is the set of cells with
    [min_lat <= y <= max_lat] and [z < -min_depth]; the cell that holds the
    value may lie elsewhere.  On the 2x2 streamfunction the cells north of
    25N give 7 and 2, the cells south of it 1 and -3. *)
Theorem findExtrema_returns_window_extremum :
  (forall (n0 n1 : nat) (vy vz vpsi : list nat -> xfloat)
          (min_lat max_lat min_depth : xfloat),
      (forall j i, j < n0 -> i < n1 -> x_isnan (vpsi [j; i]) = false) ->
      (exists j i, j < n0 /\ i < n1
                   /\ x_leb min_lat (vy [j; i]) && x_leb (vy [j; i]) max_lat
                      && x_ltb (vz [j; i]) (x_opp min_depth) = true) ->
      (exists j i,
          j < n0 /\ i < n1
          /\ findExtrema (mk_ndarray [n0; n1] vy) (mk_ndarray [n0; n1] vz)
                         (mk_ndarray [n0; n1] vpsi) min_lat max_lat min_depth
                         (Fin 1) false
             = Some (Returned (vpsi [j; i]))
          /\ (exists j0 i0,
                 j0 < n0 /\ i0 < n1
                 /\ x_leb min_lat (vy [j0; i0]) && x_leb (vy [j0; i0]) max_lat
                    && x_ltb (vz [j0; i0]) (x_opp min_depth) = true
                 /\ x_eqb (vpsi [j; i]) (vpsi [j0; i0]) = true)
          /\ forall j' i', j' < n0 -> i' < n1 ->
               x_leb min_lat (vy [j'; i']) && x_leb (vy [j'; i']) max_lat
               && x_ltb (vz [j'; i']) (x_opp min_depth) = true ->
               x_leb (vpsi [j'; i']) (vpsi [j; i]) = true)
      /\ (exists j i,
             j < n0 /\ i < n1
             /\ findExtrema (mk_ndarray [n0; n1] vy) (mk_ndarray [n0; n1] vz)
                            (mk_ndarray [n0; n1] vpsi) min_lat max_lat min_depth
                            (Fin (-1)) false
                = Some (Returned (vpsi [j; i]))
             /\ (exists j0 i0,
                    j0 < n0 /\ i0 < n1
                    /\ x_leb min_lat (vy [j0; i0]) && x_leb (vy [j0; i0]) max_lat
                       && x_ltb (vz [j0; i0]) (x_opp min_depth) = true
                    /\ x_eqb (vpsi [j; i]) (vpsi [j0; i0]) = true)
             /\ forall j' i', j' < n0 -> i' < n1 ->
                  x_leb min_lat (vy [j'; i']) && x_leb (vy [j'; i']) max_lat
                  && x_ltb (vz [j'; i']) (x_opp min_depth) = true ->
                  x_leb (vpsi [j; i]) (vpsi [j'; i']) = true))
  /\ findExtrema lat_2_2 depth_2_2 psi_2_2 (Fin 25) (Fin 90) (Fin 0) (Fin 1) false
     = Some (Returned (Fin 7))
  /\ findExtrema lat_2_2 depth_2_2 psi_2_2 (Fin 25) (Fin 90) (Fin 0) (Fin (-1)) false
     = Some (Returned (Fin 2))
  /\ findExtrema lat_2_2 depth_2_2 psi_2_2 (Fin (-90)) (Fin 25) (Fin 0) (Fin 1) false
     = Some (Returned (Fin 1))
  /\ findExtrema lat_2_2 depth_2_2 psi_2_2 (Fin (-90)) (Fin 25) (Fin 0) (Fin (-1)) false
     = Some (Returned (Fin (-3))).
Proof.
  split; [|repeat split; reflexivity].
  intros n0 n1 vy vz vpsi min_lat max_lat min_depth Hvalid Hw.
  exact (findExtrema_window n0 n1 vy vz vpsi Hvalid min_lat max_lat min_depth Hw).
Qed.

(** The theorem at the 2x2 streamfunction and the window of the cells north
    of 25N. *)
Lemma findExtrema_returns_window_extremum_witness :
  (exists j i,
      j < 2 /\ i < 2
      /\ findExtrema lat_2_2 depth_2_2 psi_2_2 (Fin 25) (Fin 90) (Fin 0) (Fin 1) false
         = Some (Returned (item psi_2_2 [j; i]))
      /\ (exists j0 i0,
             j0 < 2 /\ i0 < 2
             /\ x_leb (Fin 25) (item lat_2_2 [j0; i0])
                && x_leb (item lat_2_2 [j0; i0]) (Fin 90)
                && x_ltb (item depth_2_2 [j0; i0]) (x_opp (Fin 0)) = true
             /\ x_eqb (item psi_2_2 [j; i]) (item psi_2_2 [j0; i0]) = true)
      /\ forall j' i', j' < 2 -> i' < 2 ->
           x_leb (Fin 25) (item lat_2_2 [j'; i'])
           && x_leb (item lat_2_2 [j'; i']) (Fin 90)
           && x_ltb (item depth_2_2 [j'; i']) (x_opp (Fin 0)) = true ->
           x_leb (item psi_2_2 [j'; i']) (item psi_2_2 [j; i]) = true)
  /\ (exists j i,
         j < 2 /\ i < 2
         /\ findExtrema lat_2_2 depth_2_2 psi_2_2
                        (Fin 25) (Fin 90) (Fin 0) (Fin (-1)) false
            = Some (Returned (item psi_2_2 [j; i]))
         /\ (exists j0 i0,
                j0 < 2 /\ i0 < 2
                /\ x_leb (Fin 25) (item lat_2_2 [j0; i0])
                   && x_leb (item lat_2_2 [j0; i0]) (Fin 90)
                   && x_ltb (item depth_2_2 [j0; i0]) (x_opp (Fin 0)) = true
                /\ x_eqb (item psi_2_2 [j; i]) (item psi_2_2 [j0; i0]) = true)
         /\ forall j' i', j' < 2 -> i' < 2 ->
              x_leb (Fin 25) (item lat_2_2 [j'; i'])
              && x_leb (item lat_2_2 [j'; i']) (Fin 90)
              && x_ltb (item depth_2_2 [j'; i']) (x_opp (Fin 0)) = true ->
              x_leb (item psi_2_2 [j; i]) (item psi_2_2 [j'; i']) = true).
Proof.
  apply (proj1 findExtrema_returns_window_extremum 2 2
           (item lat_2_2) (item depth_2_2) (item psi_2_2)
           (Fin 25) (Fin 90) (Fin 0)).
  - intros j i Hj Hi.
    destruct j as [|[|j]]; [| |lia]; (destruct i as [|[|i]]; [| |lia]); reflexivity.
  - exists 0, 1. split; [lia|]. split; [lia|]. reflexivity.
Defined.

(** ** The reducers of stats.py: what is checked and what is not *)

Lemma bind_ok {A B : Type} (r : result A) (k : A -> result B) (b : B) :
  bind r k = Ok b -> exists a, r = Ok a /\ k a = Ok b.
Proof.
  destruct r as [a|e]; cbn [bind]; intros H; [now exists a|discriminate].
Qed.

Ltac bind_inv H :=
  let a := fresh "a" in
  let E := fresh "E" in
  apply bind_ok in H; destruct H as [a [E H]].

Section ReducerFacts.
Context {F : Type} {ops : FloatOps F}.
Variable np_sum : list F -> F.
Variable np_sqrt : F -> F.

(** A reduction over two dimensions the array has does not fail. *)
Lemma xr_reduce_pair (f : list F -> F) (keep : bool) (a : DataArray F)
  (d0 d1 : string) :
check_dims a [d0; d1] = Ok tt ->
exists out, xr_reduce f keep a [d0; d1] = Ok out.
Proof.
rewrite check_dims_pair. intros H. unfold xr_reduce. cbn [find].
destruct (has (da_dims a) d0); [|discriminate].
destruct (has (da_dims a) d1); [|discriminate].
cbn [negb]. eexists. reflexivity.
Qed.

(** The sum of xarray, which skips NaN: zero stands in for NaN. *)
Lemma nansum_skipna {A : Type} (f : A -> F) (l : list A) :
nansum np_sum (map f l)
= np_sum (map (fun r => if fisnan (f r) then fzero else f r) l).
Proof. unfold nansum, nan_to_zero. now rewrite map_map. Qed.

End ReducerFacts.

(** X9. [check_dims] looks at [dims[0]] and [dims[1]] and at nothing else.  A
    further name that the array lacks passes the check and fails in the
    reduction itself, with the error of xarray; and once the names that are
    there pass, a [dims] of fewer than two names fails with an IndexError,
    raised by the subscript. *)
Theorem check_dims_reads_two_names :
  forall (F : Type) (ops : FloatOps F) (da : DataArray F)
         (d0 d1 d2 : string) (rest : list string),
    check_dims da (d0 :: d1 :: rest) = check_dims da [d0; d1]
    /\ check_dims da [] = Raise IndexError
    /\ (In d0 (da_dims da) -> check_dims da [d0] = Raise IndexError)
    /\ (In d0 (da_dims da) -> In d1 (da_dims da) -> ~ In d2 (da_dims da) ->
        check_dims da [d0; d1; d2] = Ok tt
        /\ min_da da [d0; d1; d2] = Raise (DimensionError d2)
        /\ max_da da [d0; d1; d2] = Raise (DimensionError d2)).
Proof.
  intros F ops da d0 d1 d2 rest.
  split; [reflexivity|]. split; [reflexivity|]. split.
  - intros H0. apply has_In in H0. unfold check_dims. now rewrite H0.
  - intros H0 H1 H2. apply has_In in H0, H1. apply has_false in H2.
    assert (Hc : check_dims da [d0; d1; d2] = Ok tt)
      by (unfold check_dims; now rewrite H0, H1).
    split; [exact Hc|].
    unfold min_da, max_da. rewrite Hc. cbn [bind]. unfold xr_reduce.
    cbn [find]. rewrite H0, H1, H2. cbn [negb]. split; reflexivity.
Qed.

(** ** [myStats_da] without regions *)

(** X14. Without basins, [myStats_da] returns one entry, under the key
    [Global], that holds what the five reducers return on their own for
    the same field, dimensions and weights: the total weight and the mean
    that it hands over to them are the ones they would compute. *)
Theorem myStats_da_global_is_the_five_reducers :
  forall (F : Type) (ops : FloatOps F) (np_sum : list F -> F) (np_sqrt : F -> F)
         (da w : DataArray F) (dims : list string)
         (od : list (string * Stats F)),
    myStats_da np_sum np_sqrt da (Some w) dims None = Ok od ->
    exists s,
      od = [("Global"%string, s)]
      /\ min_da da dims = Ok (da_min s)
      /\ max_da da dims = Ok (da_max s)
      /\ mean_da np_sum da dims (Some w) None = Ok (da_mean s)
      /\ std_da np_sum np_sqrt da dims (Some w) None None = Ok (da_std s)
      /\ rms_da np_sum np_sqrt da dims (Some w) None = Ok (da_rms s).
Proof.
  intros F ops np_sum np_sqrt da w dims od H.
  unfold myStats_da in H.
  bind_inv H. destruct a. bind_inv H. rename a into total.
  bind_inv H. rename a into s. injection H as <-.
  exists s. split; [reflexivity|].
  unfold five_stats in E1.
  bind_inv E1. rename a into mn. bind_inv E1. rename a into mx.
  bind_inv E1. rename a into mean. bind_inv E1. rename a into std.
  bind_inv E1. rename a into rms. injection E1 as <-.
  cbn [da_min da_max da_mean da_std da_rms].
  split; [assumption|]. split; [assumption|].
  split; [|split].
  - rewrite <- (mean_da_given_total np_sum da w total dims E0). assumption.
  - rewrite <- E5. unfold std_da, total_weight. rewrite E, E0. cbn [bind].
    rewrite E4. reflexivity.
  - rewrite <- E6. unfold rms_da, total_weight. rewrite E, E0. reflexivity.
Qed.

(** The theorem at the worked surface field and the areas of its cells. *)
Lemma myStats_da_global_is_the_five_reducers_witness :
  exists s,
    myStats_da sum_seq PrimFloat.sqrt field_2_1_2 (Some area_1_2)
      ["yh"; "xh"]%string None
    = Ok [("Global"%string, s)]
    /\ mean_da sum_seq field_2_1_2 ["yh"; "xh"]%string (Some area_1_2) None
       = Ok (da_mean s)
    /\ std_da sum_seq PrimFloat.sqrt field_2_1_2 ["yh"; "xh"]%string
         (Some area_1_2) None None
       = Ok (da_std s).
Proof.
  destruct (myStats_da sum_seq PrimFloat.sqrt field_2_1_2 (Some area_1_2)
              ["yh"; "xh"]%string None) as [od|e] eqn:E;
    [|vm_compute in E; discriminate].
  destruct (myStats_da_global_is_the_five_reducers float binary64 sum_seq
              PrimFloat.sqrt field_2_1_2 area_1_2 ["yh"; "xh"]%string od E)
    as [s [-> [_ [_ [Hmean [Hstd _]]]]]].
  exists s. split; [reflexivity|]. split; [exact Hmean|exact Hstd].
Defined.

(** ** [myStats_da]: what it raises *)

(** X16. [myStats_da] cannot do without weights: the branch for
    [weights is None] only prints a note, and the total weight is then
    asked of [None], which raises an AttributeError as soon as the
    dimensions are checked. *)
Theorem myStats_da_without_weights_raises :
  forall (F : Type) (ops : FloatOps F) (np_sum : list F -> F) (np_sqrt : F -> F)
         (da : DataArray F) (dims : list string),
    check_dims da dims = Ok tt ->
    myStats_da np_sum np_sqrt da None dims None = Raise AttributeError.
Proof.
  intros F ops np_sum np_sqrt da dims H. unfold myStats_da.
  rewrite H. reflexivity.
Qed.

(** The theorem at the worked surface field. *)
Lemma myStats_da_without_weights_raises_witness :
  myStats_da sum_seq PrimFloat.sqrt field_2_1_2 None ["yh"; "xh"]%string None
  = Raise AttributeError.
Proof.
  apply (myStats_da_without_weights_raises float binary64 sum_seq PrimFloat.sqrt
           field_2_1_2 ["yh"; "xh"]%string).
  reflexivity.
Defined.

(** X17. With basins, [myStats_da] asks for the coordinate [region] only: basins
    without it are refused with a ValueError before any reduction,
    whatever the weights are, and basins whose coordinate [region] has no
    label leave nothing to pack, which raises an IndexError. *)
Theorem myStats_da_basins_without_regions :
  forall (F : Type) (ops : FloatOps F) (np_sum : list F -> F) (np_sqrt : F -> F)
         (da : DataArray F) (weights : option (DataArray F))
         (dims : list string) (b : DataArray F),
    check_dims da dims = Ok tt ->
    (has (da_coords b) "region" = false ->
     myStats_da np_sum np_sqrt da weights dims (Some b)
     = Raise (ValueError
                "Regions does not have coordinate region. Please use genBasinMasks                         to construct the basins mask."))
    /\ (has (da_coords b) "region" = true -> da_region b = [] ->
        myStats_da np_sum np_sqrt da weights dims (Some b) = Raise IndexError).
Proof.
  intros F ops np_sum np_sqrt da weights dims b H. split.
  - intros Hreg. unfold myStats_da. rewrite H. cbn [bind]. rewrite Hreg.
    reflexivity.
  - intros Hreg Hnone. unfold myStats_da. rewrite H. cbn [bind].
    rewrite Hreg, Hnone. reflexivity.
Qed.

(** The theorem at the worked surface field, with the areas in the place of
    the basins (they have no coordinate [region]) and with basins of no
    region. *)
Lemma myStats_da_basins_without_regions_witness :
  myStats_da sum_seq PrimFloat.sqrt field_2_1_2 (Some area_1_2)
    ["yh"; "xh"]%string (Some area_1_2)
  = Raise (ValueError (msg_no_region 25))
  /\ myStats_da sum_seq PrimFloat.sqrt field_2_1_2 (Some area_1_2)
       ["yh"; "xh"]%string
       (Some (mk_DataArray ["region"; "yh"; "xh"]%string
                (np_full [0; 1; 2] 0%float) ["region"; "yh"; "xh"]%string [] []))
     = Raise IndexError.
Proof.
  split.
  - apply (proj1 (myStats_da_basins_without_regions float binary64 sum_seq
                    PrimFloat.sqrt field_2_1_2 (Some area_1_2)
                    ["yh"; "xh"]%string area_1_2 eq_refl)).
    reflexivity.
  - apply (proj2 (myStats_da_basins_without_regions float binary64 sum_seq
                    PrimFloat.sqrt field_2_1_2 (Some area_1_2)
                    ["yh"; "xh"]%string
                    (mk_DataArray ["region"; "yh"; "xh"]%string
                       (np_full [0; 1; 2] 0%float)
                       ["region"; "yh"; "xh"]%string [] [])
                    eq_refl)); reflexivity.
Defined.

(** ** The two wrappers without regions *)

(** X18. Basins without weights are refused by both wrappers, once the field
    has passed the check of its dimensions. *)
Theorem HorizontalMean_basins_need_weights :
  forall (F : Type) (ops : FloatOps F) (np_sum : list F -> F) (np_sqrt : F -> F)
         (var b : DataArray F) (dims : list string),
    check_dims var dims = Ok tt ->
    HorizontalMeanRmse_da np_sum np_sqrt var dims None (Some b)
    = Raise (ValueError "Basin masks can only be applied if weights are provided.")
    /\ HorizontalMeanDiff_da np_sum var dims None (Some b)
       = Raise (ValueError "Basin masks can only be applied if weights are provided.").
Proof.
  intros F ops np_sum np_sqrt var b dims H.
  unfold HorizontalMeanRmse_da, HorizontalMeanDiff_da. rewrite H.
  split; reflexivity.
Qed.

(** The theorem at the worked field over depth and the three basins. *)
Lemma HorizontalMean_basins_need_weights_witness :
  HorizontalMeanRmse_da sum_seq PrimFloat.sqrt field_1_1_1_2 ["yh"; "xh"]%string
    None (Some basins_3_1_2)
  = Raise (ValueError msg_basins_need_weights)
  /\ HorizontalMeanDiff_da sum_seq field_1_1_1_2 ["yh"; "xh"]%string
       None (Some basins_3_1_2)
     = Raise (ValueError msg_basins_need_weights).
Proof.
  apply (HorizontalMean_basins_need_weights float binary64 sum_seq PrimFloat.sqrt
           field_1_1_1_2 basins_3_1_2 ["yh"; "xh"]%string).
  reflexivity.
Defined.

(** X19. The wrappers check the names in [dims], and sum the weights over
    them, but call [rms_da] and [mean_da] without them: the reduction runs
    over [yh] and [xh] whatever [dims] says.  A field whose horizontal
    dimensions have other names passes the check of the wrapper and is then
    refused by the reducer, with the message about [dims[0]]; only the mean
    without weights, which is taken by xarray directly, follows [dims]. *)
Theorem HorizontalMean_reduces_over_yh_xh :
  forall (F : Type) (ops : FloatOps F) (np_sum : list F -> F) (np_sqrt : F -> F)
         (var w : DataArray F) (d0 d1 : string),
    check_dims var [d0; d1] = Ok tt ->
    has (da_dims var) "yh" = false ->
    HorizontalMeanRmse_da np_sum np_sqrt var [d0; d1] None None
    = Raise (ValueError "DataArray does not have dimensions given by dims[0]")
    /\ (check_dims w [d0; d1] = Ok tt ->
        HorizontalMeanRmse_da np_sum np_sqrt var [d0; d1] (Some w) None
        = Raise (ValueError "DataArray does not have dimensions given by dims[0]")
        /\ HorizontalMeanDiff_da np_sum var [d0; d1] (Some w) None
           = Raise (ValueError "DataArray does not have dimensions given by dims[0]"))
    /\ exists out,
         HorizontalMeanDiff_da np_sum var [d0; d1] None None = Ok (Global out).
Proof.
  intros F ops np_sum np_sqrt var w d0 d1 H Hyh.
  assert (Hc : check_dims var ["yh"; "xh"]%string = Raise (ValueError msg_dims0))
    by (rewrite check_dims_pair; now rewrite Hyh).
  split; [|split].
  - unfold HorizontalMeanRmse_da. rewrite H. cbn [bind].
    unfold rms_da. rewrite Hc. reflexivity.
  - intros Hw.
    destruct (xr_reduce_pair (nansum np_sum) false w d0 d1 Hw) as [total Ht].
    unfold HorizontalMeanRmse_da, HorizontalMeanDiff_da.
    rewrite H, Hw. cbn [bind]. rewrite Ht. cbn [bind].
    unfold rms_da, mean_da. rewrite Hc. split; reflexivity.
  - destruct (xr_reduce_pair (nanmean np_sum) false var d0 d1 H) as [out Ho].
    exists out. unfold HorizontalMeanDiff_da. rewrite H. cbn [bind].
    now rewrite Ho.
Qed.

(** The theorem at a field over (time, lat, lon), reduced over lat and
    lon. *)
Lemma HorizontalMean_reduces_over_yh_xh_witness :
  HorizontalMeanRmse_da sum_seq PrimFloat.sqrt
    (mk_DataArray ["time"; "lat"; "lon"]%string
       (np_reshape PrimFloat.nan [1; 5; 2; 7]%float [2; 1; 2]) [] [] [])
    ["lat"; "lon"]%string None None
  = Raise (ValueError msg_dims0)
  /\ exists out,
       HorizontalMeanDiff_da sum_seq
         (mk_DataArray ["time"; "lat"; "lon"]%string
            (np_reshape PrimFloat.nan [1; 5; 2; 7]%float [2; 1; 2]) [] [] [])
         ["lat"; "lon"]%string None None
       = Ok (Global out).
Proof.
  destruct (HorizontalMean_reduces_over_yh_xh float binary64 sum_seq PrimFloat.sqrt
              (mk_DataArray ["time"; "lat"; "lon"]%string
                 (np_reshape PrimFloat.nan [1; 5; 2; 7]%float [2; 1; 2]) [] [] [])
              area_1_2 "lat"%string "lon"%string eq_refl eq_refl)
    as [H1 [_ H3]].
  split; [exact H1|exact H3].
Defined.

(** X20. With weights that have the two horizontal dimensions and no basins,
    each wrapper is its reducer: the root mean square of [rms_da] and the
    mean of [mean_da] with the same weights, and the same error when the
    reducer fails.  Without weights [HorizontalMeanRmse_da] is [rms_da]
    again. *)
Theorem HorizontalMean_global_is_the_reducer :
  forall (F : Type) (ops : FloatOps F) (np_sum : list F -> F) (np_sqrt : F -> F)
         (var w : DataArray F),
    check_dims w ["yh"; "xh"]%string = Ok tt ->
    HorizontalMeanRmse_da np_sum np_sqrt var ["yh"; "xh"]%string (Some w) None
    = (out <- rms_da np_sum np_sqrt var ["yh"; "xh"]%string (Some w) None ;;
       Ok (Global out))
    /\ HorizontalMeanDiff_da np_sum var ["yh"; "xh"]%string (Some w) None
       = (out <- mean_da np_sum var ["yh"; "xh"]%string (Some w) None ;;
          Ok (Global out))
    /\ HorizontalMeanRmse_da np_sum np_sqrt var ["yh"; "xh"]%string None None
       = (out <- rms_da np_sum np_sqrt var ["yh"; "xh"]%string None None ;;
          Ok (Global out)).
Proof.
  intros F ops np_sum np_sqrt var w Hw.
  destruct (xr_reduce_pair (nansum np_sum) false w "yh" "xh" Hw) as [total Ht].
  unfold HorizontalMeanRmse_da, HorizontalMeanDiff_da, rms_da, mean_da, total_weight.
  rewrite Hw, Ht.
  destruct (check_dims var ["yh"; "xh"]%string) as [[]|e]; cbn [bind];
    repeat split; reflexivity.
Qed.

(** The theorem at the worked surface field and the areas of its cells. *)
Lemma HorizontalMean_global_is_the_reducer_witness :
  HorizontalMeanRmse_da sum_seq PrimFloat.sqrt field_2_1_2 ["yh"; "xh"]%string
    (Some area_1_2) None
  = (out <- rms_da sum_seq PrimFloat.sqrt field_2_1_2 ["yh"; "xh"]%string
              (Some area_1_2) None ;;
     Ok (Global out))
  /\ HorizontalMeanDiff_da sum_seq field_2_1_2 ["yh"; "xh"]%string
       (Some area_1_2) None
     = (out <- mean_da sum_seq field_2_1_2 ["yh"; "xh"]%string
                 (Some area_1_2) None ;;
        Ok (Global out)).
Proof.
  destruct (HorizontalMean_global_is_the_reducer float binary64 sum_seq
              PrimFloat.sqrt field_2_1_2 area_1_2 eq_refl) as [H1 [H2 _]].
  split; [exact H1|exact H2].
Defined.

(** ** The reducers on a surface field *)

Section SurfaceReducers.
Context {F : Type} {ops : FloatOps F}.
Variable np_sum : list F -> F.
Variable np_sqrt : F -> F.
Variables nt ny nx : nat.
Variables vda vw : list nat -> F.
Variables cda cw rda rw : list string.
Variables ada aw : list (string * string).

(** The least and the greatest value of a field over (time, yh, xh), time
  by time. *)
Lemma min_max_da_surface :
exists mn mx,
  min_da (mk_DataArray ["time"; "yh"; "xh"]%string (mk_ndarray [nt; ny; nx] vda)
                       cda rda ada)
         ["yh"; "xh"]%string
  = Ok mn
  /\ max_da (mk_DataArray ["time"; "yh"; "xh"]%string (mk_ndarray [nt; ny; nx] vda)
                          cda rda ada)
            ["yh"; "xh"]%string
     = Ok mx
  /\ da_dims mn = ["time"%string] /\ da_dims mx = ["time"%string]
  /\ shape (da_values mn) = [nt] /\ shape (da_values mx) = [nt]
  /\ da_attrs mn = ada /\ da_attrs mx = ada
  /\ forall t,
       item (da_values mn) [t]
       = nanmin (map (fun c => vda (t :: c)) (indices [ny; nx]))
       /\ item (da_values mx) [t]
          = nanmax (map (fun c => vda (t :: c)) (indices [ny; nx])).
Proof.
eexists. eexists.
split; [unfold min_da; cbn; reflexivity|].
split; [unfold max_da; cbn; reflexivity|].
repeat (split; [reflexivity|]).
intros t. cbn.
change (flat_map (fun i => map (cons i) (flat_map (fun i0 => [[i0]]) (seq 0 nx)))
                 (seq 0 ny))
  with (indices [ny; nx]).
split; f_equal; apply map_ext_in; intros r Hr;
  destruct (in_indices2 ny nx r Hr) as [j [i ->]]; reflexivity.
Qed.





End SurfaceReducers.




(** ** The least and the greatest value of a field *)

(** The running minimum of values that are not NaN is one of them and is
    below each of them. *)
Lemma fold_minimum_valid (r : list xfloat) (x : xfloat) :
  forallb (fun v => negb (x_isnan v)) (x :: r) = true ->
  In (fold_left np_minimum r x) (x :: r)
  /\ forall v, In v (x :: r) -> x_leb (fold_left np_minimum r x) v = true.
Proof.
  revert x. induction r as [|a r IH]; intros x H.
  - cbn [forallb] in H. apply andb_prop in H. destruct H as [Hx _].
    apply negb_true_iff in Hx. cbn [fold_left]. split; [now left|].
    intros v [<-|[]]. now apply x_leb_refl.
  - cbn [forallb] in H. apply andb_prop in H. destruct H as [Hx H].
    pose proof H as Har. cbn [forallb] in Har. apply andb_prop in Har.
    destruct Har as [Ha Hr]. apply negb_true_iff in Hx, Ha.
    cbn [fold_left].
    assert (Hstep : (np_minimum x a = x \/ np_minimum x a = a)
                    /\ x_leb (np_minimum x a) x = true
                    /\ x_leb (np_minimum x a) a = true).
    { unfold np_minimum. cbn [fisnan fleb exact]. rewrite Hx. cbn [orb].
      destruct (x_leb x a) eqn:E.
      - split; [now left|]. split; [now apply x_leb_refl|exact E].
      - destruct (x_leb_total x a Hx Ha) as [E'|E']; [congruence|].
        split; [now right|]. split; [exact E'|now apply x_leb_refl]. }
    destruct Hstep as [Hin [Hlx Hla]].
    assert (Hnan : x_isnan (np_minimum x a) = false)
      by (destruct Hin as [->| ->]; assumption).
    destruct (IH (np_minimum x a)) as [IH1 IH2].
    { cbn [forallb]. rewrite Hnan. exact Hr. }
    split.
    + destruct IH1 as [E|E].
      * rewrite <- E. destruct Hin as [->| ->]; [now left|right; now left].
      * right. now right.
    + intros v [<-|[<-|Hv]].
      * apply (x_leb_trans _ (np_minimum x a)); [apply IH2; now left|exact Hlx].
      * apply (x_leb_trans _ (np_minimum x a)); [apply IH2; now left|exact Hla].
      * apply IH2. now right.
Qed.

(** The running maximum of values that are not NaN is one of them and is
    above each of them. *)
Lemma fold_maximum_valid (r : list xfloat) (x : xfloat) :
  forallb (fun v => negb (x_isnan v)) (x :: r) = true ->
  In (fold_left np_maximum r x) (x :: r)
  /\ forall v, In v (x :: r) -> x_leb v (fold_left np_maximum r x) = true.
Proof.
  revert x. induction r as [|a r IH]; intros x H.
  - cbn [forallb] in H. apply andb_prop in H. destruct H as [Hx _].
    apply negb_true_iff in Hx. cbn [fold_left]. split; [now left|].
    intros v [<-|[]]. now apply x_leb_refl.
  - cbn [forallb] in H. apply andb_prop in H. destruct H as [Hx H].
    pose proof H as Har. cbn [forallb] in Har. apply andb_prop in Har.
    destruct Har as [Ha Hr]. apply negb_true_iff in Hx, Ha.
    cbn [fold_left].
    assert (Hstep : (np_maximum x a = x \/ np_maximum x a = a)
                    /\ x_leb x (np_maximum x a) = true
                    /\ x_leb a (np_maximum x a) = true).
    { unfold np_maximum. cbn [fisnan fleb exact]. rewrite Hx. cbn [orb].
      destruct (x_leb a x) eqn:E.
      - split; [now left|]. split; [now apply x_leb_refl|exact E].
      - destruct (x_leb_total a x Ha Hx) as [E'|E']; [congruence|].
        split; [now right|]. split; [exact E'|now apply x_leb_refl]. }
    destruct Hstep as [Hin [Hlx Hla]].
    assert (Hnan : x_isnan (np_maximum x a) = false)
      by (destruct Hin as [->| ->]; assumption).
    destruct (IH (np_maximum x a)) as [IH1 IH2].
    { cbn [forallb]. rewrite Hnan. exact Hr. }
    split.
    + destruct IH1 as [E|E].
      * rewrite <- E. destruct Hin as [->| ->]; [now left|right; now left].
      * right. now right.
    + intros v [<-|[<-|Hv]].
      * apply (x_leb_trans _ (np_maximum x a)); [exact Hlx|apply IH2; now left].
      * apply (x_leb_trans _ (np_maximum x a)); [exact Hla|apply IH2; now left].
      * apply IH2. now right.
Qed.

Lemma valid_not_nan (l : list xfloat) :
  forallb (fun v => negb (x_isnan v)) (valid l) = true.
Proof.
  apply forallb_forall. intros v Hv. unfold valid in Hv.
  apply filter_In in Hv. exact (proj2 Hv).
Qed.

(** The least and the greatest of the values of a run that are not NaN:
    NaN both when there is none, and otherwise two of these values that
    bound them all. *)
Lemma nanmin_nanmax_bounds (l : list xfloat) :
  (valid l = [] /\ nanmin l = NaN /\ nanmax l = NaN)
  \/ (In (nanmin l) (valid l) /\ In (nanmax l) (valid l)
      /\ forall v, In v (valid l) ->
           x_leb (nanmin l) v = true /\ x_leb v (nanmax l) = true).
Proof.
  unfold nanmin, nanmax. pose proof (valid_not_nan l) as H.
  destruct (valid l) as [|x r]; [left; now repeat split|right].
  destruct (fold_minimum_valid r x H) as [Hmin1 Hmin2].
  destruct (fold_maximum_valid r x H) as [Hmax1 Hmax2].
  split; [exact Hmin1|]. split; [exact Hmax1|].
  intros v Hv. split; [now apply Hmin2|now apply Hmax2].
Qed.

(** X10. [min_da] and [max_da] on a field over (time, yh, xh): for each time
    the result is NaN when no cell holds a value, and otherwise the least,
    or the greatest, of the values of the cells that are not NaN, so that
    the minimum is never above the maximum.  Both results keep the
    attributes of the field. *)
Theorem min_da_max_da_bound_the_field :
  forall (nt ny nx : nat) (vda : list nat -> xfloat) (cda rda : list string)
         (ada : list (string * string)),
    exists mn mx,
      min_da (mk_DataArray ["time"; "yh"; "xh"]%string (mk_ndarray [nt; ny; nx] vda)
                           cda rda ada)
             ["yh"; "xh"]%string
      = Ok mn
      /\ max_da (mk_DataArray ["time"; "yh"; "xh"]%string
                              (mk_ndarray [nt; ny; nx] vda) cda rda ada)
                ["yh"; "xh"]%string
         = Ok mx
      /\ da_attrs mn = ada /\ da_attrs mx = ada
      /\ forall t,
           let cells := valid (map (fun c => vda (t :: c)) (indices [ny; nx])) in
           (cells = []
            /\ item (da_values mn) [t] = NaN /\ item (da_values mx) [t] = NaN)
           \/ (In (item (da_values mn) [t]) cells
               /\ In (item (da_values mx) [t]) cells
               /\ x_leb (item (da_values mn) [t]) (item (da_values mx) [t]) = true
               /\ forall v, In v cells ->
                    x_leb (item (da_values mn) [t]) v = true
                    /\ x_leb v (item (da_values mx) [t]) = true).
Proof.
  intros nt ny nx vda cda rda ada.
  destruct (@min_max_da_surface xfloat exact nt ny nx vda cda rda ada)
    as [mn [mx [Hmn [Hmx [_ [_ [_ [_ [Ha1 [Ha2 Hitem]]]]]]]]]].
  exists mn, mx. split; [exact Hmn|]. split; [exact Hmx|].
  split; [exact Ha1|]. split; [exact Ha2|].
  intros t cells. destruct (Hitem t) as [E1 E2]. rewrite E1, E2.
  destruct (nanmin_nanmax_bounds (map (fun c => vda (t :: c)) (indices [ny; nx])))
    as [[H0 [H1 H2]]|[H1 [H2 H3]]].
  - left. now repeat split.
  - right. split; [exact H1|]. split; [exact H2|]. split; [|exact H3].
    exact (proj2 (H3 _ H1)).
Qed.

(** ** The weighted mean of a field that is the same everywhere *)

(** ** The two wrappers region by region *)

Lemma list_eq_dec_refl (l : list nat) :
  (if list_eq_dec Nat.eq_dec l l then true else false) = true.
Proof. destruct (list_eq_dec Nat.eq_dec l l); [reflexivity|congruence]. Qed.

Section RegionalMean.
Context {F : Type} {ops : FloatOps F}.
Variable np_sum : list F -> F.
Variable np_sqrt : F -> F.
Variables nt nz ny nx nr : nat.
Variables vda vw vb : list nat -> F.
Variables cda cw cb rda rw labels : list string.
Variables ada aw ab : list (string * string).
Let var :=
mk_DataArray ["time"; "z_l"; "yh"; "xh"]%string (mk_ndarray [nt; nz; ny; nx] vda)
             cda rda ada.
Let w := mk_DataArray ["z_l"; "yh"; "xh"]%string (mk_ndarray [nz; ny; nx] vw) cw rw aw.
Let b :=
mk_DataArray ["region"; "yh"; "xh"]%string (mk_ndarray [nr; ny; nx] vb) cb labels ab.

(** The weight of a cell for region [r]: its weight where the mask of the
  region is one, NaN elsewhere. *)
Let weight_of_region (r z : nat) (c : list nat) : F :=
if feqb (vb (r :: c)) fone then vw (z :: c) else fnan.

Hypothesis Hcoords :
has cda "time" = true /\ has cda "z_l" = true
/\ has cda "yh" = true /\ has cda "xh" = true.

Lemma regional_field_levels : regional_field var b = true.
Proof.
destruct Hcoords as [H1 [H2 [H3 H4]]].
unfold regional_field. cbn [var da_dims da_coords length Nat.eqb andb].
rewrite H1, H2, H3, H4. cbn [andb].
apply forallb_forall. intros r _. apply list_eq_dec_refl.
Qed.

(** One turn of the loop of [HorizontalMeanDiff_da]. *)
Lemma regional_turn_mean (r : nat) :
exists out,
  (total <- xr_reduce (nansum np_sum) false
              (xr_where_one w (region3d var (sel_region b r)))
              ["yh"; "xh"]%string ;;
   mean_da np_sum var ["yh"; "xh"]%string
     (Some (xr_where_one w (region3d var (sel_region b r)))) (Some total))
  = Ok out
  /\ forall t z,
       item (da_values out) [t; z]
       = fdiv (nansum np_sum
                 (map (fun c => fmul (vda (t :: z :: c)) (weight_of_region r z c))
                      (indices [ny; nx])))
              (nansum np_sum (map (weight_of_region r z) (indices [ny; nx]))).
Proof.
eexists. split; [unfold mean_da; cbn; reflexivity|].
intros t z. unfold weight_of_region. cbn.
change (flat_map (fun i => map (cons i) (flat_map (fun i0 => [[i0]]) (seq 0 nx)))
                 (seq 0 ny))
  with (indices [ny; nx]).
f_equal; f_equal; apply map_ext_in; intros c Hc;
  destruct (in_indices2 ny nx c Hc) as [j [i ->]]; reflexivity.
Qed.

(** One turn of the loop of [HorizontalMeanRmse_da]. *)
Lemma regional_turn_rms (r : nat) :
exists out,
  (total <- xr_reduce (nansum np_sum) false
              (xr_where_one w (region3d var (sel_region b r)))
              ["yh"; "xh"]%string ;;
   rms_da np_sum np_sqrt var ["yh"; "xh"]%string
     (Some (xr_where_one w (region3d var (sel_region b r)))) (Some total))
  = Ok out
  /\ forall t z,
       item (da_values out) [t; z]
       = np_sqrt
           (fdiv (nansum np_sum
                    (map (fun c => fmul (fmul (vda (t :: z :: c)) (vda (t :: z :: c)))
                                        (weight_of_region r z c))
                         (indices [ny; nx])))
                 (nansum np_sum (map (weight_of_region r z) (indices [ny; nx])))).
Proof.
eexists. split; [unfold rms_da; cbn; reflexivity|].
intros t z. unfold weight_of_region. cbn.
change (flat_map (fun i => map (cons i) (flat_map (fun i0 => [[i0]]) (seq 0 nx)))
                 (seq 0 ny))
  with (indices [ny; nx]).
f_equal; f_equal; f_equal; apply map_ext_in; intros c Hc;
  destruct (in_indices2 ny nx c Hc) as [j [i ->]]; reflexivity.
Qed.

(** The loop over the regions, for a reducer whose turns succeed. *)
Lemma regional_loop_entries
  (reduce : DataArray F -> list string -> option (DataArray F)
            -> option (DataArray F) -> result (DataArray F))
  (P : nat -> DataArray F -> Prop) :
(forall r, exists out,
    (total <- xr_reduce (nansum np_sum) false
                (xr_where_one w (region3d var (sel_region b r)))
                ["yh"; "xh"]%string ;;
     reduce var ["yh"; "xh"]%string
       (Some (xr_where_one w (region3d var (sel_region b r)))) (Some total))
    = Ok out /\ P r out) ->
distinct labels = true ->
exists od,
  regional_loop np_sum reduce var ["yh"; "xh"]%string w b = Ok (PerRegion od)
  /\ map fst od = labels
  /\ forall r, r < length labels ->
       exists out, nth_error od r = Some (nth r labels EmptyString, out) /\ P r out.
Proof.
intros Hturn Hdistinct.
destruct (fold_regions
            (fun r =>
               total <- xr_reduce (nansum np_sum) false
                          (xr_where_one w (region3d var (sel_region b r)))
                          ["yh"; "xh"]%string ;;
               reduce var ["yh"; "xh"]%string
                 (Some (xr_where_one w (region3d var (sel_region b r))))
                 (Some total))
            labels) with (n := length labels)
  as [od [Hfold [Hkeys Hod]]].
- intros r. destruct (Hturn r) as [out [Hout _]]. now exists out.
- now apply distinct_NoDup.
- lia.
- rewrite firstn_all in Hkeys. exists od. split; [|split; [exact Hkeys|]].
  + unfold regional_loop. rewrite regional_field_levels. cbn [negb].
    cbn [b da_region].
    match goal with
    | |- bind ?x _ = _ => assert (E : x = Ok od) by exact Hfold; rewrite E
    end.
    reflexivity.
  + intros r Hr. destruct (Hod r Hr) as [out [Hout Hnth]].
    exists out. split; [exact Hnth|].
    destruct (Hturn r) as [out' [Hout' HP]].
    rewrite Hout in Hout'. injection Hout' as ->. exact HP.
Qed.
End RegionalMean.

(** X21. [HorizontalMeanDiff_da] with basins, on a field over
    (time, z_l, yh, xh) with weights over (z_l, yh, xh): one entry for each
    region, in the order of the labels, that holds for each time and level
    the sum of field times weight over the sum of the weights, the weight
    of a cell being its weight where the mask of the region is one and NaN
    elsewhere, and NaN counting as zero in both sums.  On the worked field
    3, -1 with the volumes 2 and 6 the float64 means are 0 for the two
    cells, 3 for the western cell, and NaN for the region without cells. *)
Theorem HorizontalMeanDiff_da_region_by_region :
  (forall (F : Type) (ops : FloatOps F) (np_sum : list F -> F)
          (nt nz ny nx nr : nat) (vda vw vb : list nat -> F)
          (cda cw cb rda rw labels : list string)
          (ada aw ab : list (string * string)),
      has cda "time" = true /\ has cda "z_l" = true
      /\ has cda "yh" = true /\ has cda "xh" = true ->
      has cb "region" = true ->
      distinct labels = true ->
      exists od,
        HorizontalMeanDiff_da np_sum
          (mk_DataArray ["time"; "z_l"; "yh"; "xh"]%string
                        (mk_ndarray [nt; nz; ny; nx] vda) cda rda ada)
          ["yh"; "xh"]%string
          (Some (mk_DataArray ["z_l"; "yh"; "xh"]%string
                              (mk_ndarray [nz; ny; nx] vw) cw rw aw))
          (Some (mk_DataArray ["region"; "yh"; "xh"]%string
                              (mk_ndarray [nr; ny; nx] vb) cb labels ab))
        = Ok (PerRegion od)
        /\ map fst od = labels
        /\ forall r, r < length labels ->
             exists out,
               nth_error od r = Some (nth r labels EmptyString, out)
               /\ forall t z,
                    let skipna := fun x : F => if fisnan x then fzero else x in
                    let weight := fun c : list nat =>
                      if feqb (vb (r :: c)) fone then vw (z :: c) else fnan in
                    item (da_values out) [t; z]
                    = fdiv (np_sum
                              (map (fun c => skipna (fmul (vda (t :: z :: c))
                                                          (weight c)))
                                   (indices [ny; nx])))
                           (np_sum (map (fun c => skipna (weight c))
                                        (indices [ny; nx]))))
  /\ (exists od,
         HorizontalMeanDiff_da sum_seq field_1_1_1_2 ["yh"; "xh"]%string
           (Some volume_1_1_2) (Some basins_3_1_2)
         = Ok (PerRegion od)
         /\ map (fun kv => (fst kv, ravel (da_values (snd kv)))) od
            = [("Global", [0]); ("West", [3]); ("Nowhere", [nan])]%string%float).
Proof.
  split; [|eexists; split; reflexivity].
  intros F ops np_sum nt nz ny nx nr vda vw vb cda cw cb rda rw labels
         ada aw ab Hcoords Hregion Hdistinct.
  destruct (regional_loop_entries np_sum nt nz ny nx nr vda vw vb
              cda cw cb rda rw labels ada aw ab Hcoords (mean_da np_sum)
              (fun r out =>
                 forall t z,
                   item (da_values out) [t; z]
                   = fdiv (nansum np_sum
                             (map (fun c =>
                                     fmul (vda (t :: z :: c))
                                          (if feqb (vb (r :: c)) fone
                                           then vw (z :: c) else fnan))
                                  (indices [ny; nx])))
                          (nansum np_sum
                             (map (fun c => if feqb (vb (r :: c)) fone
                                            then vw (z :: c) else fnan)
                                  (indices [ny; nx])))))
    as [od [Hloop [Hkeys Hod]]].
  - intros r.
    exact (regional_turn_mean np_sum nt nz ny nx nr vda vw vb
             cda cw cb rda rw labels ada aw ab r).
  - exact Hdistinct.
  - exists od. split; [|split; [exact Hkeys|]].
    + unfold HorizontalMeanDiff_da.
      match goal with
      | |- bind ?c _ = _ => change c with (@Ok unit tt)
      end.
      cbn [bind]. unfold validate_regional. cbn [da_coords]. rewrite Hregion.
      cbn [negb da_values shape length Nat.eqb bind]. exact Hloop.
    + intros r Hr. destruct (Hod r Hr) as [out [Hnth HP]].
      exists out. split; [exact Hnth|].
      intros t z skipna weight. rewrite HP, !nansum_skipna. reflexivity.
Qed.

(** The theorem at the worked field over depth, its volumes and the three
    basins. *)
Lemma HorizontalMeanDiff_da_region_by_region_witness :
  exists od,
    HorizontalMeanDiff_da sum_seq field_1_1_1_2 ["yh"; "xh"]%string
      (Some volume_1_1_2) (Some basins_3_1_2)
    = Ok (PerRegion od)
    /\ map fst od = ["Global"; "West"; "Nowhere"]%string.
Proof.
  destruct (proj1 HorizontalMeanDiff_da_region_by_region float binary64 sum_seq
              1 1 1 2 3
              (item (da_values field_1_1_1_2)) (item (da_values volume_1_1_2))
              (item (da_values basins_3_1_2))
              ["time"; "z_l"; "yh"; "xh"]%string ["z_l"; "yh"; "xh"]%string
              ["region"; "yh"; "xh"]%string [] []
              ["Global"; "West"; "Nowhere"]%string [] [] []
              (conj eq_refl (conj eq_refl (conj eq_refl eq_refl)))
              eq_refl eq_refl)
    as [od [H1 [H2 _]]].
  exists od. split; [exact H1|exact H2].
Defined.

(** X22. [HorizontalMeanRmse_da] with basins, on the same layout: one entry for
    each region, in the order of the labels, that holds for each time and
    level the root of the sum of squares times weight over the sum of the
    weights, with the weights of the region as above.  On the worked field
    the float64 values are the root of 3 for the two cells, 3 for the
    western cell, and NaN for the region without cells. *)
Theorem HorizontalMeanRmse_da_region_by_region :
  (forall (F : Type) (ops : FloatOps F) (np_sum : list F -> F) (np_sqrt : F -> F)
          (nt nz ny nx nr : nat) (vda vw vb : list nat -> F)
          (cda cw cb rda rw labels : list string)
          (ada aw ab : list (string * string)),
      has cda "time" = true /\ has cda "z_l" = true
      /\ has cda "yh" = true /\ has cda "xh" = true ->
      has cb "region" = true ->
      distinct labels = true ->
      exists od,
        HorizontalMeanRmse_da np_sum np_sqrt
          (mk_DataArray ["time"; "z_l"; "yh"; "xh"]%string
                        (mk_ndarray [nt; nz; ny; nx] vda) cda rda ada)
          ["yh"; "xh"]%string
          (Some (mk_DataArray ["z_l"; "yh"; "xh"]%string
                              (mk_ndarray [nz; ny; nx] vw) cw rw aw))
          (Some (mk_DataArray ["region"; "yh"; "xh"]%string
                              (mk_ndarray [nr; ny; nx] vb) cb labels ab))
        = Ok (PerRegion od)
        /\ map fst od = labels
        /\ forall r, r < length labels ->
             exists out,
               nth_error od r = Some (nth r labels EmptyString, out)
               /\ forall t z,
                    let skipna := fun x : F => if fisnan x then fzero else x in
                    let weight := fun c : list nat =>
                      if feqb (vb (r :: c)) fone then vw (z :: c) else fnan in
                    item (da_values out) [t; z]
                    = np_sqrt
                        (fdiv (np_sum
                                 (map (fun c =>
                                         skipna (fmul (fmul (vda (t :: z :: c))
                                                            (vda (t :: z :: c)))
                                                      (weight c)))
                                      (indices [ny; nx])))
                              (np_sum (map (fun c => skipna (weight c))
                                           (indices [ny; nx])))))
  /\ (exists od,
         HorizontalMeanRmse_da sum_seq PrimFloat.sqrt field_1_1_1_2
           ["yh"; "xh"]%string (Some volume_1_1_2) (Some basins_3_1_2)
         = Ok (PerRegion od)
         /\ map (fun kv => (fst kv, ravel (da_values (snd kv)))) od
            = [("Global", [PrimFloat.sqrt 3]); ("West", [3]);
               ("Nowhere", [nan])]%string%float).
Proof.
  split; [|eexists; split; reflexivity].
  intros F ops np_sum np_sqrt nt nz ny nx nr vda vw vb cda cw cb rda rw labels
         ada aw ab Hcoords Hregion Hdistinct.
  destruct (regional_loop_entries np_sum nt nz ny nx nr vda vw vb
              cda cw cb rda rw labels ada aw ab Hcoords (rms_da np_sum np_sqrt)
              (fun r out =>
                 forall t z,
                   item (da_values out) [t; z]
                   = np_sqrt
                       (fdiv (nansum np_sum
                                (map (fun c =>
                                        fmul (fmul (vda (t :: z :: c))
                                                   (vda (t :: z :: c)))
                                             (if feqb (vb (r :: c)) fone
                                              then vw (z :: c) else fnan))
                                     (indices [ny; nx])))
                             (nansum np_sum
                                (map (fun c => if feqb (vb (r :: c)) fone
                                               then vw (z :: c) else fnan)
                                     (indices [ny; nx]))))))
    as [od [Hloop [Hkeys Hod]]].
  - intros r.
    exact (regional_turn_rms np_sum np_sqrt nt nz ny nx nr vda vw vb
             cda cw cb rda rw labels ada aw ab r).
  - exact Hdistinct.
  - exists od. split; [|split; [exact Hkeys|]].
    + unfold HorizontalMeanRmse_da.
      match goal with
      | |- bind ?c _ = _ => change c with (@Ok unit tt)
      end.
      cbn [bind]. unfold validate_regional. cbn [da_coords]. rewrite Hregion.
      cbn [negb da_values shape length Nat.eqb bind]. exact Hloop.
    + intros r Hr. destruct (Hod r Hr) as [out [Hnth HP]].
      exists out. split; [exact Hnth|].
      intros t z skipna weight. rewrite HP, !nansum_skipna. reflexivity.
Qed.

(** The theorem at the worked field over depth, its volumes and the three
    basins. *)
Lemma HorizontalMeanRmse_da_region_by_region_witness :
  exists od,
    HorizontalMeanRmse_da sum_seq PrimFloat.sqrt field_1_1_1_2 ["yh"; "xh"]%string
      (Some volume_1_1_2) (Some basins_3_1_2)
    = Ok (PerRegion od)
    /\ map fst od = ["Global"; "West"; "Nowhere"]%string.
Proof.
  destruct (proj1 HorizontalMeanRmse_da_region_by_region float binary64 sum_seq
              PrimFloat.sqrt 1 1 1 2 3
              (item (da_values field_1_1_1_2)) (item (da_values volume_1_1_2))
              (item (da_values basins_3_1_2))
              ["time"; "z_l"; "yh"; "xh"]%string ["z_l"; "yh"; "xh"]%string
              ["region"; "yh"; "xh"]%string [] []
              ["Global"; "West"; "Nowhere"]%string [] [] []
              (conj eq_refl (conj eq_refl (conj eq_refl eq_refl)))
              eq_refl eq_refl)
    as [od [H1 [H2 _]]].
  exists od. split; [exact H1|exact H2].
Defined.

(** ** One turn of the loop over time of [main] *)

(** In float64 a value that passes the test of [filled_invalid] is neither
    NaN nor an infinity. *)
Lemma filled_invalid_finite (a : ndarray float) (idx : list nat) :
  is_nan (item (filled_invalid a) idx) = false
  /\ (abs (item (filled_invalid a) idx) =? infinity)%float = false.
Proof.
  unfold filled_invalid, np_isfinite. cbn [item fisnan fsub fzero binary64].
  destruct (is_nan (item a idx - item a idx)) eqn:E; cbn [negb];
    [split; reflexivity|].
  apply is_nan_false in E. rewrite FloatAxioms.sub_spec in E.
  rewrite is_nan_false, FloatAxioms.eqb_spec, abs_spec.
  change (Prim2SF infinity) with (S754_infinity false).
  unfold SF64sub in E.
  destruct (Prim2SF (item a idx)) as [s|s| |s m e]; cbn [SFsub SFabs] in *.
  - split; [discriminate|reflexivity].
  - destruct s; congruence.
  - congruence.
  - split; [discriminate|reflexivity].
Qed.

(** X8. One turn of the loop over time of [main]: the streamfunction of the
    transport with zero in the place of its invalid values, under the mask
    of the Atlantic basins, scaled and taken at the centres of the layers,
    and [findExtrema] on it between the two latitudes.  The turn raises
    exactly when no cell has [min_lat <= yy <= max_lat] and [z < -0];
    otherwise what it stores is the value at the centre of a layer,
    [0.5 * (psi[k,j] * c + psi[k+1,j] * c)] for a cell [(k, j)] of the
    array.  In float64 the fill leaves neither NaN nor infinity in the
    transport, but the sums can still overflow: the third conjunct is a
    turn that stores -1, the last one a turn on finite transports of
    magnitude 2^1023 that stores NaN. *)
Theorem amoc_value_is_a_layer_centre_value :
  (forall (F : Type) (ops : FloatOps F) (np_sum : list F -> F)
          (nk ny nx : nat) (vvh vcode vy vz : list nat -> F)
          (c min_lat max_lat : F),
      exists psi,
        MOCpsi np_sum (filled_invalid (mk_ndarray [nk; ny; nx] vvh))
          (Some (np_multiply (atlantic_mask (mk_ndarray [ny; nx] vcode))
                             (np_roll_up (atlantic_mask (mk_ndarray [ny; nx] vcode)))))
        = Some psi
        /\ shape psi = [S nk; ny]
        /\ (amoc_value np_sum (mk_ndarray [nk; ny; nx] vvh)
                       (mk_ndarray [ny; nx] vcode)
                       (mk_ndarray [nk; ny] vy) (mk_ndarray [nk; ny] vz)
                       c min_lat max_lat
            = None
            <-> forall k j, k < nk -> j < ny ->
                  fleb min_lat (vy [k; j]) && fleb (vy [k; j]) max_lat
                  && fltb (vz [k; j]) (fopp fzero) = false)
        /\ ((exists k j, k < nk /\ j < ny
                         /\ fleb min_lat (vy [k; j]) && fleb (vy [k; j]) max_lat
                            && fltb (vz [k; j]) (fopp fzero) = true) ->
            exists k j,
              k < nk /\ j < ny
              /\ amoc_value np_sum (mk_ndarray [nk; ny; nx] vvh)
                            (mk_ndarray [ny; nx] vcode)
                            (mk_ndarray [nk; ny] vy) (mk_ndarray [nk; ny] vz)
                            c min_lat max_lat
                 = Some (Returned
                           (fmul (fdiv fone (fofnat 2))
                                 (fadd (fmul (item psi [k; j]) c)
                                       (fmul (item psi [S k; j]) c))))))
  /\ (forall (a : ndarray float) (idx : list nat),
         is_nan (item (filled_invalid a) idx) = false
         /\ (abs (item (filled_invalid a) idx) =? infinity)%float = false)
  /\ amoc_value sum_seq
       (np_reshape nan [nan; 1; 1; 1]%float [2; 1; 2])
       (np_full [1; 2] 2%float)
       (np_full [2; 1] 26.5%float) (np_full [2; 1] (-10)%float)
       1%float 26%float 27%float
     = Some (Returned (-1)%float)
  /\ amoc_value sum_seq
       (np_reshape nan [-0x1p1023; -0x1p1023; 0x1p1023; 0x1p1023]%float [2; 1; 2])
       (np_full [1; 2] 2%float)
       (np_full [2; 1] 26.5%float) (np_full [2; 1] (-10)%float)
       1%float 26%float 27%float
     = Some (Returned nan).
Proof.
  split; [|split; [exact filled_invalid_finite|split; reflexivity]].
  intros F ops np_sum nk ny nx vvh vcode vy vz c min_lat max_lat.
  set (m := np_multiply (atlantic_mask (mk_ndarray [ny; nx] vcode))
                        (np_roll_up (atlantic_mask (mk_ndarray [ny; nx] vcode)))).
  set (tmp := mk_ndarray [nk; ny; nx]
                (item (filled_invalid (mk_ndarray [nk; ny; nx] vvh)))).
  assert (Htmp : filled_invalid (mk_ndarray [nk; ny; nx] vvh) = tmp) by reflexivity.
  set (psi := scan np_sum (Some m) tmp [] (S nk) (np_zeros [S nk; ny])).
  assert (HMOC : MOCpsi np_sum (filled_invalid (mk_ndarray [nk; ny; nx] vvh)) (Some m)
                 = Some psi)
    by (rewrite Htmp; apply MOCpsi_rank3).
  assert (Hshape : shape psi = [S nk; ny]) by (unfold psi; now rewrite shape_scan).
  exists psi. split; [exact HMOC|]. split; [exact Hshape|].
  set (vpsi := fun idx : list nat =>
                 match idx with
                 | k :: rest =>
                     fmul (fdiv fone (fofnat 2))
                          (fadd (fmul (item psi (k :: rest)) c)
                                (fmul (item psi (S k :: rest)) c))
                 | [] => fmul (item psi []) c
                 end).
  assert (Hvalue : amoc_value np_sum (mk_ndarray [nk; ny; nx] vvh)
                     (mk_ndarray [ny; nx] vcode)
                     (mk_ndarray [nk; ny] vy) (mk_ndarray [nk; ny] vz)
                     c min_lat max_lat
                   = findExtrema (mk_ndarray [nk; ny] vy) (mk_ndarray [nk; ny] vz)
                       (mk_ndarray [nk; ny] vpsi)
                       min_lat max_lat fzero fone false).
  { unfold amoc_value. fold m. rewrite HMOC.
    unfold layer_centres, np_scale. cbn [shape item]. rewrite Hshape. reflexivity. }
  rewrite Hvalue. clear Hvalue. split.
  - rewrite <- window_values_empty with (vpsi := vpsi). split.
    + intros H.
      destruct (window_values _ _ _ min_lat max_lat fzero) as [|x r] eqn:E;
        [reflexivity|].
      exfalso.
      destruct (findExtrema_stages nk ny vy vz vpsi min_lat max_lat fzero fone)
        as [m0 [k [Hm [_ Hloc]]]]; [rewrite E; discriminate|].
      unfold findExtrema in H. rewrite Hm, Hloc in H. discriminate.
    + intros E. unfold findExtrema, psiMax. rewrite E. reflexivity.
  - intros [k0 [j0 [Hk0 [Hj0 Hw]]]].
    destruct (findExtrema_stages nk ny vy vz vpsi min_lat max_lat fzero fone)
      as [m0 [k [Hm [Hk Hloc]]]].
    { now apply (window_values_cell nk ny vy vz vpsi min_lat max_lat fzero k0 j0). }
    destruct (position_bounds nk ny k Hk) as [Hj [Hi _]].
    exists (k / ny), (k mod ny). split; [exact Hj|]. split; [exact Hi|].
    unfold findExtrema. rewrite Hm, Hloc. reflexivity.
Qed.

(** ** The weighted statistics of [myStats_da] region by region *)

Section RegionMeans.
Context {F : Type} {ops : FloatOps F}.
Variable np_sum : list F -> F.
Variable np_sqrt : F -> F.
Variables nt ny nx nr : nat.
Variables vda vw vb : list nat -> F.
Variables cda cw cb rda rw labels : list string.
Variables ada aw ab : list (string * string).
Let da :=
mk_DataArray ["time"; "yh"; "xh"]%string (mk_ndarray [nt; ny; nx] vda) cda rda ada.
Let w := mk_DataArray ["yh"; "xh"]%string (mk_ndarray [ny; nx] vw) cw rw aw.
Let b :=
mk_DataArray ["region"; "yh"; "xh"]%string (mk_ndarray [nr; ny; nx] vb) cb labels ab.

End RegionMeans.



(** ** [MOCpsi] in closed form *)

(** The column of a scan, as one run of subtractions from the bottom up. *)
Lemma interface_above_fold {F : Type} {ops : FloatOps F}
    (z : nat -> F) (b : F) (nk d : nat) :
  d <= nk ->
  interface_above z b nk d
  = fold_left (fun acc l => fsub acc (z l)) (rev (seq (nk - d) d)) b.
Proof.
  induction d as [|d IH]; intros Hd; [reflexivity|].
  cbn [interface_above seq rev]. rewrite fold_left_app. cbn [fold_left].
  replace (S (nk - S d)) with (nk - d) by lia. now rewrite IH by lia.
Qed.

(** X3. The streamfunction at an interface is what is left of zero after the
    zonal sums of the layers below it have been subtracted one by one, the
    bottom layer first: at interface [k] of [nk] layers,
    [(((0 - s[nk-1]) - s[nk-2]) - ...) - s[k]] with [s[l]] the zonal sum of
    layer [l].  This holds in float64, where the order matters: with the
    layers 1, 1 and 1e16 from the top down, the value at the top is -1e16,
    the two subtractions of 1 being lost in the rounding, and not minus the
    sum 1 + 1 + 1e16 of the layers taken from the top. *)
Theorem MOCpsi_subtracts_the_layers_from_the_bottom :
  (forall (F : Type) (ops : FloatOps F) (np_sum : list F -> F)
          (nk ny nx : nat) (v : list nat -> F),
      exists psi,
        MOCpsi np_sum (mk_ndarray [nk; ny; nx] v) None = Some psi
        /\ forall k j, k <= nk ->
             item psi [k; j]
             = fold_left
                 (fun acc l =>
                    fsub acc (np_sum (map (fun i => v [l; j; i]) (seq 0 nx))))
                 (rev (seq k (nk - k))) fzero)
  /\ (exists psi,
         MOCpsi sum_seq
           (np_reshape nan [1; 1; 10000000000000000]%float [3; 1; 1]) None
         = Some psi
         /\ item psi [0; 0] = (-10000000000000000)%float
         /\ (- (1 + 1 + 10000000000000000))%float = (-10000000000000002)%float
         /\ (-10000000000000002 <? -10000000000000000)%float = true).
Proof.
  split.
  - intros F ops np_sum nk ny nx v.
    rewrite MOCpsi_rank3. eexists. split; [reflexivity|].
    intros k j Hk.
    pose proof (item_scan_closed np_sum None (mk_ndarray [nk; ny; nx] v) []
                  nk (np_zeros [S nk; ny]) (nk - k) [j]) as E.
    cbn [app] in E. replace (nk - (nk - k)) with k in E by lia.
    rewrite E by lia. clear E.
    rewrite interface_above_fold by lia.
    replace (nk - (nk - k)) with k by lia. reflexivity.
  - eexists. split; [reflexivity|]. repeat split; reflexivity.
Qed.
